(** * A shallow embedding of [train.py]: the MLP binary classifier

    The classifier of [train.py] is a small multi-layer perceptron written
    on top of numpy.  This development embeds the numerical engine of the
    script (activation registry, loss, regulariser, construction, forward
    pass with dropout, backward pass, update rule, training loop and
    inference) and proves the properties its specification states.
    Further sections prove what the specification leaves open: which
    inputs are rejected and where, what construction and a forward pass
    draw from the random state, the gradient step entry by entry, what
    training prints, that validation is passive, and what holds of the
    registered functions and the loss over the real numbers.

    Modelling choices, all visible in the definitions below:

    - floating-point numbers are an abstract carrier [F] with the
      operations numpy applies to it (class [Scalar]); the structural
      theorems hold for every interpretation of those operations, the
      numerical ones are stated at the instance over the real numbers;
    - a two-dimensional numpy array is its shape together with an indexing
      function ([ndarray]); shape mismatches raise [ValueError] as numpy
      does, and broadcasting follows numpy's rule on two dimensions;
    - Python exceptions are the [Err] results of an error monad; the
      methods of the class run in a state-and-error monad over the object
      [self], numpy's global random state and the standard output;
    - numpy's global random state is the sequence of samples it is going to
      deliver together with a cursor. *)

From Stdlib Require Import String.
From Stdlib Require Import List Arith ZArith Lia Bool.
From Stdlib Require Import Reals Lra.
Import ListNotations.

Set Implicit Arguments.

(** ** Floating-point scalars *)

(** The operations [train.py] applies to floats.  [lit_*] are the decimal
    literals of the script.  The one law is that [x > x] is false, which
    holds of IEEE 754 comparison (also at NaN) and of the reals. *)
Class Scalar : Type := {
  F : Type;
  zero : F;
  one : F;
  lit_0_5 : F;
  lit_0_01 : F;
  lit_0_001 : F;
  lit_1e_8 : F;
  fadd : F -> F -> F;
  fsub : F -> F -> F;
  fmul : F -> F -> F;
  fdiv : F -> F -> F;
  fneg : F -> F;
  fexp : F -> F;
  flog : F -> F;
  fmaximum : F -> F -> F;
  fgt : F -> F -> bool;
  of_nat : nat -> F;
  fgt_irrefl : forall x, fgt x x = false
}.

(** ** Python exceptions and results *)

Inductive exn : Type :=
| ValueError (msg : string)
| KeyError (key : string)
| IndexError
| UnboundLocalError (var : string).

Inductive result (A : Type) : Type :=
| Ok (a : A)
| Err (e : exn).
Arguments Ok {A} a.
Arguments Err {A} e.

Definition rbind {A B} (r : result A) (k : A -> result B) : result B :=
  match r with
  | Ok a => k a
  | Err e => Err e
  end.

Declare Scope result_scope.
Delimit Scope result_scope with result.
Notation "'let?' x := r 'in' k" := (rbind r (fun x => k))
  (at level 10, x pattern, r at level 100, k at level 200)
  : result_scope.

Definition is_ok {A} (r : result A) : bool :=
  match r with Ok _ => true | Err _ => false end.

(** Python list indexing with a non-negative index, and with [-1]. *)
Definition getitem {A} (l : list A) (i : nat) : result A :=
  match nth_error l i with
  | Some a => Ok a
  | None => Err IndexError
  end.

Definition getlast {A} (l : list A) : result A :=
  match rev l with
  | a :: _ => Ok a
  | [] => Err IndexError
  end.

(** ** Two-dimensional numpy arrays *)

Record ndarray (T : Type) : Type := mk_ndarray {
  nrows : nat;
  ncols : nat;
  item : nat -> nat -> T
}.
Arguments mk_ndarray {T} nrows ncols item.

Definition shape {T} (A : ndarray T) : nat * nat := (nrows A, ncols A).

(** Conversion from and to nested lists, row by row. *)
Definition of_rows {T} (d : T) (rows : list (list T)) : ndarray T :=
  mk_ndarray (length rows) (length (hd [] rows))
             (fun i j => nth j (nth i rows []) d).

Definition to_rows {T} (A : ndarray T) : list (list T) :=
  map (fun i => map (fun j => item A i j) (seq 0 (ncols A))) (seq 0 (nrows A)).

(** The entries in row-major order. *)
Definition ravel {T} (A : ndarray T) : list T :=
  concat (to_rows A).

Definition amap {T U} (f : T -> U) (A : ndarray T) : ndarray U :=
  mk_ndarray (nrows A) (ncols A) (fun i j => f (item A i j)).

(** [A.T] *)
Definition transpose {T} (A : ndarray T) : ndarray T :=
  mk_ndarray (ncols A) (nrows A) (fun i j => item A j i).

(** numpy's broadcasting rule on one dimension. *)
Definition broadcast_dim (a b : nat) : result nat :=
  if a =? b then Ok a
  else if a =? 1 then Ok b
  else if b =? 1 then Ok a
  else Err (ValueError "operands could not be broadcast together").

(** Reading a broadcast operand: a dimension of length 1 is repeated. *)
Definition bitem {T} (A : ndarray T) (i j : nat) : T :=
  item A (if nrows A =? 1 then 0 else i) (if ncols A =? 1 then 0 else j).

(** An elementwise binary operation [A op B] creating a new array. *)
Definition broadcast2 {T} (op : T -> T -> T) (A B : ndarray T)
  : result (ndarray T) :=
  (let? r := broadcast_dim (nrows A) (nrows B) in
   let? c := broadcast_dim (ncols A) (ncols B) in
   Ok (mk_ndarray r c (fun i j => op (bitem A i j) (bitem B i j))))%result.

(** An in-place operation [A op= B]: the result must have the shape of [A]. *)
Definition inplace2 {T} (op : T -> T -> T) (A B : ndarray T)
  : result (ndarray T) :=
  (let? r := broadcast_dim (nrows A) (nrows B) in
   let? c := broadcast_dim (ncols A) (ncols B) in
   if (r =? nrows A) && (c =? ncols A)
   then Ok (mk_ndarray (nrows A) (ncols A)
                       (fun i j => op (item A i j) (bitem B i j)))
   else Err (ValueError "non-broadcastable output operand"))%result.

(** Arrays of floats. *)
Abbreviation array := (ndarray F).

Section Numpy.
Context {Sc : Scalar}.

(** Left-to-right sum of a list of floats. *)
Definition fsum (l : list F) : F := fold_left fadd l zero.

(** [np.dot] on two-dimensional arrays. *)
Definition dot (A B : array) : result array :=
  if ncols A =? nrows B
  then Ok (mk_ndarray (nrows A) (ncols B)
             (fun i j => fsum (map (fun k => fmul (item A i k) (item B k j))
                                   (seq 0 (ncols A)))))
  else Err (ValueError "shapes not aligned").

Definition add_arrays : array -> array -> result array := broadcast2 fadd.
Definition sub_arrays : array -> array -> result array := broadcast2 fsub.
Definition mul_arrays : array -> array -> result array := broadcast2 fmul.
Definition div_arrays : array -> array -> result array := broadcast2 fdiv.

(** [np.sum(A)] and [np.mean(A)] over all entries. *)
Definition np_sum (A : array) : F := fsum (ravel A).
Definition np_mean (A : array) : F :=
  fdiv (np_sum A) (of_nat (nrows A * ncols A)).

(** [np.sum(A, axis=0, keepdims=True)] *)
Definition sum_axis0_keepdims (A : array) : array :=
  mk_ndarray 1 (ncols A)
    (fun _ j => fsum (map (fun i => item A i j) (seq 0 (nrows A)))).

(** [np.zeros((n, m))] *)
Definition zeros (n m : nat) : array := mk_ndarray n m (fun _ _ => zero).

(** [(A > x).astype(float)] *)
Definition gt_as_float (A : array) (x : F) : array :=
  amap (fun a => if fgt a x then one else zero) A.

(** [(A > x).astype(int)] *)
Definition gt_as_int (A : array) (x : F) : ndarray Z :=
  amap (fun a => if fgt a x then 1%Z else 0%Z) A.

(** *** The global random state *)

(** The samples numpy is going to deliver and how many were consumed. *)
Record RandomState : Type := mk_RandomState {
  samples : nat -> F;
  consumed : nat
}.

(** [np.random.rand(n, m)] and [np.random.randn(n, m)]: both fill an
    array row by row with the next [n * m] samples. *)
Definition draw (n m : nat) (g : RandomState) : array * RandomState :=
  (mk_ndarray n m (fun i j => samples g (consumed g + i * m + j)),
   mk_RandomState (samples g) (consumed g + n * m)).

Definition rand := draw.
Definition randn := draw.

(** ** Activation registry, loss and regulariser *)

Definition sigmoid (x : array) : array :=
  amap (fun v => fdiv one (fadd one (fexp (fneg v)))) x.

Definition sigmoidDerivative (x : array) : array :=
  amap (fun v => fmul v (fsub one v)) x.

Definition relu (x : array) : array :=
  amap (fun v => fmaximum zero v) x.

Definition reluDerivative (x : array) : array :=
  gt_as_float x zero.

Definition activation : Type := (array -> array) * (array -> array).

Definition ACTIVATIONS : list (string * activation) :=
  [ ("sigmoid"%string, (sigmoid, sigmoidDerivative));
    ("relu"%string, (relu, reluDerivative)) ].

(** Lookup [d[key]] in a dict given by its items. *)
Fixpoint dict_get {V} (d : list (string * V)) (key : string) : result V :=
  match d with
  | [] => Err (KeyError key)
  | (k, v) :: d' => if String.eqb k key then Ok v else dict_get d' key
  end.

(** [-np.mean(y_true * np.log(y_pred + 1e-8)
             + (1 - y_true) * np.log(1 - y_pred + 1e-8))] *)
Definition binary_cross_entropy (y_true y_pred : array) : result F :=
  (let l1 := amap flog (amap (fun p => fadd p lit_1e_8) y_pred) in
   let? t1 := mul_arrays y_true l1 in
   let l2 := amap flog (amap (fun p => fadd (fsub one p) lit_1e_8) y_pred) in
   let? t2 := mul_arrays (amap (fun t => fsub one t) y_true) l2 in
   let? s := add_arrays t1 t2 in
   Ok (fneg (np_mean s)))%result.

(** [(y_pred - y_true) / ((y_pred * (1 - y_pred)) + 1e-8)] *)
Definition binary_cross_entropyDerivative (y_true y_pred : array)
  : result array :=
  (let? num := sub_arrays y_pred y_true in
   let den := amap (fun p => fadd (fmul p (fsub one p)) lit_1e_8) y_pred in
   div_arrays num den)%result.

(** [alpha * sum(np.sum(w ** 2) for w in weights)] *)
Definition l2_penalty (weights : list array) (alpha : F) : F :=
  fmul alpha
       (fold_left fadd
          (map (fun w => np_sum (amap (fun v => fmul v v) w)) weights)
          zero).

End Numpy.

(** ** The classifier object and the world its methods run in *)

Section Classifier.
Context {Sc : Scalar}.

Record MLPBinaryClassifier : Type := mk_MLPBinaryClassifier {
  input_size : nat;
  hidden_layers : list nat;
  activations : list string;
  learning_rate : F;
  epochs : nat;
  l2_lambda : F;
  dropout_rates : list F;
  weights : list array;
  biases : list array;
  activation_funcs : list (array -> array);
  activation_derivatives : list (array -> array);
  train_losses : list F;
  val_losses : list F
}.

(** Lines written by [print]. *)
Inductive line : Type :=
| EpochLoss (epoch : nat) (loss : F)
| ValLoss (val_loss : F).

Record World : Type := mk_World {
  self : MLPBinaryClassifier;
  np_random : RandomState;
  stdout : list line
}.

(** State-and-error monad: an exception leaves the mutations made so far
    in place. *)
Definition M (A : Type) : Type := World -> World * result A.

Definition ret {A} (a : A) : M A := fun w => (w, Ok a).

Definition bind {A B} (c : M A) (k : A -> M B) : M B :=
  fun w => match c w with
           | (w', Ok a) => k a w'
           | (w', Err e) => (w', Err e)
           end.

Definition lift {A} (r : result A) : M A := fun w => (w, r).

Definition raise {A} (e : exn) : M A := fun w => (w, Err e).

Definition get_self : M MLPBinaryClassifier := fun w => (w, Ok (self w)).

Definition modify_self (f : MLPBinaryClassifier -> MLPBinaryClassifier)
  : M unit :=
  fun w => (mk_World (f (self w)) (np_random w) (stdout w), Ok tt).

Definition with_random {A} (f : RandomState -> A * RandomState) : M A :=
  fun w => let (a, g) := f (np_random w) in
           (mk_World (self w) g (stdout w), Ok a).

Definition print (l : line) : M unit :=
  fun w => (mk_World (self w) (np_random w) (stdout w ++ [l]), Ok tt).

End Classifier.

Declare Scope monad_scope.
Delimit Scope monad_scope with monad.
Notation "x <- c1 ;; c2" := (bind c1 (fun x => c2))
  (at level 61, c1 at next level, right associativity) : monad_scope.
Notation "' pat <- c1 ;; c2" := (bind c1 (fun x => match x with pat => c2 end))
  (at level 61, pat pattern, c1 at next level, right associativity)
  : monad_scope.
Notation "c1 ;; c2" := (bind c1 (fun _ => c2))
  (at level 61, right associativity) : monad_scope.

(** [for i in l: s = body(i, s)], in the two monads. *)
Fixpoint rfor {St} (l : list nat) (body : nat -> St -> result St) (s : St)
  : result St :=
  match l with
  | [] => Ok s
  | i :: l' => rbind (body i s) (rfor l' body)
  end.

Section Methods.
Context {Sc : Scalar}.
Local Open Scope monad_scope.

Fixpoint for_each {St} (l : list nat) (body : nat -> St -> M St) (s : St)
  : M St :=
  match l with
  | [] => ret s
  | i :: l' => s' <- body i s ;; for_each l' body s'
  end.

(** [range(n)] *)
Definition range (n : nat) : list nat := seq 0 n.

(** [l[i] = v] for an index in range; out of range raises. *)
Fixpoint setitem {A} (l : list A) (i : nat) (v : A) : result (list A) :=
  match l, i with
  | [], _ => Err IndexError
  | _ :: l', 0 => Ok (v :: l')
  | a :: l', S i' =>
      match setitem l' i' v with
      | Ok r => Ok (a :: r)
      | Err e => Err e
      end
  end.

(** *** Field updates of [self] *)

Definition set_weights (ws : list array) (m : MLPBinaryClassifier) :=
  mk_MLPBinaryClassifier (input_size m) (hidden_layers m) (activations m)
    (learning_rate m) (epochs m) (l2_lambda m) (dropout_rates m)
    ws (biases m) (activation_funcs m) (activation_derivatives m)
    (train_losses m) (val_losses m).

Definition set_biases (bs : list array) (m : MLPBinaryClassifier) :=
  mk_MLPBinaryClassifier (input_size m) (hidden_layers m) (activations m)
    (learning_rate m) (epochs m) (l2_lambda m) (dropout_rates m)
    (weights m) bs (activation_funcs m) (activation_derivatives m)
    (train_losses m) (val_losses m).

Definition set_activation_funcs (fs : list (array -> array))
           (m : MLPBinaryClassifier) :=
  mk_MLPBinaryClassifier (input_size m) (hidden_layers m) (activations m)
    (learning_rate m) (epochs m) (l2_lambda m) (dropout_rates m)
    (weights m) (biases m) fs (activation_derivatives m)
    (train_losses m) (val_losses m).

Definition set_activation_derivatives (ds : list (array -> array))
           (m : MLPBinaryClassifier) :=
  mk_MLPBinaryClassifier (input_size m) (hidden_layers m) (activations m)
    (learning_rate m) (epochs m) (l2_lambda m) (dropout_rates m)
    (weights m) (biases m) (activation_funcs m) ds
    (train_losses m) (val_losses m).

Definition set_train_losses (ls : list F) (m : MLPBinaryClassifier) :=
  mk_MLPBinaryClassifier (input_size m) (hidden_layers m) (activations m)
    (learning_rate m) (epochs m) (l2_lambda m) (dropout_rates m)
    (weights m) (biases m) (activation_funcs m) (activation_derivatives m)
    ls (val_losses m).

Definition set_val_losses (ls : list F) (m : MLPBinaryClassifier) :=
  mk_MLPBinaryClassifier (input_size m) (hidden_layers m) (activations m)
    (learning_rate m) (epochs m) (l2_lambda m) (dropout_rates m)
    (weights m) (biases m) (activation_funcs m) (activation_derivatives m)
    (train_losses m) ls.

Definition set_l2_lambda (l : F) (m : MLPBinaryClassifier) :=
  mk_MLPBinaryClassifier (input_size m) (hidden_layers m) (activations m)
    (learning_rate m) (epochs m) l (dropout_rates m)
    (weights m) (biases m) (activation_funcs m) (activation_derivatives m)
    (train_losses m) (val_losses m).

Definition set_dropout_rates (rs : list F) (m : MLPBinaryClassifier) :=
  mk_MLPBinaryClassifier (input_size m) (hidden_layers m) (activations m)
    (learning_rate m) (epochs m) (l2_lambda m) rs
    (weights m) (biases m) (activation_funcs m) (activation_derivatives m)
    (train_losses m) (val_losses m).

(** *** Construction *)

(** One iteration of the loop of [_initialize_network]. *)
Definition initialize_layer (layer_sizes : list nat) (i : nat) (_ : unit)
  : M unit :=
  n <- lift (getitem layer_sizes i) ;;
  k <- lift (getitem layer_sizes (i + 1)) ;;
  r <- with_random (randn n k) ;;
  modify_self (fun m =>
    set_weights (weights m ++ [amap (fun v => fmul v lit_0_01) r]) m) ;;
  modify_self (fun m => set_biases (biases m ++ [zeros 1 k]) m) ;;
  m <- get_self ;;
  name <- lift (getitem (activations m) i) ;;
  ' (activation_fn, activation_deriv) <- lift (dict_get ACTIVATIONS name) ;;
  modify_self (fun m =>
    set_activation_funcs (activation_funcs m ++ [activation_fn]) m) ;;
  modify_self (fun m =>
    set_activation_derivatives
      (activation_derivatives m ++ [activation_deriv]) m).

Definition _initialize_network : M unit :=
  m <- get_self ;;
  let layer_sizes := [input_size m] ++ hidden_layers m ++ [1] in
  if negb (length (activations m) =? length layer_sizes - 1)
  then raise (ValueError "# activation functions != # layers")
  else for_each (range (length layer_sizes - 1))
                (initialize_layer layer_sizes) tt.

(** [dropout_rates if dropout_rates else [0.0] * len(hidden_layers)]:
    [None] and the empty list are both falsy. *)
Definition dropout_rates_or_default (dropout_rates : option (list F))
           (hidden_layers : list nat) : list F :=
  match dropout_rates with
  | Some (r :: rs) => r :: rs
  | _ => repeat zero (length hidden_layers)
  end.

(** The fields [__init__] sets before it calls [_initialize_network]. *)
Definition init_fields (input_size : nat) (hidden_layers : list nat)
           (activations : list string) (dropout_rates : option (list F))
           (learning_rate : F) (epochs : nat) (l2_lambda : F)
  : MLPBinaryClassifier :=
  mk_MLPBinaryClassifier input_size hidden_layers activations
    learning_rate epochs l2_lambda
    (dropout_rates_or_default dropout_rates hidden_layers)
    [] [] [] [] [] [].

(** [MLPBinaryClassifier(...)]: the object when [__init__] returns, the
    exception when it raises; the random state advances either way. *)
Definition new_MLPBinaryClassifier (input_size : nat)
           (hidden_layers : list nat) (activations : list string)
           (dropout_rates : option (list F))
           (learning_rate : F) (epochs : nat) (l2_lambda : F)
           (g : RandomState) : RandomState * result MLPBinaryClassifier :=
  let w := mk_World (init_fields input_size hidden_layers activations
                       dropout_rates learning_rate epochs l2_lambda) g [] in
  match _initialize_network w with
  | (w', Ok _) => (np_random w', Ok (self w'))
  | (w', Err e) => (np_random w', Err e)
  end.

(** *** Feed-forward *)

(** The dropout branch of the loop of [forward], applied to the
    activation [A] of layer [i]; returns the activation to cache and the
    entry for [dropout_masks]. *)
Definition dropout (training : bool) (i : nat) (A : array)
  : M (array * option array) :=
  m <- get_self ;;
  if training && (i <? length (dropout_rates m))
  then
    rate <- lift (getitem (dropout_rates m) i) ;;
    if fgt rate zero
    then
      u <- with_random (rand (nrows A) (ncols A)) ;;
      let mask := gt_as_float u rate in
      A <- lift (inplace2 fmul A mask) ;;
      let A := amap (fun a => fdiv a (fsub one rate)) A in
      ret (A, Some mask)
    else ret (A, None)
  else ret (A, None).

(** The first two statements of the loop of [forward]:
    [Z = np.dot(A, self.weights[i]) + self.biases[i]] and
    [A = self.activation_funcs[i](Z)]. *)
Definition activate (m : MLPBinaryClassifier) (i : nat) (A : array)
  : result array :=
  (let? W := getitem (weights m) i in
   let? AW := dot A W in
   let? b := getitem (biases m) i in
   let? Z := add_arrays AW b in
   let? f := getitem (activation_funcs m) i in
   Ok (f Z))%result.

(** The loop state of [forward]: [A], [activations], [dropout_masks]. *)
Definition forward_state : Type :=
  (array * list array * list (option array))%type.

Definition forward_layer (training : bool) (i : nat) (st : forward_state)
  : M forward_state :=
  let '(A, activations, dropout_masks) := st in
  m <- get_self ;;
  A <- lift (activate m i A) ;;
  ' (A, mask) <- dropout training i A ;;
  ret (A, activations ++ [A], dropout_masks ++ [mask]).

Definition forward (X : array) (training : bool)
  : M (list array * list (option array)) :=
  m <- get_self ;;
  ' (_, activations, dropout_masks) <-
    for_each (range (length (weights m))) (forward_layer training)
             (X, [X], []) ;;
  ret (activations, dropout_masks).

(** *** Backpropagation *)

(** The loop state of [backward]: [delta], [grads_w], [grads_b]. *)
Definition backward_state : Type :=
  (array * list array * list array)%type.

Definition backward_layer (m : MLPBinaryClassifier)
           (activations : list array) (dropout_masks : list (option array))
           (i : nat) (st : backward_state) : result backward_state :=
  (let '(delta, grads_w, grads_b) := st in
   let? a := getitem activations i in
   let? gw := dot (transpose a) delta in
   let grads_w := gw :: grads_w in
   let grads_b := sum_axis0_keepdims delta :: grads_b in
   if 0 <? i
   then
     let? W := getitem (weights m) i in
     let? back := dot delta (transpose W) in
     let? deriv := getitem (activation_derivatives m) (i - 1) in
     let? a := getitem activations i in
     let? delta := mul_arrays back (deriv a) in
     let? mask := getitem dropout_masks (i - 1) in
     match mask with
     | Some mask =>
         let? delta := inplace2 fmul delta mask in
         Ok (delta, grads_w, grads_b)
     | None => Ok (delta, grads_w, grads_b)
     end
   else Ok (delta, grads_w, grads_b))%result.

(** The error signal at the output, before the loop. *)
Definition output_delta (m : MLPBinaryClassifier)
           (activations : list array) (y : array) : result array :=
  (let? a := getlast activations in
   let? d := binary_cross_entropyDerivative y a in
   let? deriv := getlast (activation_derivatives m) in
   let? a := getlast activations in
   mul_arrays d (deriv a))%result.

Definition backward (m : MLPBinaryClassifier) (activations : list array)
           (y : array) (dropout_masks : list (option array))
  : result (list array * list array) :=
  (let? delta := output_delta m activations y in
   let? (_, grads_w, grads_b) :=
     rfor (rev (range (length (weights m))))
          (backward_layer m activations dropout_masks)
          (delta, [], []) in
   Ok (grads_w, grads_b))%result.

(** *** Gradient descent step *)

Definition update_layer (grads_w grads_b : list array) (i : nat) (_ : unit)
  : M unit :=
  m <- get_self ;;
  W <- lift (getitem (weights m) i) ;;
  gw <- lift (getitem grads_w i) ;;
  W <- lift (inplace2 fsub W (amap (fun v => fmul (learning_rate m) v) gw)) ;;
  ws <- lift (setitem (weights m) i W) ;;
  modify_self (set_weights ws) ;;
  m <- get_self ;;
  b <- lift (getitem (biases m) i) ;;
  gb <- lift (getitem grads_b i) ;;
  b <- lift (inplace2 fsub b (amap (fun v => fmul (learning_rate m) v) gb)) ;;
  bs <- lift (setitem (biases m) i b) ;;
  modify_self (set_biases bs).

Definition update_weights (grads_w grads_b : list array) : M unit :=
  m <- get_self ;;
  for_each (range (length (weights m))) (update_layer grads_w grads_b) tt.

(** *** Training loop *)

(** [binary_cross_entropy(y, pred) + l2_penalty(self.weights, alpha)] *)
Definition total_loss (y pred : array) (alpha : F) : M F :=
  l <- lift (binary_cross_entropy y pred) ;;
  m <- get_self ;;
  ret (fadd l (l2_penalty (weights m) alpha)).

(** The validation block of an epoch; [val_loss] is the local variable
    of that name, unbound ([None]) until the block has run once. *)
Definition validate (X_val y_val : option array) (val_loss : option F)
  : M (option F) :=
  match X_val, y_val with
  | Some X_val, Some y_val =>
      ' (acts, _) <- forward X_val false ;;
      val_preds <- lift (getlast acts) ;;
      m <- get_self ;;
      v <- total_loss y_val val_preds (l2_lambda m) ;;
      modify_self (fun m => set_val_losses (val_losses m ++ [v]) m) ;;
      ret (Some v)
  | _, _ => ret val_loss
  end.

(** The reporting block of an epoch. *)
Definition report (X_val : option array) (y pred : array) (epoch : nat)
           (val_loss : option F) : M unit :=
  if epoch mod 100 =? 0
  then
    loss <- total_loss y pred lit_0_001 ;;
    print (EpochLoss epoch loss) ;;
    match X_val with
    | Some _ =>
        match val_loss with
        | Some v => print (ValLoss v)
        | None => raise (UnboundLocalError "val_loss")
        end
    | None => ret tt
    end
  else ret tt.

Definition train_epoch (X y : array) (X_val y_val : option array)
           (epoch : nat) (val_loss : option F) : M (option F) :=
  ' (activations, dropout_masks) <- forward X true ;;
  m <- get_self ;;
  ' (grads_w, grads_b) <- lift (backward m activations y dropout_masks) ;;
  update_weights grads_w grads_b ;;
  pred <- lift (getlast activations) ;;
  m <- get_self ;;
  train_loss <- total_loss y pred (l2_lambda m) ;;
  modify_self (fun m => set_train_losses (train_losses m ++ [train_loss]) m) ;;
  val_loss <- validate X_val y_val val_loss ;;
  report X_val y pred epoch val_loss ;;
  ret val_loss.

Definition train (X y : array) (X_val y_val : option array) : M unit :=
  m <- get_self ;;
  for_each (range (epochs m)) (train_epoch X y X_val y_val) None ;;
  ret tt.

(** *** Inference *)

Definition predict (X : array) : M (ndarray Z) :=
  ' (acts, _) <- forward X false ;;
  a <- lift (getlast acts) ;;
  ret (gt_as_int a lit_0_5).

End Methods.

(** ** Invariants of a constructed classifier *)

Section Invariants.
Context {Sc : Scalar}.

(** [layer_sizes] as [_initialize_network] computes it. *)
Definition layer_sizes (m : MLPBinaryClassifier) : list nat :=
  [input_size m] ++ hidden_layers m ++ [1].

(** The pairs [(l[i], l[i+1])]. *)
Fixpoint consecutive (l : list nat) : list (nat * nat) :=
  match l with
  | a :: (b :: _) as t => (a, b) :: consecutive t
  | _ => []
  end.

(** What [_initialize_network] establishes and training keeps: one
    weight matrix, bias row and registered activation per layer
    transition, with the shapes the layer sizes prescribe. *)
Definition initialized (m : MLPBinaryClassifier) : Prop :=
  map shape (weights m) = consecutive (layer_sizes m) /\
  map shape (biases m) = map (fun k => (1, k)) (tl (layer_sizes m)) /\
  map (dict_get ACTIVATIONS) (activations m)
    = map Ok (combine (activation_funcs m) (activation_derivatives m)) /\
  length (activation_funcs m) = length (activations m) /\
  length (activation_derivatives m) = length (activations m) /\
  length (activations m) = S (length (hidden_layers m)).

(** Is the name a key of the registry? *)
Definition registered (name : string) : bool :=
  is_ok (dict_get ACTIVATIONS name).

(** The guard of the dropout branch of [forward] at layer [i]:
    [training and i < len(self.dropout_rates)] and then [rate > 0]. *)
Definition dropout_applies (m : MLPBinaryClassifier) (training : bool)
           (i : nat) : bool :=
  training && (i <? length (dropout_rates m)) &&
  match nth_error (dropout_rates m) i with
  | Some rate => fgt rate zero
  | None => false
  end.

(** Layer [i] of a forward pass takes [A_prev] to [A_next] and records
    [mask]: the activation is computed, then the dropout branch runs in
    some state of the random generator. *)
Definition layer_step (m : MLPBinaryClassifier) (training : bool) (i : nat)
           (A_prev A_next : array) (mask : option array) : Prop :=
  exists A w w',
    activate m i A_prev = Ok A /\
    self w = m /\
    dropout training i A w = (w', Ok (A_next, mask)).

(** The state of the object after [s] iterations of the loop. *)
Definition layers_built (ls : list nat) (names : list string) (s : nat)
           (m0 m : MLPBinaryClassifier) : Prop :=
  map shape (weights m)
    = map (fun i => (nth i ls 0, nth (S i) ls 0)) (seq 0 s) /\
  map shape (biases m) = map (fun i => (1, nth (S i) ls 0)) (seq 0 s) /\
  map Ok (combine (activation_funcs m) (activation_derivatives m))
    = map (fun i => dict_get ACTIVATIONS (nth i names EmptyString)) (seq 0 s) /\
  length (activation_funcs m) = s /\
  length (activation_derivatives m) = s /\
  set_activation_derivatives []
    (set_activation_funcs [] (set_biases [] (set_weights [] m)))
  = set_activation_derivatives []
      (set_activation_funcs [] (set_biases [] (set_weights [] m0))).

(** [m'] is [m] after gradient steps: same shapes, and nothing but the
    weights and biases has changed. *)
Definition updated (m m' : MLPBinaryClassifier) : Prop :=
  map shape (weights m') = map shape (weights m) /\
  map shape (biases m') = map shape (biases m) /\
  set_biases [] (set_weights [] m') = set_biases [] (set_weights [] m).

(** [m'] is [m] after training: as [updated], and the loss histories
    may have grown. *)
Definition trained (m m' : MLPBinaryClassifier) : Prop :=
  updated (set_val_losses [] (set_train_losses [] m))
          (set_val_losses [] (set_train_losses [] m')).

(** One epoch of [train] as the training loop is specified: a
    training-mode forward pass, a gradient step, the train loss of the
    labels against the final activation of that pass plus the penalty of
    the updated weights, and, when validation data is given, the
    validation loss of an inference-mode forward pass. *)
Definition epoch_spec (X y : array) (X_val y_val : option array)
           (w w' : World) : Prop :=
  exists acts masks w1 grads_w grads_b w2 pred loss,
    forward X true w = (w1, Ok (acts, masks)) /\
    backward (self w1) acts y masks = Ok (grads_w, grads_b) /\
    update_weights grads_w grads_b w1 = (w2, Ok tt) /\
    weights (self w') = weights (self w2) /\
    trained (self w) (self w') /\
    getlast acts = Ok pred /\
    binary_cross_entropy y pred = Ok loss /\
    train_losses (self w')
    = train_losses (self w)
      ++ [fadd loss (l2_penalty (weights (self w')) (l2_lambda (self w')))] /\
    match X_val, y_val with
    | Some X_val, Some y_val =>
        exists w3 vacts vmasks vpred vloss,
          forward X_val false w3 = (w3, Ok (vacts, vmasks)) /\
          set_val_losses [] (self w3) = set_val_losses [] (self w') /\
          getlast vacts = Ok vpred /\
          binary_cross_entropy y_val vpred = Ok vloss /\
          val_losses (self w')
          = val_losses (self w)
            ++ [fadd vloss
                  (l2_penalty (weights (self w')) (l2_lambda (self w')))]
    | _, _ => val_losses (self w') = val_losses (self w)
    end.

(** [n] epochs in a row. *)
Fixpoint epochs_spec (X y : array) (X_val y_val : option array) (n : nat)
         (w w' : World) : Prop :=
  match n with
  | 0 => self w' = self w
  | S k => exists w1, epoch_spec X y X_val y_val w w1 /\
                      epochs_spec X y X_val y_val k w1 w'
  end.

(** A batch the network accepts: [input_size] columns, and labels in one
    column with one row per example. *)
Definition well_shaped (m : MLPBinaryClassifier) (X y : array) : Prop :=
  ncols X = input_size m /\ shape y = (nrows X, 1).

Definition validation_well_shaped (m : MLPBinaryClassifier)
           (X_val y_val : option array) : Prop :=
  match X_val, y_val with
  | Some X_val, Some y_val => well_shaped m X_val y_val
  | _, _ => True
  end.

End Invariants.

(** ** Bookkeeping for the random state, the gradients, the update and
       the output *)

Section Bookkeeping.
Context {Sc : Scalar}.

(** The number of weights of the first [i] layer transitions of a
    network with layer sizes [ls]. *)
Definition weights_before (ls : list nat) (i : nat) : nat :=
  list_sum (map (fun j => nth j ls 0 * nth (S j) ls 0) (seq 0 i)).

(** What the loop of [_initialize_network] has established after [s]
    iterations, started in random state [g0] on the object [m0]. *)
Definition drawn (ls : list nat) (g0 : RandomState)
           (m0 : MLPBinaryClassifier) (s : nat) (w : World) : Prop :=
  np_random w
  = mk_RandomState (samples g0) (consumed g0 + weights_before ls s) /\
  length (weights (self w)) = s /\
  (forall i W, nth_error (weights (self w)) i = Some W ->
     ncols W = nth (S i) ls 0 /\
     forall r c,
       item W r c
       = fmul (samples g0 (consumed g0 + weights_before ls i
                           + r * nth (S i) ls 0 + c)) lit_0_01) /\
  length (biases (self w)) = s /\
  (forall i b r c, nth_error (biases (self w)) i = Some b ->
     item b r c = zero) /\
  set_activation_derivatives []
    (set_activation_funcs [] (set_biases [] (set_weights [] (self w))))
  = set_activation_derivatives []
      (set_activation_funcs [] (set_biases [] (set_weights [] m0))).

(** [P'] is the parameter [P] after a step along the gradient [G]. *)
Definition stepped (lr : F) (P G P' : array) : Prop :=
  shape P' = shape P /\
  forall r c, r < nrows P -> c < ncols P ->
    item P' r c = fsub (item P r c) (fmul lr (item G r c)).

(** Wherever both lists have an entry, the gradient has the shape of the
    parameter. *)
Definition fits (grads params : list array) : Prop :=
  forall i G P, nth_error grads i = Some G -> nth_error params i = Some P ->
                shape G = shape P.

(** The number of samples the dropout branch of [forward] takes for the
    layers [l] on a batch of [rows] examples: one per entry of the
    activation of every layer where the guard holds. *)
Definition dropout_draws (m : MLPBinaryClassifier) (training : bool)
           (rows : nat) (l : list nat) : nat :=
  list_sum (map (fun i => if dropout_applies m training i
                          then rows * nth (S i) (layer_sizes m) 0
                          else 0) l).

(** [mask] is the mask of layer [i] in a forward pass that started with
    the samples [sm] at position [c0]. *)
Definition mask_drawn_at (sm : nat -> F) (c0 : nat)
           (m : MLPBinaryClassifier) (training : bool) (rows : nat)
           (i : nat) (mask : array) : Prop :=
  exists rate,
    nth_error (dropout_rates m) i = Some rate /\
    forall r c,
      item mask r c
      = if fgt (sm (c0 + dropout_draws m training rows (seq 0 i)
                    + r * nth (S i) (layer_sizes m) 0 + c)) rate
        then one else zero.

(** The epoch a printed line reports the loss of; a validation line
    carries none. *)
Definition epoch_of (l : line) : option nat :=
  match l with
  | EpochLoss e _ => Some e
  | ValLoss _ => None
  end.

(** The lines of the reporting block over the epochs [l], by kind: one
    loss line at every epoch divisible by 100, followed by a validation
    line when [X_val] is given. *)
Definition report_schedule (with_X_val : bool) (l : list nat)
  : list (option nat) :=
  flat_map (fun e => if e mod 100 =? 0
                     then Some e :: (if with_X_val then [None] else [])
                     else []) l.

(** [o is not None] *)
Definition is_some {A} (o : option A) : bool :=
  match o with Some _ => true | None => false end.

(** Two worlds that differ at most in the validation history and in
    what has been printed. *)
Definition same_training (wa wb : World) : Prop :=
  set_val_losses [] (self wa) = set_val_losses [] (self wb) /\
  np_random wa = np_random wb.

(** Two outcomes of a computation run in such worlds: the same result,
    in worlds that still differ at most in those two respects. *)
Definition same_outcome {A} (ra rb : World * result A) : Prop :=
  snd ra = snd rb /\ same_training (fst ra) (fst rb).

(** The cursor of the random state when the dropout branch of layer [i]
    runs, in a forward pass on [rows] examples called in the world [w]:
    past the samples consumed before the call and those taken for the
    layers before [i]. *)
Definition dropout_cursor (w : World) (training : bool) (rows i : nat)
  : nat :=
  consumed (np_random w) + dropout_draws (self w) training rows (seq 0 i).

(** The position, in the stream of samples, of the sample that decides
    entry [(r, c)] of the mask of layer [i]: [np.random.rand] fills its
    array row by row from the cursor on. *)
Definition mask_sample (w : World) (training : bool) (rows : nat)
           (i r c : nat) : nat :=
  dropout_cursor w training rows i
  + r * nth (S i) (layer_sizes (self w)) 0 + c.

(** The error signals of a backward pass on the cache [acts] with the
    masks [masks]: [deltas[i]] is the [delta] the loop of [backward]
    holds when it reaches layer [i].  At the output layer it is the
    derivative of the binary cross-entropy at the final activation times
    the derivative of the output activation; at layer [i - 1] it is the
    signal of layer [i] propagated through [weights[i]], times the
    derivative at the cached activation, times the mask of the layer if
    one was recorded. *)
Definition error_signals (m : MLPBinaryClassifier) (acts : list array)
           (y : array) (masks : list (option array)) (deltas : list array)
  : Prop :=
  length deltas = length (weights m) /\
  (exists pred deriv d delta,
      getlast acts = Ok pred /\
      getlast (activation_derivatives m) = Ok deriv /\
      binary_cross_entropyDerivative y pred = Ok d /\
      mul_arrays d (deriv pred) = Ok delta /\
      getlast deltas = Ok delta) /\
  forall i, 0 < i < length (weights m) ->
    exists delta W deriv a back pre mk delta',
      nth_error deltas i = Some delta /\
      nth_error (weights m) i = Some W /\
      nth_error (activation_derivatives m) (i - 1) = Some deriv /\
      nth_error acts i = Some a /\
      dot delta (transpose W) = Ok back /\
      mul_arrays back (deriv a) = Ok pre /\
      nth_error masks (i - 1) = Some mk /\
      nth_error deltas (i - 1) = Some delta' /\
      match mk with
      | Some mask => inplace2 fmul pre mask = Ok delta'
      | None => delta' = pre
      end.

(** The gradients of a backward pass given its error signals: for layer
    [i] the product of the transposed cached input of the layer with the
    signal, and the column sums of the signal; one pair per layer. *)
Definition gradients_of (acts deltas grads_w grads_b : list array) : Prop :=
  length grads_w = length deltas /\
  length grads_b = length deltas /\
  forall i delta, nth_error deltas i = Some delta ->
    exists a gw,
      nth_error acts i = Some a /\
      dot (transpose a) delta = Ok gw /\
      nth_error grads_w i = Some gw /\
      nth_error grads_b i = Some (sum_axis0_keepdims delta).

End Bookkeeping.

(** ** The instance over the real numbers *)

Module RealModel.
Local Open Scope R_scope.

Definition Rgtb (x y : R) : bool :=
  if Rgt_dec x y then true else false.

Definition Rgtb_irrefl (x : R) : Rgtb x x = false :=
  match Rgt_dec x x as s return (if s then true else false) = false with
  | left H => False_ind _ (Rlt_irrefl x H)
  | right _ => eq_refl
  end.

Definition RScalar : Scalar :=
  {| F := R;
     zero := 0;
     one := 1;
     lit_0_5 := 0.5;
     lit_0_01 := 0.01;
     lit_0_001 := 0.001;
     lit_1e_8 := 1e-8;
     fadd := Rplus;
     fsub := Rminus;
     fmul := Rmult;
     fdiv := Rdiv;
     fneg := Ropp;
     fexp := exp;
     flog := ln;
     fmaximum := Rmax;
     fgt := Rgtb;
     of_nat := INR;
     fgt_irrefl := Rgtb_irrefl |}.

#[local] Existing Instance RScalar.

(** A random state whose every draw is 0. *)
Definition idle : RandomState := mk_RandomState (fun _ => 0) 0%nat.

(** The world after a call of the constructor. *)
Definition world_of (r : RandomState * result MLPBinaryClassifier) : World :=
  match r with
  | (g, Ok m) => mk_World m g []
  | (g, Err _) => mk_World (init_fields 0%nat [] [] None 0 0%nat 0) g []
  end.

(** One feature, no hidden layer, a sigmoid output, no dropout argument. *)
Definition logistic_world : World :=
  world_of (new_MLPBinaryClassifier 1%nat [] ["sigmoid"%string] None
              0.01 2%nat 0.001 idle).

(** One feature, one hidden relu unit with dropout rate 0.5. *)
Definition dropout_world : World :=
  world_of (new_MLPBinaryClassifier 1%nat [1%nat]
              ["relu"%string; "sigmoid"%string] (Some [0.5])
              0.01 2%nat 0.001 idle).

(** No hidden layer, and a dropout rate for the one layer transition. *)
Definition output_dropout_world : World :=
  world_of (new_MLPBinaryClassifier 1%nat [] ["sigmoid"%string]
              (Some [0.5]) 0.01 2%nat 0.001 idle).

(** A batch of one example with feature 1, and the label 0. *)
Definition X1 : array := of_rows 0 [[1]].
Definition y0 : array := of_rows 0 [[0]].

(** A random state whose [n]-th sample is the number [n]. *)
Definition counting : RandomState := mk_RandomState INR 0%nat.

(** One hidden sigmoid unit with dropout rate 0.5, and a sigmoid output. *)
Definition sigmoid_dropout_world : World :=
  world_of (new_MLPBinaryClassifier 1%nat [1%nat]
              ["sigmoid"%string; "sigmoid"%string] (Some [0.5])
              0.01 2%nat 0.001 idle).

(** One example with two features; two examples with one feature; two
    labels in a row; a prediction of one half. *)
Definition X_wide : array := of_rows 0 [[1; 2]].
Definition X_pair : array := of_rows 0 [[1]; [2]].
Definition y_row : array := of_rows 0 [[0; 1]].
Definition half : array := of_rows 0 [[0.5]].

(** A registered function on the array holding the single number [v]:
    the functions of the registry act entry by entry. *)
Definition scalar (v : R) : array := mk_ndarray 1 1 (fun _ _ => v).

Definition pointwise (f : array -> array) (v : R) : R :=
  item (f (scalar v)) 0 0.

(** A random state whose every draw is 100: construction draws every
    weight as 1, and a dropout draw keeps its unit at any rate below
    100. *)
Definition steady : RandomState := mk_RandomState (fun _ => 100) 0%nat.

(** One feature, no hidden layer, a sigmoid output with weight 1. *)
Definition unit_logistic_world : World :=
  world_of (new_MLPBinaryClassifier 1%nat [] ["sigmoid"%string] None
              0.01 2%nat 0.001 steady).

(** One feature, one hidden relu unit with weight 1 and dropout rate
    0.5, which the draws of [steady] keep. *)
Definition kept_dropout_world : World :=
  world_of (new_MLPBinaryClassifier 1%nat [1%nat]
              ["relu"%string; "sigmoid"%string] (Some [0.5])
              0.01 2%nat 0.001 steady).

(** Two examples with one feature, 0 and 1. *)
Definition X_01 : array := of_rows 0 [[0]; [1]].

End RealModel.

(** ** Reasoning about the monads *)

Section MonadLemmas.
Context {Sc : Scalar}.

Lemma rbind_ok {A B} (r : result A) (k : A -> result B) (b : B) :
  rbind r k = Ok b -> exists a, r = Ok a /\ k a = Ok b.
Proof. destruct r; simpl; intros H; [eauto | discriminate]. Qed.

Lemma bind_ok {A B} (c : M A) (k : A -> M B) w w' (b : B) :
  bind c k w = (w', Ok b) ->
  exists w1 a, c w = (w1, Ok a) /\ k a w1 = (w', Ok b).
Proof.
  unfold bind. destruct (c w) as [w1 [a | e]]; intros H.
  - eauto.
  - inversion H.
Qed.

Lemma lift_ok {A} (r : result A) w w' (a : A) :
  lift r w = (w', Ok a) -> w' = w /\ r = Ok a.
Proof. unfold lift. intros H; inversion H; auto. Qed.

Lemma ret_ok {A} (a a' : A) w w' :
  ret a w = (w', Ok a') -> w' = w /\ a' = a.
Proof. unfold ret. intros H; inversion H; auto. Qed.

Lemma get_self_ok w w' m :
  get_self w = (w', Ok m) -> w' = w /\ m = self w.
Proof. unfold get_self. intros H; inversion H; auto. Qed.

Lemma modify_self_ok f w w' u :
  modify_self f w = (w', Ok u) ->
  w' = mk_World (f (self w)) (np_random w) (stdout w).
Proof. unfold modify_self. intros H; inversion H; auto. Qed.

Lemma print_ok l w w' u :
  print l w = (w', Ok u) ->
  w' = mk_World (self w) (np_random w) (stdout w ++ [l]).
Proof. unfold print. intros H; inversion H; auto. Qed.

Lemma with_random_ok {A} (f : RandomState -> A * RandomState) w w' (a : A) :
  with_random f w = (w', Ok a) ->
  a = fst (f (np_random w)) /\
  w' = mk_World (self w) (snd (f (np_random w))) (stdout w).
Proof.
  unfold with_random. destruct (f (np_random w)) as [a0 g].
  intros H; inversion H; auto.
Qed.

Lemma world_eta w : mk_World (self w) (np_random w) (stdout w) = w.
Proof. destruct w; reflexivity. Qed.

End MonadLemmas.

(** ** The forward pass *)

Section ForwardLemmas.
Context {Sc : Scalar}.

Lemma getitem_ok {A} (l : list A) i a :
  getitem l i = Ok a <-> nth_error l i = Some a.
Proof.
  unfold getitem. destruct (nth_error l i); split; intros H;
    inversion H; reflexivity.
Qed.

Lemma getitem_lt {A} (l : list A) i :
  i < length l -> exists a, getitem l i = Ok a.
Proof.
  intros H. unfold getitem.
  destruct (nth_error l i) eqn:E; [eauto|].
  apply nth_error_None in E. lia.
Qed.

Lemma getlast_snoc {A} (l : list A) a : getlast (l ++ [a]) = Ok a.
Proof. unfold getlast. rewrite rev_app_distr. reflexivity. Qed.

Lemma getlast_nth {A} (l : list A) n :
  length l = S n -> getlast l = getitem l n.
Proof.
  intros H. destruct l as [|x l] using rev_ind; [discriminate|].
  rewrite getlast_snoc. rewrite length_app in H. simpl in H.
  unfold getitem. rewrite nth_error_app2 by lia.
  replace (n - length l) with 0 by lia. reflexivity.
Qed.

Lemma broadcast_dim_same n : broadcast_dim n n = Ok n.
Proof. unfold broadcast_dim. rewrite Nat.eqb_refl. reflexivity. Qed.

Lemma bitem_in_range {T} (A : ndarray T) r c :
  r < nrows A -> c < ncols A -> bitem A r c = item A r c.
Proof.
  intros Hr Hc. unfold bitem.
  destruct (nrows A =? 1) eqn:E1; destruct (ncols A =? 1) eqn:E2;
    try apply Nat.eqb_eq in E1; try apply Nat.eqb_eq in E2;
    repeat match goal with
           | |- context [item A 0 _] => replace 0 with r at 1 by lia
           | |- context [item A _ 0] => replace 0 with c by lia
           end; reflexivity.
Qed.

(** Where the guard fails the branch leaves activation and state alone. *)
Lemma dropout_off training i A w :
  dropout_applies (self w) training i = false ->
  dropout training i A w = (w, Ok (A, None)).
Proof.
  unfold dropout_applies, dropout, bind, get_self, lift, ret. intros H.
  destruct (training && (i <? length (dropout_rates (self w)))) eqn:E;
    [|reflexivity].
  simpl in H. unfold getitem.
  destruct (nth_error (dropout_rates (self w)) i) as [rate|] eqn:En.
  - rewrite H. reflexivity.
  - apply andb_true_iff in E. destruct E as [_ E].
    apply Nat.ltb_lt in E. apply nth_error_None in En. lia.
Qed.

(** Where it holds a mask is drawn from the random state and applied. *)
Lemma dropout_on training i A w :
  dropout_applies (self w) training i = true ->
  exists rate A',
    nth_error (dropout_rates (self w)) i = Some rate /\
    fgt rate zero = true /\
    let (u, g') := rand (nrows A) (ncols A) (np_random w) in
    let mask := gt_as_float u rate in
    dropout training i A w
      = (mk_World (self w) g' (stdout w), Ok (A', Some mask)) /\
    shape A' = shape A /\
    forall r c, r < nrows A -> c < ncols A ->
      item A' r c = fdiv (fmul (item A r c) (item mask r c)) (fsub one rate).
Proof.
  unfold dropout_applies. intros H.
  apply andb_true_iff in H. destruct H as [H Hgt].
  destruct (nth_error (dropout_rates (self w)) i) as [rate|] eqn:En;
    [|discriminate].
  exists rate. eexists. split; [reflexivity|]. split; [exact Hgt|].
  unfold dropout, bind, get_self, lift, ret, with_random.
  rewrite H. unfold getitem. rewrite En, Hgt.
  unfold rand, draw. simpl.
  unfold inplace2. simpl. rewrite !broadcast_dim_same. simpl.
  rewrite !Nat.eqb_refl. simpl.
  split; [reflexivity|]. split; [reflexivity|].
  intros r c Hr Hc. simpl. unfold bitem. simpl.
  destruct (nrows A =? 1) eqn:E1; destruct (ncols A =? 1) eqn:E2;
    try apply Nat.eqb_eq in E1; try apply Nat.eqb_eq in E2;
    try (assert (r = 0) by lia; subst r);
    try (assert (c = 0) by lia; subst c); reflexivity.
Qed.

Lemma dropout_frame training i A w w' r :
  dropout training i A w = (w', r) ->
  self w' = self w /\ stdout w' = stdout w.
Proof.
  destruct (dropout_applies (self w) training i) eqn:E.
  - destruct (dropout_on training i A w E) as (rate & A' & _ & _ & H).
    destruct (rand (nrows A) (ncols A) (np_random w)) as [u g'].
    destruct H as (H & _). rewrite H. intros H'; inversion H'; auto.
  - rewrite (dropout_off training i A w E). intros H'; inversion H'; auto.
Qed.

Lemma dropout_inference i A w : dropout false i A w = (w, Ok (A, None)).
Proof. apply dropout_off. reflexivity. Qed.

Lemma forward_layer_frame training i st w w' r :
  forward_layer training i st w = (w', r) ->
  self w' = self w /\ stdout w' = stdout w.
Proof.
  destruct st as [[A acts] masks].
  unfold forward_layer, bind, get_self, lift.
  destruct (activate (self w) i A) as [A1|e].
  - destruct (dropout training i A1 w) as [w1 [[A2 mk]|e]] eqn:E;
      apply dropout_frame in E; unfold ret;
      intros H; inversion H; subst; auto.
  - intros H; inversion H; auto.
Qed.

Lemma forward_layer_ok training i A acts masks w w' st' :
  forward_layer training i (A, acts, masks) w = (w', Ok st') ->
  exists A1 A2 mk,
    activate (self w) i A = Ok A1 /\
    dropout training i A1 w = (w', Ok (A2, mk)) /\
    st' = (A2, acts ++ [A2], masks ++ [mk]).
Proof.
  unfold forward_layer, bind, get_self, lift.
  destruct (activate (self w) i A) as [A1|e]; [|intros H; inversion H].
  destruct (dropout training i A1 w) as [w1 [[A2 mk]|e]] eqn:E;
    unfold ret; intros H; inversion H; subst.
  exists A1, A2, mk. auto.
Qed.

Lemma for_each_cons {St} i l (body : nat -> St -> M St) s :
  for_each (i :: l) body s = bind (body i s) (for_each l body).
Proof. reflexivity. Qed.

(** The loop of [forward], started at layer [s] for [n] layers. *)
Lemma forward_loop_trace training n :
  forall s A acts masks w w' A' acts' masks',
    for_each (seq s n) (forward_layer training) (A, acts, masks) w
      = (w', Ok (A', acts', masks')) ->
    length acts = S s -> length masks = s ->
    nth_error acts s = Some A ->
    self w' = self w /\ stdout w' = stdout w /\
    length acts' = S (s + n) /\ length masks' = s + n /\
    nth_error acts' (s + n) = Some A' /\
    (forall i, i <= s -> nth_error acts' i = nth_error acts i) /\
    (forall i, i < s -> nth_error masks' i = nth_error masks i) /\
    forall i, s <= i < s + n ->
      exists A_prev A_next mask,
        nth_error acts' i = Some A_prev /\
        nth_error acts' (S i) = Some A_next /\
        nth_error masks' i = Some mask /\
        layer_step (self w) training i A_prev A_next mask.
Proof.
  induction n as [|n IH]; intros s A acts masks w w' A' acts' masks' H Hla Hlm Hlast.
  - simpl in H. apply ret_ok in H. destruct H as [-> H]. inversion H; subst.
    rewrite Nat.add_0_r. repeat split; auto. intros i Hi. lia.
  - change (seq s (S n)) with (s :: seq (S s) n) in H.
    rewrite for_each_cons in H.
    apply bind_ok in H. destruct H as (w1 & st1 & H1 & H).
    pose proof (forward_layer_frame _ _ _ _ H1) as [Hs1 Ho1].
    apply forward_layer_ok in H1. destruct H1 as (A1 & A2 & mk & Hact & Hdrop & ->).
    apply IH in H.
    2: { rewrite length_app. simpl. lia. }
    2: { rewrite length_app. simpl. lia. }
    2: { rewrite nth_error_app2 by lia. rewrite Hla, Nat.sub_diag. reflexivity. }
    destruct H as (Hs & Ho & Hla' & Hlm' & Hlast' & Hpa & Hpm & Hlayers).
    rewrite Hs1 in Hs. rewrite Ho1 in Ho.
    repeat split.
    + exact Hs.
    + exact Ho.
    + rewrite Hla'. lia.
    + rewrite Hlm'. lia.
    + replace (s + S n) with (S s + n) by lia. exact Hlast'.
    + intros i Hi. rewrite Hpa by lia. apply nth_error_app1. lia.
    + intros i Hi. rewrite Hpm by lia. apply nth_error_app1. lia.
    + intros i Hi. destruct (Nat.eq_dec i s) as [->|Hne].
      * exists A, A2, mk. repeat split.
        -- rewrite Hpa by lia. rewrite nth_error_app1 by lia. exact Hlast.
        -- rewrite Hpa by lia. rewrite nth_error_app2 by lia.
           rewrite Hla, Nat.sub_diag. reflexivity.
        -- rewrite Hpm by lia. rewrite nth_error_app2 by lia.
           rewrite Hlm, Nat.sub_diag. reflexivity.
        -- exists A1, w, w1. auto.
      * destruct (Hlayers i) as (Ap & An & mask & ? & ? & ? & Hstep); [lia|].
        rewrite Hs1 in Hstep. exists Ap, An, mask. auto.
Qed.

(** What a successful forward pass returns. *)
Lemma forward_trace X training w w' acts masks :
  forward X training w = (w', Ok (acts, masks)) ->
  self w' = self w /\ stdout w' = stdout w /\
  length acts = S (length (weights (self w))) /\
  length masks = length (weights (self w)) /\
  nth_error acts 0 = Some X /\
  forall i, i < length (weights (self w)) ->
    exists A_prev A_next mask,
      nth_error acts i = Some A_prev /\
      nth_error acts (S i) = Some A_next /\
      nth_error masks i = Some mask /\
      layer_step (self w) training i A_prev A_next mask.
Proof.
  unfold forward. intros H.
  apply bind_ok in H. destruct H as (w1 & m & Hm & H).
  apply get_self_ok in Hm. destruct Hm as [-> ->].
  apply bind_ok in H. destruct H as (w1 & [[A' acts'] masks'] & Hloop & H).
  apply ret_ok in H. destruct H as [-> H]. inversion H; subst.
  unfold range in Hloop.
  apply forward_loop_trace in Hloop; auto.
  destruct Hloop as (Hs & Ho & Hla & Hlm & _ & Hpa & _ & Hlayers).
  split; [exact Hs|]. split; [exact Ho|].
  split; [exact Hla|]. split; [exact Hlm|]. split.
  - rewrite Hpa by lia. reflexivity.
  - intros i Hi. apply Hlayers. lia.
Qed.

(** An inference-mode forward pass reads the state and leaves it as it
    found it: no random draw, no mutation. *)
Lemma for_each_readonly {St} (body : nat -> St -> M St) l :
  (forall i s w, fst (body i s w) = w) ->
  forall s w, fst (for_each l body s w) = w.
Proof.
  intros Hbody. induction l as [|i l IH]; intros s w; [reflexivity|].
  rewrite for_each_cons. unfold bind.
  specialize (Hbody i s w).
  destruct (body i s w) as [w1 [s1|e]]; cbn [fst] in Hbody; subst w1.
  - apply IH.
  - reflexivity.
Qed.

Lemma forward_layer_inference i st w :
  fst (forward_layer false i st w) = w.
Proof.
  destruct st as [[A acts] masks].
  unfold forward_layer, bind, get_self, lift.
  destruct (activate (self w) i A) as [A1|e]; [|reflexivity].
  rewrite dropout_inference. reflexivity.
Qed.

Lemma forward_inference_world X w : fst (forward X false w) = w.
Proof.
  unfold forward, bind, get_self.
  pose proof (for_each_readonly (forward_layer false)
                (range (length (weights (self w))))
                forward_layer_inference (X, [X], []) w) as H.
  destruct (for_each _ _ _ w) as [w1 [[[A acts] masks]|e]];
    cbn [fst] in H; subst w1; reflexivity.
Qed.

End ForwardLemmas.

(** ** Construction *)

Section ConstructionLemmas.
Context {Sc : Scalar}.

Lemma dict_get_err {V} (d : list (string * V)) key e :
  dict_get d key = Err e -> e = KeyError key.
Proof.
  induction d as [|[k v] d IH]; simpl.
  - intros H; inversion H; reflexivity.
  - destruct (String.eqb k key); [discriminate | exact IH].
Qed.

Lemma registered_cases name f d :
  dict_get ACTIVATIONS name = Ok (f, d) ->
  (f = sigmoid /\ d = sigmoidDerivative) \/ (f = relu /\ d = reluDerivative).
Proof.
  unfold ACTIVATIONS. cbn [dict_get].
  destruct (String.eqb "sigmoid" name);
    [intros H; inversion H; auto|].
  destruct (String.eqb "relu" name);
    [intros H; inversion H; auto | discriminate].
Qed.


(** One iteration of the loop of [_initialize_network], in closed form. *)
Lemma initialize_layer_step ls i w n k name :
  nth_error ls i = Some n ->
  nth_error ls (i + 1) = Some k ->
  nth_error (activations (self w)) i = Some name ->
  initialize_layer ls i tt w =
  let (r, g) := randn n k (np_random w) in
  let m1 :=
    set_biases (biases (self w) ++ [zeros 1 k])
      (set_weights (weights (self w) ++ [amap (fun v => fmul v lit_0_01) r])
         (self w)) in
  match dict_get ACTIVATIONS name with
  | Ok (f, d) =>
      (mk_World
         (set_activation_derivatives (activation_derivatives (self w) ++ [d])
            (set_activation_funcs (activation_funcs (self w) ++ [f]) m1))
         g (stdout w), Ok tt)
  | Err e => (mk_World m1 g (stdout w), Err e)
  end.
Proof.
  intros Hn Hk Hname.
  unfold initialize_layer, bind, lift, getitem, with_random, modify_self,
    get_self.
  rewrite Hn, Hk. unfold randn, draw. cbn -[dict_get ACTIVATIONS].
  rewrite Hname.
  destruct (dict_get ACTIVATIONS name) as [[f d]|e]; reflexivity.
Qed.

Lemma combine_snoc {A B} (l1 : list A) (l2 : list B) a b :
  length l1 = length l2 ->
  combine (l1 ++ [a]) (l2 ++ [b]) = combine l1 l2 ++ [(a, b)].
Proof.
  revert l2. induction l1 as [|x l1 IH]; intros [|y l2] H;
    simpl in *; try discriminate; [reflexivity|].
  rewrite IH by lia. reflexivity.
Qed.


Lemma initialize_loop ls names m0 n :
  forall s w,
    s + n < length ls ->
    s + n <= length names ->
    activations m0 = names ->
    layers_built ls names s m0 (self w) ->
    match find (fun nm => negb (registered nm)) (firstn n (skipn s names)) with
    | Some bad =>
        snd (for_each (seq s n) (initialize_layer ls) tt w)
        = Err (KeyError bad)
    | None =>
        exists w',
          for_each (seq s n) (initialize_layer ls) tt w = (w', Ok tt) /\
          stdout w' = stdout w /\
          layers_built ls names (s + n) m0 (self w')
    end.
Proof.
  induction n as [|n IH]; intros s w Hls Hnames Hact Hinv.
  - simpl. exists w. rewrite Nat.add_0_r. auto.
  - assert (Hfield : activations (self w) = names).
    { destruct Hinv as (_ & _ & _ & _ & _ & Hf).
      apply (f_equal activations) in Hf. simpl in Hf. congruence. }
    destruct (nth_error ls s) as [a|] eqn:Ea;
      [|apply nth_error_None in Ea; lia].
    destruct (nth_error ls (s + 1)) as [b|] eqn:Eb;
      [|apply nth_error_None in Eb; lia].
    destruct (nth_error names s) as [name|] eqn:En;
      [|apply nth_error_None in En; lia].
    assert (Hskip : skipn s names = name :: skipn (S s) names).
    { clear - En. revert names En. induction s as [|s IHs]; intros [|x l] E;
        simpl in *; try discriminate.
      - inversion E; reflexivity.
      - apply IHs; assumption. }
    rewrite Hskip. cbn [firstn find].
    change (seq s (S n)) with (s :: seq (S s) n). rewrite for_each_cons.
    unfold bind.
    rewrite (initialize_layer_step ls s w (n:=a) (k:=b) (name:=name)) by congruence.
    unfold randn, draw. cbv zeta.
    unfold registered.
    destruct (dict_get ACTIVATIONS name) as [[f d]|e] eqn:Ed; cbn [is_ok negb].
    + match goal with
      | |- context [for_each _ _ tt ?w1] => specialize (IH (S s) w1)
      end.
      replace (S s + n) with (s + S n) in IH by lia.
      cbn [self stdout] in IH.
      assert (Hinv' : layers_built ls names (S s) m0
          (set_activation_derivatives (activation_derivatives (self w) ++ [d])
             (set_activation_funcs (activation_funcs (self w) ++ [f])
                (set_biases (biases (self w) ++ [zeros 1 b])
                   (set_weights
                      (weights (self w) ++
                       [amap (fun v : F => fmul v lit_0_01)
                          {| nrows := a; ncols := b;
                             item := fun i j : nat =>
                               samples (np_random w)
                                 (consumed (np_random w) + i * b + j) |}])
                      (self w)))))).
      { destruct Hinv as (Hw & Hb & Hc & Hlf & Hld & Hf).
        unfold layers_built.
        rewrite seq_S, !map_app.
        cbn [weights biases activation_funcs activation_derivatives
             set_weights set_biases set_activation_funcs
             set_activation_derivatives].
        rewrite combine_snoc by lia.
        rewrite !map_app, Hw, Hb, Hc, !length_app, Hlf, Hld.
        cbn [map Nat.add length shape nrows ncols amap zeros].
        rewrite (nth_error_nth _ _ 0 Ea).
        replace (S s) with (s + 1) by lia.
        rewrite (nth_error_nth _ _ 0 Eb), (nth_error_nth _ _ EmptyString En), Ed.
        repeat split; try lia.
        destruct (self w); cbn in *. exact Hf. }
      specialize (IH Hls Hnames Hact Hinv').
      unfold registered in IH.
      destruct (find _ _) as [bad|]; [exact IH|].
      destruct IH as (w' & Hrun & Hout & Hb'). exists w'.
      rewrite Hrun. auto.
    + apply dict_get_err in Ed. subst e. reflexivity.
Qed.

Lemma list_as_seq {A} (l : list A) d :
  map (fun i => nth i l d) (seq 0 (length l)) = l.
Proof.
  induction l as [|x l IH]; [reflexivity|].
  cbn [length seq map nth]. f_equal.
  rewrite <- seq_shift, map_map. exact IH.
Qed.

Lemma consecutive_nth ls :
  consecutive ls
  = map (fun i => (nth i ls 0, nth (S i) ls 0)) (seq 0 (length ls - 1)).
Proof.
  induction ls as [|a [|b t] IH]; [reflexivity | reflexivity |].
  change (consecutive (a :: b :: t)) with ((a, b) :: consecutive (b :: t)).
  rewrite IH.
  replace (length (a :: b :: t) - 1) with (S (length (b :: t) - 1))
    by (cbn [length]; lia).
  cbn [seq map]. f_equal.
  rewrite <- seq_shift, map_map. reflexivity.
Qed.

Lemma tl_nth (ls : list nat) :
  map (fun k => (1, k)) (tl ls)
  = map (fun i => (1, nth (S i) ls 0)) (seq 0 (length ls - 1)).
Proof.
  destruct ls as [|a t]; [reflexivity|].
  replace (length (a :: t) - 1) with (length t) by (cbn [length]; lia).
  cbn [tl].
  rewrite <- (list_as_seq t 0) at 1. rewrite map_map. reflexivity.
Qed.

(** The outcome of construction: the count check, then the first
    unregistered name, otherwise an initialized object. *)
Lemma new_MLPBinaryClassifier_spec isz hidden names
      rates lr n_epochs l2 g :
  let r := new_MLPBinaryClassifier isz hidden names rates lr n_epochs l2 g in
  if negb (length names =? S (length hidden))
  then snd r = Err (ValueError "# activation functions != # layers")
  else
    match find (fun nm => negb (registered nm)) names with
    | Some bad => snd r = Err (KeyError bad)
    | None =>
        exists m,
          snd r = Ok m /\ initialized m /\
          set_activation_derivatives []
            (set_activation_funcs [] (set_biases [] (set_weights [] m)))
          = init_fields isz hidden names rates lr n_epochs l2
    end.
Proof.
  intros r. subst r. unfold new_MLPBinaryClassifier.
  set (m0 := init_fields isz hidden names rates lr n_epochs l2).
  set (w0 := mk_World m0 g []).
  unfold _initialize_network, bind, get_self.
  change (self w0) with m0.
  change (input_size m0) with isz.
  change (hidden_layers m0) with hidden.
  change (activations m0) with names.
  assert (Hlen : length ([isz] ++ hidden ++ [1]) - 1
                 = S (length hidden)).
  { cbn [app length]. rewrite length_app. cbn [length]. lia. }
  rewrite Hlen.
  destruct (length names =? S (length hidden)) eqn:E;
    cbn [negb]; [|reflexivity].
  apply Nat.eqb_eq in E.
  pose proof (@initialize_loop ([isz] ++ hidden ++ [1]) names m0
                (S (length hidden)) 0 w0) as H.
  cbn [skipn] in H. rewrite <- E in H at 3. rewrite firstn_all in H.
  unfold range.
  assert (Hb0 : layers_built ([isz] ++ hidden ++ [1])
                  names 0 m0 (self w0)).
  { unfold layers_built. cbn. repeat split; reflexivity. }
  specialize (H ltac:(cbn [app length]; rewrite length_app; cbn [length Nat.add]; lia)
                ltac:(cbn [Nat.add]; lia) eq_refl Hb0).
  destruct (find _ names) as [bad|].
  - destruct (for_each _ _ tt w0) as [w' [u|e]]; cbn [snd] in *;
      [discriminate | inversion H; reflexivity].
  - destruct H as (w' & Hrun & Hout & Hb).
    rewrite Hrun. cbn [snd]. exists (self w'). split; [reflexivity|].
    cbn [Nat.add] in Hb.
    destruct Hb as (Hw & Hbs & Hc & Hlf & Hld & Hf).
    split.
    + assert (Hm : names = activations (self w')).
      { apply (f_equal activations) in Hf. exact (eq_sym Hf). }
      assert (Hh : hidden = hidden_layers (self w')).
      { apply (f_equal hidden_layers) in Hf. exact (eq_sym Hf). }
      assert (Hi : isz = input_size (self w')).
      { apply (f_equal input_size) in Hf. exact (eq_sym Hf). }
      unfold initialized, layer_sizes. rewrite <- Hm, <- Hh, <- Hi.
      rewrite consecutive_nth, tl_nth, Hlen.
      repeat split; try assumption; try lia.
      rewrite Hc, <- E.
      rewrite <- (list_as_seq names EmptyString) at 1.
      rewrite map_map. reflexivity.
    + exact Hf.
Qed.

End ConstructionLemmas.

(** ** The update rule *)

Section UpdateLemmas.
Context {Sc : Scalar}.


Lemma updated_refl m : updated m m.
Proof. unfold updated. auto. Qed.

Lemma updated_trans m1 m2 m3 :
  updated m1 m2 -> updated m2 m3 -> updated m1 m3.
Proof.
  unfold updated. intros (H1 & H2 & H3) (H4 & H5 & H6).
  repeat split; congruence.
Qed.

Lemma inplace2_shape {T} (op : T -> T -> T) A B C :
  inplace2 op A B = Ok C -> shape C = shape A.
Proof.
  unfold inplace2. intros H.
  apply rbind_ok in H. destruct H as (r & _ & H).
  apply rbind_ok in H. destruct H as (c & _ & H).
  destruct ((r =? nrows A) && (c =? ncols A)); inversion H. reflexivity.
Qed.

Lemma setitem_map {A B} (f : A -> B) (l l' : list A) i a v :
  nth_error l i = Some a -> f v = f a ->
  setitem l i v = Ok l' -> map f l' = map f l.
Proof.
  revert i l'. induction l as [|x l IH]; intros [|i] l' Ha Hf H;
    simpl in *; try discriminate.
  - inversion Ha; subst. inversion H; subst. simpl. congruence.
  - destruct (setitem l i v) as [r|e] eqn:E; inversion H; subst.
    simpl. f_equal. eapply IH; eauto.
Qed.

Lemma update_layer_ok grads_w grads_b i w w' u :
  update_layer grads_w grads_b i tt w = (w', Ok u) ->
  updated (self w) (self w') /\
  np_random w' = np_random w /\ stdout w' = stdout w.
Proof.
  unfold update_layer. intros H.
  apply bind_ok in H. destruct H as (w1 & m & Hm & H).
  apply get_self_ok in Hm. destruct Hm as [-> ->].
  apply bind_ok in H. destruct H as (w1 & W & HW & H).
  apply lift_ok in HW. destruct HW as [-> HW].
  apply bind_ok in H. destruct H as (w1 & gw & Hgw & H).
  apply lift_ok in Hgw. destruct Hgw as [-> Hgw].
  apply bind_ok in H. destruct H as (w1 & W' & HW' & H).
  apply lift_ok in HW'. destruct HW' as [-> HW'].
  apply bind_ok in H. destruct H as (w1 & ws & Hws & H).
  apply lift_ok in Hws. destruct Hws as [-> Hws].
  apply bind_ok in H. destruct H as (w1 & [] & Hmod & H).
  apply modify_self_ok in Hmod. subst w1.
  apply bind_ok in H. destruct H as (w1 & m & Hm & H).
  apply get_self_ok in Hm. destruct Hm as [-> ->].
  apply bind_ok in H. destruct H as (w1 & b & Hb & H).
  apply lift_ok in Hb. destruct Hb as [-> Hb].
  apply bind_ok in H. destruct H as (w1 & gb & Hgb & H).
  apply lift_ok in Hgb. destruct Hgb as [-> Hgb].
  apply bind_ok in H. destruct H as (w1 & b' & Hb' & H).
  apply lift_ok in Hb'. destruct Hb' as [-> Hb'].
  apply bind_ok in H. destruct H as (w1 & bs & Hbs & H).
  apply lift_ok in Hbs. destruct Hbs as [-> Hbs].
  apply modify_self_ok in H. subst w'.
  cbn [self np_random stdout biases weights set_weights set_biases] in *.
  apply getitem_ok in HW, Hb.
  apply inplace2_shape in HW', Hb'.
  split; [|auto].
  unfold updated. cbn [weights biases set_weights set_biases].
  split; [eapply setitem_map; eauto|].
  split; [eapply setitem_map; eauto|].
  reflexivity.
Qed.

Lemma update_loop_ok grads_w grads_b l :
  forall w w' u,
    for_each l (update_layer grads_w grads_b) tt w = (w', Ok u) ->
    updated (self w) (self w') /\
    np_random w' = np_random w /\ stdout w' = stdout w.
Proof.
  induction l as [|i l IH]; intros w w' u H.
  - apply ret_ok in H. destruct H as [-> _].
    split; [apply updated_refl | auto].
  - rewrite for_each_cons in H.
    apply bind_ok in H. destruct H as (w1 & [] & H1 & H).
    apply update_layer_ok in H1. destruct H1 as (Hu1 & Hg1 & Ho1).
    apply IH in H. destruct H as (Hu & Hg & Ho).
    split; [eapply updated_trans; eauto|]. split; congruence.
Qed.

Lemma update_weights_ok grads_w grads_b w w' u :
  update_weights grads_w grads_b w = (w', Ok u) ->
  updated (self w) (self w') /\
  np_random w' = np_random w /\ stdout w' = stdout w.
Proof.
  unfold update_weights. intros H.
  apply bind_ok in H. destruct H as (w1 & m & Hm & H).
  apply get_self_ok in Hm. destruct Hm as [-> ->].
  eapply update_loop_ok; eauto.
Qed.

Lemma updated_initialized m m' :
  updated m m' -> initialized m -> initialized m'.
Proof.
  unfold updated, initialized, layer_sizes.
  intros (Hw & Hb & Hf) (H1 & H2 & H3 & H4 & H5 & H6).
  assert (Ha : activations m' = activations m)
    by (apply (f_equal activations) in Hf; exact Hf).
  assert (Hh : hidden_layers m' = hidden_layers m)
    by (apply (f_equal hidden_layers) in Hf; exact Hf).
  assert (Hi : input_size m' = input_size m)
    by (apply (f_equal input_size) in Hf; exact Hf).
  assert (Hfs : activation_funcs m' = activation_funcs m)
    by (apply (f_equal activation_funcs) in Hf; exact Hf).
  assert (Hds : activation_derivatives m' = activation_derivatives m)
    by (apply (f_equal activation_derivatives) in Hf; exact Hf).
  rewrite Hw, Hb, Ha, Hh, Hi, Hfs, Hds. auto 10.
Qed.

End UpdateLemmas.

(** ** The training loop *)

Section TrainLemmas.
Context {Sc : Scalar}.

Lemma trained_refl m : trained m m.
Proof. apply updated_refl. Qed.

Lemma trained_trans m1 m2 m3 :
  trained m1 m2 -> trained m2 m3 -> trained m1 m3.
Proof. apply updated_trans. Qed.

Lemma updated_trained m m' : updated m m' -> trained m m'.
Proof.
  unfold trained, updated. cbn. intros (H1 & H2 & H3).
  repeat split; try assumption.
  destruct m, m'; cbn in *. inversion H3; subst. reflexivity.
Qed.

Lemma trained_initialized m m' :
  trained m m' -> initialized m -> initialized m'.
Proof.
  intros Ht Hi.
  assert (H : initialized (set_val_losses [] (set_train_losses [] m')))
    by (eapply updated_initialized; [exact Ht | exact Hi]).
  exact H.
Qed.

Lemma trained_l2_lambda m m' : trained m m' -> l2_lambda m' = l2_lambda m.
Proof.
  intros (_ & _ & H). apply (f_equal l2_lambda) in H. exact H.
Qed.

Lemma trained_epochs m m' : trained m m' -> epochs m' = epochs m.
Proof.
  intros (_ & _ & H). apply (f_equal epochs) in H. exact H.
Qed.

Lemma total_loss_ok y pred alpha w w' v :
  total_loss y pred alpha w = (w', Ok v) ->
  w' = w /\
  exists loss, binary_cross_entropy y pred = Ok loss /\
               v = fadd loss (l2_penalty (weights (self w)) alpha).
Proof.
  unfold total_loss. intros H.
  apply bind_ok in H. destruct H as (w1 & l & Hl & H).
  apply lift_ok in Hl. destruct Hl as [-> Hl].
  apply bind_ok in H. destruct H as (w1 & m & Hm & H).
  apply get_self_ok in Hm. destruct Hm as [-> ->].
  apply ret_ok in H. destruct H as [-> ->]. eauto.
Qed.

Lemma report_ok X_val y pred epoch val_loss w w' u :
  report X_val y pred epoch val_loss w = (w', Ok u) ->
  self w' = self w /\ np_random w' = np_random w.
Proof.
  unfold report. destruct (epoch mod 100 =? 0).
  - intros H.
    apply bind_ok in H. destruct H as (w1 & l & Hl & H).
    apply total_loss_ok in Hl. destruct Hl as [-> _].
    apply bind_ok in H. destruct H as (w1 & [] & Hp & H).
    apply print_ok in Hp. subst w1.
    destruct X_val as [Xv|].
    + destruct val_loss as [v|].
      * apply print_ok in H. subst w'. auto.
      * inversion H.
    + apply ret_ok in H. destruct H as [-> _]. auto.
  - intros H. apply ret_ok in H. destruct H as [-> _]. auto.
Qed.

(** With validation data the block appends one validation loss, of an
    inference-mode forward pass; without, it appends nothing. *)
Lemma validate_ok X_val y_val val_loss w w' v :
  validate X_val y_val val_loss w = (w', Ok v) ->
  np_random w' = np_random w /\ stdout w' = stdout w /\
  match X_val, y_val with
  | Some X_val, Some y_val =>
      exists vacts vmasks vpred vloss,
        forward X_val false w = (w, Ok (vacts, vmasks)) /\
        getlast vacts = Ok vpred /\
        binary_cross_entropy y_val vpred = Ok vloss /\
        self w'
        = set_val_losses
            (val_losses (self w)
             ++ [fadd vloss
                   (l2_penalty (weights (self w)) (l2_lambda (self w)))])
            (self w)
  | _, _ => w' = w
  end.
Proof.
  unfold validate. intros H.
  destruct X_val as [Xv|];
    [|apply ret_ok in H; destruct H as [-> _]; auto].
  destruct y_val as [yv|];
    [|apply ret_ok in H; destruct H as [-> _]; auto].
  apply bind_ok in H. destruct H as (w1 & [vacts vmasks] & Hf & H).
  assert (w1 = w)
    by (pose proof (forward_inference_world Xv w) as Hw;
        rewrite Hf in Hw; exact Hw).
  subst w1.
  apply bind_ok in H. destruct H as (w1 & vpred & Hp & H).
  apply lift_ok in Hp. destruct Hp as [-> Hp].
  apply bind_ok in H. destruct H as (w1 & m & Hm & H).
  apply get_self_ok in Hm. destruct Hm as [-> ->].
  apply bind_ok in H. destruct H as (w1 & vl & Hl & H).
  apply total_loss_ok in Hl. destruct Hl as [-> (vloss & Hbce & ->)].
  apply bind_ok in H. destruct H as (w1 & [] & Hmod & H).
  apply modify_self_ok in Hmod. subst w1.
  apply ret_ok in H. destruct H as [-> _].
  cbn [np_random stdout self]. split; [reflexivity|]. split; [reflexivity|].
  exists vacts, vmasks, vpred, vloss. auto.
Qed.

(** One iteration of the loop of [train] meets the specification of an 
    epoch. *)
Lemma train_epoch_ok X y X_val y_val epoch val_loss w w' v :
  train_epoch X y X_val y_val epoch val_loss w = (w', Ok v) ->
  epoch_spec X y X_val y_val w w'.
Proof.
  unfold train_epoch. intros H.
  apply bind_ok in H. destruct H as (w1 & [acts masks] & Hf & H).
  apply bind_ok in H. destruct H as (w2 & m & Hm & H).
  apply get_self_ok in Hm. destruct Hm as [-> ->].
  apply bind_ok in H. destruct H as (w2 & [gw gb] & Hb & H).
  apply lift_ok in Hb. destruct Hb as [-> Hb].
  apply bind_ok in H. destruct H as (w2 & [] & Hu & H).
  apply bind_ok in H. destruct H as (w3 & pred & Hp & H).
  apply lift_ok in Hp. destruct Hp as [-> Hp].
  apply bind_ok in H. destruct H as (w3 & m & Hm & H).
  apply get_self_ok in Hm. destruct Hm as [-> ->].
  apply bind_ok in H. destruct H as (w3 & tl & Hl & H).
  apply total_loss_ok in Hl. destruct Hl as [-> (loss & Hbce & ->)].
  apply bind_ok in H. destruct H as (w3 & [] & Hmod & H).
  apply modify_self_ok in Hmod.
  apply bind_ok in H. destruct H as (w4 & vl & Hv & H).
  apply bind_ok in H. destruct H as (w5 & [] & Hr & H).
  apply ret_ok in H. destruct H as [-> _].
  apply report_ok in Hr. destruct Hr as [Hs5 _].
  pose proof (forward_trace _ _ _ Hf) as (Hs1 & _).
  pose proof (update_weights_ok _ _ _ Hu) as (Hupd & _).
  apply validate_ok in Hv. destruct Hv as (_ & _ & Hv).
  assert (Hs3 : self w3
                = set_train_losses
                    (train_losses (self w2)
                     ++ [fadd loss (l2_penalty (weights (self w2))
                                               (l2_lambda (self w2)))])
                    (self w2))
    by (subst w3; reflexivity).
  assert (Htl2 : train_losses (self w2) = train_losses (self w)).
  { destruct Hupd as (_ & _ & Hfr). rewrite Hs1 in Hfr.
    apply (f_equal train_losses) in Hfr. exact Hfr. }
  assert (Hvl2 : val_losses (self w2) = val_losses (self w)).
  { destruct Hupd as (_ & _ & Hfr). rewrite Hs1 in Hfr.
    apply (f_equal val_losses) in Hfr. exact Hfr. }
  assert (Ht2 : trained (self w) (self w2))
    by (apply updated_trained; rewrite <- Hs1; exact Hupd).
  assert (Ht3 : trained (self w) (self w3)).
  { eapply trained_trans; [exact Ht2|]. rewrite Hs3.
    unfold trained. cbn. apply updated_refl. }
  exists acts, masks, w1, gw, gb, w2, pred, loss.
  split; [exact Hf|]. split; [exact Hb|]. split; [exact Hu|].
  rewrite Hs5.
  destruct X_val as [Xv|]; [destruct y_val as [yv|]|].
  - destruct Hv as (vacts & vmasks & vpred & vloss & Hvf & Hvp & Hvb & Hs4).
    rewrite Hs4. cbn [weights l2_lambda train_losses val_losses set_val_losses].
    rewrite Hs3. cbn [weights l2_lambda train_losses val_losses set_train_losses].
    rewrite Htl2, Hvl2.
    split; [reflexivity|].
    split.
    { eapply trained_trans; [exact Ht2|]. unfold trained. cbn. apply updated_refl. }
    split; [exact Hp|]. split; [exact Hbce|]. split; [reflexivity|].
    exists w3, vacts, vmasks, vpred, vloss.
    split; [exact Hvf|]. split; [rewrite Hs3, Htl2; reflexivity|].
    split; [exact Hvp|]. split; [exact Hvb|]. reflexivity.
  - subst w4. split; [rewrite Hs3; reflexivity|]. split; [exact Ht3|].
    split; [exact Hp|]. split; [exact Hbce|].
    rewrite Hs3.
    cbn [weights l2_lambda train_losses val_losses set_train_losses].
    rewrite Htl2, Hvl2. split; reflexivity.
  - subst w4. split; [rewrite Hs3; reflexivity|]. split; [exact Ht3|].
    split; [exact Hp|]. split; [exact Hbce|].
    rewrite Hs3.
    cbn [weights l2_lambda train_losses val_losses set_train_losses].
    rewrite Htl2, Hvl2. split; reflexivity.
Qed.

Lemma train_loop_ok X y X_val y_val l :
  forall val_loss w w' v,
    for_each l (train_epoch X y X_val y_val) val_loss w = (w', Ok v) ->
    epochs_spec X y X_val y_val (length l) w w'.
Proof.
  induction l as [|e l IH]; intros val_loss w w' v H.
  - apply ret_ok in H. destruct H as [-> _]. reflexivity.
  - rewrite for_each_cons in H.
    apply bind_ok in H. destruct H as (w1 & v1 & H1 & H).
    apply train_epoch_ok in H1. apply IH in H.
    cbn [length epochs_spec]. exists w1. auto.
Qed.

Lemma train_ok X y X_val y_val w w' u :
  train X y X_val y_val w = (w', Ok u) ->
  epochs_spec X y X_val y_val (epochs (self w)) w w'.
Proof.
  unfold train. intros H.
  apply bind_ok in H. destruct H as (w1 & m & Hm & H).
  apply get_self_ok in Hm. destruct Hm as [-> ->].
  apply bind_ok in H. destruct H as (w1 & v & Hloop & H).
  apply ret_ok in H. destruct H as [-> _].
  apply train_loop_ok in Hloop.
  unfold range in Hloop. rewrite length_seq in Hloop. exact Hloop.
Qed.

End TrainLemmas.

(** ** Shapes in an initialized network *)

Section ShapeLemmas.
Context {Sc : Scalar}.

Lemma nth_error_map_seq {B} (f : nat -> B) n i b :
  nth_error (map f (seq 0 n)) i = Some b -> i < n /\ b = f i.
Proof.
  intros H.
  assert (Hi : i < n).
  { assert (Hn : nth_error (map f (seq 0 n)) i <> None) by congruence.
    apply nth_error_Some in Hn. rewrite length_map, length_seq in Hn.
    exact Hn. }
  split; [exact Hi|].
  rewrite nth_error_map in H.
  rewrite (nth_error_nth' (seq 0 n) 0) in H by (rewrite length_seq; lia).
  rewrite seq_nth in H by lia. simpl in H. congruence.
Qed.

Lemma nth_error_combine {A B} (l1 : list A) (l2 : list B) i a b :
  nth_error l1 i = Some a -> nth_error l2 i = Some b ->
  nth_error (combine l1 l2) i = Some (a, b).
Proof.
  revert l2 i. induction l1 as [|x l1 IH]; intros [|y l2] [|i] Ha Hb;
    simpl in *; try discriminate.
  - congruence.
  - apply IH; assumption.
Qed.

Lemma initialized_weight m i W :
  initialized m -> nth_error (weights m) i = Some W ->
  i < S (length (hidden_layers m)) /\
  shape W = (nth i (layer_sizes m) 0, nth (S i) (layer_sizes m) 0).
Proof.
  intros (Hw & _) HW.
  apply (map_nth_error shape) in HW.
  rewrite Hw, consecutive_nth in HW.
  apply nth_error_map_seq in HW. destruct HW as [Hi ->].
  split; [|reflexivity].
  unfold layer_sizes in Hi. cbn [app length] in Hi.
  rewrite length_app in Hi. cbn [length] in Hi. lia.
Qed.

Lemma initialized_bias m i b :
  initialized m -> nth_error (biases m) i = Some b ->
  shape b = (1, nth (S i) (layer_sizes m) 0).
Proof.
  intros (_ & Hb & _) H.
  apply (map_nth_error shape) in H.
  rewrite Hb, tl_nth in H.
  apply nth_error_map_seq in H. destruct H as [_ ->]. reflexivity.
Qed.

Lemma initialized_activation m i f :
  initialized m -> nth_error (activation_funcs m) i = Some f ->
  f = sigmoid \/ f = relu.
Proof.
  intros (_ & _ & Hc & Hlf & Hld & _) Hf.
  assert (Hi : i < length (activation_funcs m))
    by (apply nth_error_Some; congruence).
  destruct (nth_error (activation_derivatives m) i) as [d|] eqn:Ed;
    [|apply nth_error_None in Ed; lia].
  pose proof (nth_error_combine _ _ _ Hf Ed) as Hfd.
  apply (map_nth_error Ok) in Hfd. rewrite <- Hc in Hfd.
  rewrite nth_error_map in Hfd.
  destruct (nth_error (activations m) i) as [nm|]; [|discriminate].
  cbn in Hfd. inversion Hfd as [Hd].
  apply registered_cases in Hd. tauto.
Qed.

Lemma broadcast_dim_1_r n : broadcast_dim n 1 = Ok n.
Proof.
  unfold broadcast_dim. destruct (n =? 1) eqn:E; reflexivity.
Qed.

Lemma dot_shape (A B C : array) :
  dot A B = Ok C -> nrows C = nrows A /\ ncols C = ncols B.
Proof.
  unfold dot. destruct (ncols A =? nrows B); intros H; inversion H; auto.
Qed.

(** A layer of an initialized network keeps the batch dimension and
    produces as many columns as the next layer size. *)
Lemma activate_shape m i A A' :
  initialized m -> activate m i A = Ok A' ->
  nrows A' = nrows A /\ ncols A' = nth (S i) (layer_sizes m) 0.
Proof.
  intros Hinit H. unfold activate in H.
  apply rbind_ok in H. destruct H as (W & HW & H).
  apply rbind_ok in H. destruct H as (AW & HAW & H).
  apply rbind_ok in H. destruct H as (b & Hb & H).
  apply rbind_ok in H. destruct H as (Z & HZ & H).
  apply rbind_ok in H. destruct H as (f & Hf & H).
  inversion H; subst A'. clear H.
  apply getitem_ok in HW, Hb, Hf.
  destruct (initialized_weight _ Hinit HW) as [_ HsW].
  pose proof (initialized_bias _ Hinit Hb) as Hsb.
  apply dot_shape in HAW. destruct HAW as [Hr Hc].
  unfold shape in HsW, Hsb.
  apply pair_equal_spec in HsW. destruct HsW as [HW1 HW2].
  apply pair_equal_spec in Hsb. destruct Hsb as [Hb1 Hb2].
  unfold add_arrays, broadcast2 in HZ.
  rewrite Hb1, Hb2, Hc, HW2, broadcast_dim_1_r, broadcast_dim_same in HZ.
  cbn [rbind] in HZ. inversion HZ; subst Z. clear HZ.
  destruct (initialized_activation _ Hinit Hf) as [-> | ->];
    cbn [sigmoid relu amap nrows ncols]; auto.
Qed.

Lemma dropout_shape training i A w w' A' mk :
  dropout training i A w = (w', Ok (A', mk)) -> shape A' = shape A.
Proof.
  destruct (dropout_applies (self w) training i) eqn:E.
  - destruct (dropout_on training i A w E) as (rate & A1 & _ & _ & H).
    destruct (rand (nrows A) (ncols A) (np_random w)) as [u g'].
    destruct H as (H & Hs & _). rewrite H. intros H'; inversion H'; subst.
    exact Hs.
  - rewrite (dropout_off training i A w E). intros H'; inversion H'; auto.
Qed.

(** Every cached activation of a forward pass through an initialized
    network has one row per input row and one column per unit. *)
Lemma forward_shapes X training w w' acts masks :
  initialized (self w) ->
  forward X training w = (w', Ok (acts, masks)) ->
  forall i A, i < length (weights (self w)) ->
    nth_error acts (S i) = Some A ->
    nrows A = nrows X /\ ncols A = nth (S i) (layer_sizes (self w)) 0.
Proof.
  intros Hinit H.
  apply forward_trace in H.
  destruct H as (_ & _ & _ & _ & H0 & Hlayers).
  induction i as [|i IH]; intros A Hi HA.
  - destruct (Hlayers 0 Hi) as (Ap & An & mk & Hp & Hn & _ & Hstep).
    rewrite H0 in Hp. inversion Hp; subst Ap.
    rewrite HA in Hn. inversion Hn; subst An.
    destruct Hstep as (A1 & w0 & w0' & Hact & _ & Hdrop).
    apply (activate_shape _ _ Hinit) in Hact.
    apply dropout_shape in Hdrop. unfold shape in Hdrop.
    apply pair_equal_spec in Hdrop. destruct Hdrop, Hact.
    split; congruence.
  - destruct (Hlayers (S i) Hi) as (Ap & An & mk & Hp & Hn & _ & Hstep).
    rewrite HA in Hn. inversion Hn; subst An.
    destruct (IH Ap ltac:(lia) Hp) as [Hr _].
    destruct Hstep as (A1 & w0 & w0' & Hact & _ & Hdrop).
    apply (activate_shape _ _ Hinit) in Hact.
    apply dropout_shape in Hdrop. unfold shape in Hdrop.
    apply pair_equal_spec in Hdrop. destruct Hdrop, Hact.
    split; congruence.
Qed.

End ShapeLemmas.

(** ** Backpropagation *)

Section BackwardLemmas.
Context {Sc : Scalar}.

Lemma inplace2_item {T} (op : T -> T -> T) A B C :
  inplace2 op A B = Ok C ->
  forall r c, item C r c = op (item A r c) (bitem B r c).
Proof.
  unfold inplace2. intros H.
  apply rbind_ok in H. destruct H as (r0 & _ & H).
  apply rbind_ok in H. destruct H as (c0 & _ & H).
  destruct ((r0 =? nrows A) && (c0 =? ncols A)); inversion H. reflexivity.
Qed.

(** For [i > 0] an iteration of the loop of [backward] propagates
    [delta] through [weights[i]], multiplies by the derivative at the
    cached activation and then by the recorded mask, if there is one. *)
Lemma backward_layer_propagates m acts masks i delta gw gb delta' gw' gb' :
  0 < i ->
  backward_layer m acts masks i (delta, gw, gb) = Ok (delta', gw', gb') ->
  exists a W deriv back pre mk,
    nth_error acts i = Some a /\
    nth_error (weights m) i = Some W /\
    nth_error (activation_derivatives m) (i - 1) = Some deriv /\
    dot delta (transpose W) = Ok back /\
    mul_arrays back (deriv a) = Ok pre /\
    nth_error masks (i - 1) = Some mk /\
    match mk with
    | Some mask =>
        shape delta' = shape pre /\
        forall r c, item delta' r c = fmul (item pre r c) (bitem mask r c)
    | None => delta' = pre
    end.
Proof.
  intros Hi H. unfold backward_layer in H.
  apply rbind_ok in H. destruct H as (a & Ha & H).
  apply rbind_ok in H. destruct H as (g & Hg & H).
  assert (E : (0 <? i) = true) by (apply Nat.ltb_lt; exact Hi).
  rewrite E in H.
  apply rbind_ok in H. destruct H as (W & HW & H).
  apply rbind_ok in H. destruct H as (back & Hback & H).
  apply rbind_ok in H. destruct H as (deriv & Hderiv & H).
  apply rbind_ok in H. destruct H as (a2 & Ha2 & H).
  apply rbind_ok in H. destruct H as (pre & Hpre & H).
  apply rbind_ok in H. destruct H as (mk & Hmk & H).
  rewrite Ha in Ha2. inversion Ha2; subst a2.
  apply getitem_ok in Ha, HW, Hderiv, Hmk.
  exists a, W, deriv, back, pre, mk.
  repeat (split; [assumption|]).
  destruct mk as [mask|].
  - apply rbind_ok in H. destruct H as (d & Hd & H).
    inversion H; subst. split.
    + eapply inplace2_shape; eauto.
    + eapply inplace2_item; eauto.
  - inversion H; subst. reflexivity.
Qed.

End BackwardLemmas.

(** ** Further consequences *)

Section Consequences.
Context {Sc : Scalar}.

Lemma initialized_length_weights m :
  initialized m -> length (weights m) = S (length (hidden_layers m)).
Proof.
  intros (Hw & _).
  apply (f_equal (@length _)) in Hw.
  rewrite length_map, consecutive_nth, length_map, length_seq in Hw.
  rewrite Hw. unfold layer_sizes. cbn [app length].
  rewrite length_app. cbn [length]. lia.
Qed.

Lemma layer_sizes_last m :
  nth (S (length (hidden_layers m))) (layer_sizes m) 0 = 1.
Proof.
  unfold layer_sizes. cbn [app nth].
  rewrite app_nth2 by lia. rewrite Nat.sub_diag. reflexivity.
Qed.

Lemma epochs_spec_counts X y X_val y_val n :
  forall w w',
    epochs_spec X y X_val y_val n w w' ->
    trained (self w) (self w') /\
    length (train_losses (self w')) = length (train_losses (self w)) + n /\
    length (val_losses (self w'))
    = length (val_losses (self w))
      + match X_val, y_val with
        | Some _, Some _ => n
        | _, _ => 0
        end.
Proof.
  induction n as [|n IH]; intros w w' H.
  - cbn [epochs_spec] in H. rewrite H.
    split; [apply trained_refl|].
    split; [lia | destruct X_val, y_val; lia].
  - cbn [epochs_spec] in H. destruct H as (w1 & He & H).
    apply IH in H. destruct H as (Ht & Htl & Hvl).
    destruct He as (acts & masks & w0 & gw & gb & w2 & pred & loss &
                    _ & _ & _ & _ & Ht1 & _ & _ & Htl1 & Hvl1).
    split; [eapply trained_trans; eauto|].
    rewrite Htl, Hvl, Htl1. rewrite length_app. cbn [length].
    split; [lia|].
    destruct X_val as [Xv|]; [destruct y_val as [yv|]|].
    + destruct Hvl1 as (w3 & va & vm & vp & vl & _ & _ & _ & _ & Hvl1).
      rewrite Hvl1, length_app. cbn [length]. lia.
    + rewrite Hvl1. lia.
    + rewrite Hvl1. lia.
Qed.

Lemma dropout_zero_rates training i A w :
  Forall (fun r => r = zero) (dropout_rates (self w)) ->
  dropout training i A w = (w, Ok (A, None)).
Proof.
  intros Hz. apply dropout_off. unfold dropout_applies.
  destruct (nth_error (dropout_rates (self w)) i) as [r|] eqn:E.
  - rewrite Forall_forall in Hz.
    rewrite (Hz r (nth_error_In _ _ E)), fgt_irrefl.
    apply andb_false_r.
  - apply andb_false_r.
Qed.

Lemma forward_layer_zero_rates training i A acts masks w :
  Forall (fun r => r = zero) (dropout_rates (self w)) ->
  forward_layer training i (A, acts, masks) w
  = (w, match activate (self w) i A with
        | Ok A1 => Ok (A1, acts ++ [A1], masks ++ [None])
        | Err e => Err e
        end).
Proof.
  intros Hz. unfold forward_layer, bind, get_self, lift.
  destruct (activate (self w) i A) as [A1|e]; [|reflexivity].
  rewrite dropout_zero_rates by assumption. reflexivity.
Qed.

(** With every rate zero the loop of [forward] only reads the weights,
    biases and activation functions. *)
Lemma forward_loop_zero_rates training l :
  forall st w1 w2,
    Forall (fun r => r = zero) (dropout_rates (self w1)) ->
    Forall (fun r => r = zero) (dropout_rates (self w2)) ->
    weights (self w1) = weights (self w2) ->
    biases (self w1) = biases (self w2) ->
    activation_funcs (self w1) = activation_funcs (self w2) ->
    fst (for_each l (forward_layer training) st w1) = w1 /\
    fst (for_each l (forward_layer training) st w2) = w2 /\
    snd (for_each l (forward_layer training) st w1)
    = snd (for_each l (forward_layer training) st w2).
Proof.
  induction l as [|i l IH]; intros [[A acts] masks] w1 w2 Hz1 Hz2 Hw Hb Hf.
  - cbn. auto.
  - rewrite !for_each_cons. unfold bind.
    rewrite !forward_layer_zero_rates by assumption.
    assert (Ha : activate (self w1) i A = activate (self w2) i A)
      by (unfold activate; rewrite Hw, Hb, Hf; reflexivity).
    rewrite Ha.
    destruct (activate (self w2) i A) as [A1|e]; [|cbn; auto].
    apply IH; assumption.
Qed.

Lemma dropout_applies_iff m i :
  dropout_applies m true i = true <->
  i < length (dropout_rates m) /\
  exists r, nth_error (dropout_rates m) i = Some r /\ fgt r zero = true.
Proof.
  unfold dropout_applies. cbn [andb]. split.
  - intros H. apply andb_true_iff in H. destruct H as [Hi Hr].
    apply Nat.ltb_lt in Hi. split; [exact Hi|].
    destruct (nth_error (dropout_rates m) i) as [r|]; [eauto|discriminate].
  - intros (Hi & r & Hr & Hgt). rewrite Hr, Hgt.
    apply Nat.ltb_lt in Hi. rewrite Hi. reflexivity.
Qed.

Lemma dropout_applies_inference m i : dropout_applies m false i = false.
Proof. reflexivity. Qed.

Lemma dropout_applies_beyond m training i :
  length (dropout_rates m) <= i -> dropout_applies m training i = false.
Proof.
  intros H. unfold dropout_applies.
  apply Nat.ltb_ge in H. rewrite H, andb_false_r. reflexivity.
Qed.

(** A layer of a forward pass, by cases on the guard of the dropout
    branch. *)
Lemma layer_step_cases m training i A_prev A_next mk :
  layer_step m training i A_prev A_next mk ->
  exists A,
    activate m i A_prev = Ok A /\
    if dropout_applies m training i
    then
      exists rate g,
        nth_error (dropout_rates m) i = Some rate /\
        fgt rate zero = true /\
        mk = Some (gt_as_float (fst (rand (nrows A) (ncols A) g)) rate) /\
        shape A_next = shape A /\
        forall r c, r < nrows A -> c < ncols A ->
          item A_next r c
          = fdiv (fmul (item A r c)
                    (item (gt_as_float (fst (rand (nrows A) (ncols A) g))
                                       rate) r c))
                 (fsub one rate)
    else mk = None /\ A_next = A.
Proof.
  intros (A & w & w' & Hact & Hself & Hdrop).
  exists A. split; [exact Hact|]. subst m.
  destruct (dropout_applies (self w) training i) eqn:E.
  - destruct (dropout_on training i A w E) as (rate & A1 & Hr & Hgt & H).
    exists rate, (np_random w).
    destruct (rand (nrows A) (ncols A) (np_random w)) as [u g'].
    destruct H as (H & Hs & Hit). rewrite H in Hdrop.
    inversion Hdrop; subst. cbn [fst]. auto.
  - rewrite (dropout_off training i A w E) in Hdrop.
    inversion Hdrop; subst. auto.
Qed.

End Consequences.

(** ** Well-shaped calls return *)

Section Totality.
Context {Sc : Scalar}.

Lemma initialized_lengths m :
  initialized m ->
  length (weights m) = S (length (hidden_layers m)) /\
  length (biases m) = S (length (hidden_layers m)) /\
  length (activation_funcs m) = S (length (hidden_layers m)) /\
  length (activation_derivatives m) = S (length (hidden_layers m)).
Proof.
  intros Hinit. pose proof (initialized_length_weights Hinit) as Hw.
  destruct Hinit as (_ & Hb & _ & Hf & Hd & Hn).
  split; [exact Hw|]. split; [|split; congruence].
  apply (f_equal (@length _)) in Hb.
  rewrite !length_map in Hb. rewrite Hb.
  unfold layer_sizes. cbn [app tl]. rewrite length_app. cbn [length]. lia.
Qed.

Lemma activate_succeeds m i A :
  initialized m -> i < S (length (hidden_layers m)) ->
  ncols A = nth i (layer_sizes m) 0 ->
  exists A', activate m i A = Ok A'.
Proof.
  intros Hinit Hi HA.
  destruct (initialized_lengths Hinit) as (Hlw & Hlb & Hlf & _).
  destruct (getitem_lt (weights m) (i:=i)) as [W HW]; [lia|].
  destruct (getitem_lt (biases m) (i:=i)) as [b Hb]; [lia|].
  destruct (getitem_lt (activation_funcs m) (i:=i)) as [f Hf]; [lia|].
  unfold activate. rewrite HW, Hb, Hf. cbn [rbind].
  apply getitem_ok in HW, Hb.
  destruct (initialized_weight _ Hinit HW) as [_ HsW].
  pose proof (initialized_bias _ Hinit Hb) as Hsb.
  unfold shape in HsW, Hsb.
  apply pair_equal_spec in HsW. destruct HsW as [HW1 HW2].
  apply pair_equal_spec in Hsb. destruct Hsb as [Hb1 Hb2].
  unfold dot. rewrite HA, HW1, Nat.eqb_refl. cbn [rbind].
  unfold add_arrays, broadcast2. cbn [nrows ncols].
  rewrite Hb1, Hb2, HW2, broadcast_dim_1_r, broadcast_dim_same.
  cbn [rbind]. eauto.
Qed.

Lemma dropout_succeeds training i A w :
  exists w' A' mk, dropout training i A w = (w', Ok (A', mk)).
Proof.
  destruct (dropout_applies (self w) training i) eqn:E.
  - destruct (dropout_on training i A w E) as (rate & A1 & _ & _ & H).
    destruct (rand (nrows A) (ncols A) (np_random w)) as [u g'].
    destruct H as (H & _). eauto.
  - rewrite (dropout_off training i A w E). eauto.
Qed.

Lemma forward_loop_succeeds training n :
  forall s A acts masks w,
    initialized (self w) ->
    s + n = S (length (hidden_layers (self w))) ->
    ncols A = nth s (layer_sizes (self w)) 0 ->
    exists w' st',
      for_each (seq s n) (forward_layer training) (A, acts, masks) w
      = (w', Ok st').
Proof.
  induction n as [|n IH]; intros s A acts masks w Hinit Hs HA.
  - cbn. unfold ret. eauto.
  - change (seq s (S n)) with (s :: seq (S s) n). rewrite for_each_cons.
    destruct (activate_succeeds (i:=s) A Hinit ltac:(lia) HA) as [A1 Hact].
    destruct (dropout_succeeds training s A1 w) as (w1 & A2 & mk & Hdrop).
    pose proof (dropout_frame _ _ _ _ Hdrop) as [Hself _].
    pose proof (dropout_shape _ _ _ _ Hdrop) as Hshape.
    destruct (activate_shape _ _ Hinit Hact) as [_ Hc].
    unfold bind at 1.
    unfold forward_layer, bind, get_self, lift.
    rewrite Hact, Hdrop. unfold ret.
    apply IH.
    + rewrite Hself. exact Hinit.
    + rewrite Hself. lia.
    + rewrite Hself. unfold shape in Hshape.
      apply pair_equal_spec in Hshape. destruct Hshape. congruence.
Qed.

(** In an initialized network a forward pass on a batch with
    [input_size] columns returns. *)
Lemma forward_succeeds X training w :
  initialized (self w) -> ncols X = input_size (self w) ->
  exists w' acts masks, forward X training w = (w', Ok (acts, masks)).
Proof.
  intros Hinit HX.
  unfold forward, bind, get_self.
  rewrite (initialized_length_weights Hinit). unfold range.
  destruct (forward_loop_succeeds training (S (length (hidden_layers (self w))))
              0 X [X] [] w Hinit eq_refl HX)
    as (w' & [[A acts] masks] & H).
  rewrite H. unfold ret. eauto.
Qed.

Lemma initialized_derivative m i d :
  initialized m -> nth_error (activation_derivatives m) i = Some d ->
  d = sigmoidDerivative \/ d = reluDerivative.
Proof.
  intros (_ & _ & Hc & Hlf & Hld & _) Hd.
  assert (Hi : i < length (activation_derivatives m))
    by (apply nth_error_Some; congruence).
  destruct (nth_error (activation_funcs m) i) as [f|] eqn:Ef;
    [|apply nth_error_None in Ef; lia].
  pose proof (nth_error_combine _ _ _ Ef Hd) as Hfd.
  apply (map_nth_error Ok) in Hfd. rewrite <- Hc in Hfd.
  rewrite nth_error_map in Hfd.
  destruct (nth_error (activations m) i) as [nm|]; [|discriminate].
  cbn in Hfd. inversion Hfd as [Hd'].
  apply registered_cases in Hd'. tauto.
Qed.

Lemma derivative_shape m i d (A : array) :
  initialized m -> nth_error (activation_derivatives m) i = Some d ->
  shape (d A) = shape A.
Proof.
  intros Hinit Hd.
  destruct (initialized_derivative _ Hinit Hd) as [-> | ->]; reflexivity.
Qed.

Lemma broadcast2_same_shape (op : F -> F -> F) (A B : array) :
  shape A = shape B ->
  exists C, broadcast2 op A B = Ok C /\ shape C = shape A.
Proof.
  unfold shape. intros H. apply pair_equal_spec in H. destruct H as [Hr Hc].
  unfold broadcast2. rewrite Hr, Hc, !broadcast_dim_same. cbn [rbind].
  eexists. split; [reflexivity|]. unfold shape. cbn. congruence.
Qed.

Lemma inplace2_same_shape (op : F -> F -> F) (A B : array) :
  shape A = shape B -> exists C, inplace2 op A B = Ok C.
Proof.
  unfold shape. intros H. apply pair_equal_spec in H. destruct H as [Hr Hc].
  unfold inplace2. rewrite <- Hr, <- Hc, !broadcast_dim_same. cbn [rbind].
  rewrite !Nat.eqb_refl. cbn [andb]. eauto.
Qed.

Lemma dot_succeeds (A B : array) :
  ncols A = nrows B ->
  exists C, dot A B = Ok C /\ nrows C = nrows A /\ ncols C = ncols B.
Proof.
  intros H. unfold dot. rewrite H, Nat.eqb_refl.
  eexists. split; [reflexivity|]. auto.
Qed.

Lemma firstn_S_nth {A} (l : list A) k x :
  nth_error l k = Some x -> firstn (S k) l = firstn k l ++ [x].
Proof.
  revert k. induction l as [|a l IH]; intros [|k] H; cbn in *;
    try discriminate.
  - inversion H; reflexivity.
  - f_equal. apply IH. exact H.
Qed.

Lemma rev_seq_S k : rev (seq 0 (S k)) = k :: rev (seq 0 k).
Proof. rewrite seq_S, rev_app_distr. reflexivity. Qed.

(** The shapes of what a forward pass caches. *)
Lemma forward_cache_shapes X training w w' acts masks :
  initialized (self w) -> ncols X = input_size (self w) ->
  forward X training w = (w', Ok (acts, masks)) ->
  (forall i, i <= S (length (hidden_layers (self w))) ->
     exists A, nth_error acts i = Some A /\
               nrows A = nrows X /\
               ncols A = nth i (layer_sizes (self w)) 0) /\
  (forall i, i < S (length (hidden_layers (self w))) ->
     exists mk, nth_error masks i = Some mk /\
       forall mask, mk = Some mask ->
         shape mask = (nrows X, nth (S i) (layer_sizes (self w)) 0)).
Proof.
  intros Hinit HX Hf.
  pose proof (forward_shapes _ _ _ Hinit Hf) as Hsh.
  pose proof (forward_trace _ _ _ Hf) as (_ & _ & Hla & Hlm & H0 & Hlayers).
  pose proof (initialized_length_weights Hinit) as HL.
  rewrite HL in *.
  split.
  - intros [|i] Hi.
    + exists X. split; [exact H0|]. split; [reflexivity | exact HX].
    + destruct (nth_error acts (S i)) as [A|] eqn:E;
        [|apply nth_error_None in E; lia].
      exists A. split; [reflexivity|]. apply Hsh; [lia | exact E].
  - intros i Hi.
    destruct (Hlayers i Hi) as (Ap & An & mk & Hp & Hn & Hm & Hstep).
    exists mk. split; [exact Hm|]. intros mask ->.
    destruct (Hsh i An Hi Hn) as [Hr Hc].
    apply layer_step_cases in Hstep. destruct Hstep as (A & _ & Hcase).
    destruct (dropout_applies (self w) training i).
    + destruct Hcase as (rate & g0 & _ & _ & Hmk & Hs & _).
      inversion Hmk; subst mask.
      unfold shape in Hs. apply pair_equal_spec in Hs. destruct Hs as [Hs1 Hs2].
      unfold shape, gt_as_float, amap. cbn [nrows ncols].
      f_equal; congruence.
    + destruct Hcase as [Hno _]. discriminate.
Qed.

(** An iteration of the loop of [backward] on a cache of those shapes
    returns, with a weight gradient of the shape of [weights[k]]. *)
Lemma backward_layer_succeeds m acts masks n k delta gw gb :
  initialized m ->
  (forall i, i <= S (length (hidden_layers m)) ->
     exists A, nth_error acts i = Some A /\ nrows A = n /\
               ncols A = nth i (layer_sizes m) 0) ->
  (forall i, i < S (length (hidden_layers m)) ->
     exists mk, nth_error masks i = Some mk /\
       forall mask, mk = Some mask ->
         shape mask = (n, nth (S i) (layer_sizes m) 0)) ->
  k < S (length (hidden_layers m)) ->
  shape delta = (n, nth (S k) (layer_sizes m) 0) ->
  exists delta1 g,
    backward_layer m acts masks k (delta, gw, gb)
    = Ok (delta1, g :: gw, sum_axis0_keepdims delta :: gb) /\
    shape g = (nth k (layer_sizes m) 0, nth (S k) (layer_sizes m) 0) /\
    (0 < k -> shape delta1 = (n, nth k (layer_sizes m) 0)).
Proof.
  intros Hinit Hacts Hmasks Hk Hdelta.
  destruct (initialized_lengths Hinit) as (Hlw & Hlb & _ & Hld).
  unfold shape in Hdelta.
  apply pair_equal_spec in Hdelta. destruct Hdelta as [Hdr Hdc].
  destruct (Hacts k ltac:(lia)) as (a & Ha & Har & Hac).
  destruct (getitem_lt (weights m) (i:=k)) as [W HW]; [lia|].
  pose proof HW as HW'. apply getitem_ok in HW'.
  destruct (initialized_weight _ Hinit HW') as [_ HsW].
  destruct (@dot_succeeds (transpose a) delta) as (g & Hg & Hgr & Hgc);
    [cbn; congruence|].
  assert (Hsg : shape g
                = (nth k (layer_sizes m) 0, nth (S k) (layer_sizes m) 0)).
  { unfold shape. cbn in Hgr. congruence. }
  unfold backward_layer. unfold getitem at 1. rewrite Ha. cbn [rbind].
  rewrite Hg. cbn [rbind].
  destruct (0 <? k) eqn:Ek.
  - apply Nat.ltb_lt in Ek.
    rewrite HW. cbn [rbind].
    unfold shape in HsW. apply pair_equal_spec in HsW.
    destruct HsW as [HW1 HW2].
    destruct (@dot_succeeds delta (transpose W)) as (back & Hback & Hbr & Hbc);
      [cbn; congruence|].
    rewrite Hback. cbn [rbind].
    destruct (getitem_lt (activation_derivatives m) (i:=k - 1))
      as [deriv Hderiv]; [lia|].
    rewrite Hderiv. cbn [rbind]. apply getitem_ok in Hderiv.
    unfold getitem at 1. rewrite Ha. cbn [rbind].
    assert (Hsback : shape back = shape (deriv a)).
    { rewrite (derivative_shape _ a Hinit Hderiv).
      unfold shape. cbn in Hbc. congruence. }
    destruct (@broadcast2_same_shape fmul back (deriv a) Hsback)
      as (pre & Hpre & Hspre).
    unfold mul_arrays. rewrite Hpre. cbn [rbind].
    assert (Hspre' : shape pre = (n, nth k (layer_sizes m) 0)).
    { rewrite Hspre. unfold shape. cbn in Hbc. congruence. }
    destruct (Hmasks (k - 1) ltac:(lia)) as (mk & Hmk & Hsm).
    unfold getitem. rewrite Hmk. cbn [rbind].
    destruct mk as [mask|].
    + specialize (Hsm mask eq_refl).
      replace (S (k - 1)) with k in Hsm by lia.
      destruct (@inplace2_same_shape fmul pre mask) as [d1 Hd1];
        [congruence|].
      rewrite Hd1. cbn [rbind].
      exists d1, g. split; [reflexivity|]. split; [exact Hsg|]. intros _.
      rewrite (inplace2_shape _ _ _ Hd1). exact Hspre'.
    + exists pre, g. split; [reflexivity|]. split; [exact Hsg|].
      intros _. exact Hspre'.
  - exists delta, g. split; [reflexivity|]. split; [exact Hsg|].
    apply Nat.ltb_ge in Ek. intros Hpos. lia.
Qed.

(** The loop of [backward] on a cache of those shapes, from layer [k - 1]
    down to layer 0. *)
Lemma backward_loop_succeeds m acts masks n :
  initialized m ->
  (forall i, i <= S (length (hidden_layers m)) ->
     exists A, nth_error acts i = Some A /\ nrows A = n /\
               ncols A = nth i (layer_sizes m) 0) ->
  (forall i, i < S (length (hidden_layers m)) ->
     exists mk, nth_error masks i = Some mk /\
       forall mask, mk = Some mask ->
         shape mask = (n, nth (S i) (layer_sizes m) 0)) ->
  forall k delta gw gb,
    k <= S (length (hidden_layers m)) ->
    (0 < k -> shape delta = (n, nth k (layer_sizes m) 0)) ->
    exists delta' gw' gb',
      rfor (rev (seq 0 k)) (backward_layer m acts masks) (delta, gw, gb)
      = Ok (delta', gw', gb') /\
      map shape gw' = firstn k (map shape (weights m)) ++ map shape gw /\
      map shape gb' = firstn k (map shape (biases m)) ++ map shape gb.
Proof.
  intros Hinit Hacts Hmasks.
  destruct (initialized_lengths Hinit) as (Hlw & Hlb & _ & Hld).
  induction k as [|k IH]; intros delta gw gb Hk Hdelta.
  - cbn. exists delta, gw, gb. auto.
  - rewrite rev_seq_S. cbn [rfor].
    specialize (Hdelta ltac:(lia)).
    destruct (@backward_layer_succeeds m acts masks n k delta gw gb
                Hinit Hacts Hmasks ltac:(lia) Hdelta)
      as (delta1 & g & Hstep & Hsg & Hs1).
    rewrite Hstep. cbn [rbind].
    destruct (getitem_lt (weights m) (i:=k)) as [W HW]; [lia|].
    destruct (getitem_lt (biases m) (i:=k)) as [b Hb]; [lia|].
    apply getitem_ok in HW, Hb.
    destruct (initialized_weight _ Hinit HW) as [_ HsW].
    pose proof (initialized_bias _ Hinit Hb) as Hsb.
    assert (Hsgb : shape (sum_axis0_keepdims delta) = shape b).
    { rewrite Hsb. unfold shape in Hdelta |- *.
      apply pair_equal_spec in Hdelta. destruct Hdelta as [_ Hdc].
      unfold sum_axis0_keepdims. cbn [nrows ncols]. congruence. }
    destruct (IH delta1 (g :: gw) (sum_axis0_keepdims delta :: gb)
                ltac:(lia) Hs1)
      as (delta' & gw' & gb' & Hrun & Hgw & Hgb).
    exists delta', gw', gb'. split; [exact Hrun|].
    rewrite Hgw, Hgb. cbn [map].
    rewrite (@firstn_S_nth _ _ _ _ (map_nth_error shape _ _ HW)).
    rewrite (@firstn_S_nth _ _ _ _ (map_nth_error shape _ _ Hb)).
    rewrite <- !app_assoc. cbn [app]. rewrite Hsg, Hsgb, HsW. auto.
Qed.

(** On the cache of a forward pass and labels with one row per example,
    [backward] returns gradients of the shapes of the parameters. *)
Lemma backward_succeeds m acts masks y n :
  initialized m ->
  (forall i, i <= S (length (hidden_layers m)) ->
     exists A, nth_error acts i = Some A /\ nrows A = n /\
               ncols A = nth i (layer_sizes m) 0) ->
  (forall i, i < S (length (hidden_layers m)) ->
     exists mk, nth_error masks i = Some mk /\
       forall mask, mk = Some mask ->
         shape mask = (n, nth (S i) (layer_sizes m) 0)) ->
  length acts = S (S (length (hidden_layers m))) ->
  shape y = (n, 1) ->
  exists grads_w grads_b,
    backward m acts y masks = Ok (grads_w, grads_b) /\
    map shape grads_w = map shape (weights m) /\
    map shape grads_b = map shape (biases m).
Proof.
  intros Hinit Hacts Hmasks Hla Hy.
  destruct (initialized_lengths Hinit) as (Hlw & Hlb & _ & Hld).
  destruct (Hacts (S (length (hidden_layers m))) ltac:(lia))
    as (aL & HaL & Hr & Hc).
  rewrite layer_sizes_last in Hc.
  assert (Hlast : getlast acts = Ok aL).
  { rewrite (getlast_nth _ Hla). apply getitem_ok. exact HaL. }
  assert (Hdelta : exists delta,
             output_delta m acts y = Ok delta /\
             shape delta
             = (n, nth (S (length (hidden_layers m))) (layer_sizes m) 0)).
  { unfold output_delta. rewrite Hlast. cbn [rbind].
    unfold binary_cross_entropyDerivative.
    destruct (@broadcast2_same_shape fsub aL y) as (num & Hnum & Hsnum).
    { rewrite Hy. unfold shape. congruence. }
    unfold sub_arrays. rewrite Hnum. cbn [rbind].
    destruct (@broadcast2_same_shape fdiv num
                (amap (fun p => fadd (fmul p (fsub one p)) lit_1e_8) aL))
      as (d & Hd & Hsd); [rewrite Hsnum; reflexivity|].
    unfold div_arrays. rewrite Hd. cbn [rbind].
    assert (Hderiv : exists deriv,
               nth_error (activation_derivatives m)
                         (length (hidden_layers m)) = Some deriv).
    { destruct (nth_error (activation_derivatives m)
                          (length (hidden_layers m))) eqn:E; [eauto|].
      apply nth_error_None in E. lia. }
    destruct Hderiv as (deriv & Hderiv).
    rewrite (getlast_nth _ Hld). unfold getitem. rewrite Hderiv.
    cbn [rbind].
    destruct (@broadcast2_same_shape fmul d (deriv aL)) as (delta & Hm & Hsm).
    { rewrite (derivative_shape _ aL Hinit Hderiv), Hsd, Hsnum.
      reflexivity. }
    unfold mul_arrays. rewrite Hm. exists delta. split; [reflexivity|].
    rewrite Hsm, Hsd, Hsnum, layer_sizes_last. unfold shape. congruence. }
  destruct Hdelta as (delta & Hdelta & Hsdelta).
  destruct (@backward_loop_succeeds m acts masks n Hinit Hacts Hmasks
              (S (length (hidden_layers m))) delta [] []
              (le_n _) (fun _ => Hsdelta))
    as (delta' & gw & gb & Hrun & Hgw & Hgb).
  exists gw, gb.
  unfold backward. rewrite Hdelta. cbn [rbind].
  rewrite Hlw. unfold range. rewrite Hrun. cbn [rbind].
  split; [reflexivity|].
  rewrite Hgw, Hgb. cbn [map]. rewrite !app_nil_r.
  rewrite <- Hlw at 1. rewrite <- Hlb.
  rewrite <- (length_map shape (weights m)).
  rewrite <- (length_map shape (biases m)).
  rewrite !firstn_all. auto.
Qed.

Lemma setitem_lt {A} (l : list A) i v :
  i < length l -> exists l', setitem l i v = Ok l'.
Proof.
  revert i. induction l as [|a l IH]; intros [|i] H; cbn in *; try lia.
  - eauto.
  - destruct (IH i ltac:(lia)) as [l' Hl']. rewrite Hl'. eauto.
Qed.

Lemma same_shape_at (l1 l2 : list array) i A :
  map shape l1 = map shape l2 -> nth_error l2 i = Some A ->
  exists B, nth_error l1 i = Some B /\ shape B = shape A.
Proof.
  intros Hm HA.
  apply (map_nth_error shape) in HA. rewrite <- Hm in HA.
  rewrite nth_error_map in HA.
  destruct (nth_error l1 i) as [B|]; [|discriminate].
  cbn in HA. exists B. split; [reflexivity|]. congruence.
Qed.

Lemma update_layer_succeeds grads_w grads_b i w :
  i < length (weights (self w)) ->
  length (biases (self w)) = length (weights (self w)) ->
  map shape grads_w = map shape (weights (self w)) ->
  map shape grads_b = map shape (biases (self w)) ->
  exists w', update_layer grads_w grads_b i tt w = (w', Ok tt).
Proof.
  intros Hi Hlb Hgw Hgb.
  destruct (getitem_lt (weights (self w)) (i:=i)) as [W HW]; [lia|].
  destruct (getitem_lt (biases (self w)) (i:=i)) as [b Hb]; [lia|].
  pose proof HW as HW'. pose proof Hb as Hb'.
  apply getitem_ok in HW', Hb'.
  destruct (@same_shape_at _ _ _ _ Hgw HW') as (g & Hg & Hsg).
  destruct (@same_shape_at _ _ _ _ Hgb Hb') as (h & Hh & Hsh).
  destruct (@inplace2_same_shape fsub W
              (amap (fun v => fmul (learning_rate (self w)) v) g))
    as [W1 HW1]; [rewrite <- Hsg; reflexivity|].
  destruct (@inplace2_same_shape fsub b
              (amap (fun v => fmul (learning_rate (self w)) v) h))
    as [b1 Hb1]; [rewrite <- Hsh; reflexivity|].
  destruct (@setitem_lt _ (weights (self w)) i W1 Hi) as [ws Hws].
  destruct (@setitem_lt _ (biases (self w)) i b1) as [bs Hbs]; [lia|].
  unfold update_layer, bind, get_self, lift, modify_self.
  rewrite HW. unfold getitem at 1. rewrite Hg, HW1, Hws.
  cbn [self biases set_weights learning_rate].
  rewrite Hb. unfold getitem. rewrite Hh, Hb1, Hbs. eauto.
Qed.

Lemma update_loop_succeeds grads_w grads_b n :
  forall s w,
    s + n = length (weights (self w)) ->
    length (biases (self w)) = length (weights (self w)) ->
    map shape grads_w = map shape (weights (self w)) ->
    map shape grads_b = map shape (biases (self w)) ->
    exists w', for_each (seq s n) (update_layer grads_w grads_b) tt w
               = (w', Ok tt).
Proof.
  induction n as [|n IH]; intros s w Hs Hlb Hgw Hgb.
  - cbn. unfold ret. eauto.
  - change (seq s (S n)) with (s :: seq (S s) n). rewrite for_each_cons.
    destruct (@update_layer_succeeds grads_w grads_b s w ltac:(lia)
                Hlb Hgw Hgb) as [w1 H1].
    unfold bind. rewrite H1.
    apply update_layer_ok in H1. destruct H1 as ((Hw & Hb & _) & _).
    assert (Hlw1 : length (weights (self w1)) = length (weights (self w)))
      by (apply (f_equal (@length _)) in Hw; rewrite !length_map in Hw;
          exact Hw).
    assert (Hlb1 : length (biases (self w1)) = length (biases (self w)))
      by (apply (f_equal (@length _)) in Hb; rewrite !length_map in Hb;
          exact Hb).
    apply IH; congruence || lia.
Qed.

(** Gradients of the shapes of the parameters can always be applied. *)
Lemma update_weights_succeeds grads_w grads_b w :
  length (biases (self w)) = length (weights (self w)) ->
  map shape grads_w = map shape (weights (self w)) ->
  map shape grads_b = map shape (biases (self w)) ->
  exists w', update_weights grads_w grads_b w = (w', Ok tt).
Proof.
  intros Hlb Hgw Hgb. unfold update_weights, bind, get_self. unfold range.
  apply update_loop_succeeds; auto.
Qed.

Lemma binary_cross_entropy_succeeds (y p : array) :
  shape y = shape p -> exists l, binary_cross_entropy y p = Ok l.
Proof.
  intros H. unfold binary_cross_entropy, mul_arrays, add_arrays.
  destruct (@broadcast2_same_shape fmul y
              (amap flog (amap (fun q => fadd q lit_1e_8) p)) H)
    as (t1 & Ht1 & Hs1).
  rewrite Ht1. cbn [rbind].
  destruct (@broadcast2_same_shape fmul (amap (fun t => fsub one t) y)
              (amap flog (amap (fun q => fadd (fsub one q) lit_1e_8) p)) H)
    as (t2 & Ht2 & Hs2).
  rewrite Ht2. cbn [rbind].
  destruct (@broadcast2_same_shape fadd t1 t2) as (t & Ht & _);
    [rewrite Hs1, Hs2; reflexivity|].
  rewrite Ht. cbn [rbind]. eauto.
Qed.

Lemma total_loss_succeeds y pred alpha w :
  shape y = shape pred ->
  exists v, total_loss y pred alpha w = (w, Ok v).
Proof.
  intros H. destruct (@binary_cross_entropy_succeeds y pred H) as [l Hl].
  unfold total_loss, bind, lift, get_self, ret. rewrite Hl. eauto.
Qed.

(** The final activation of a forward pass has one row per example and
    one column. *)
Lemma forward_final_shape X training w w' acts masks :
  initialized (self w) -> ncols X = input_size (self w) ->
  forward X training w = (w', Ok (acts, masks)) ->
  exists out, getlast acts = Ok out /\ shape out = (nrows X, 1).
Proof.
  intros Hinit HX Hf.
  destruct (forward_cache_shapes _ _ _ Hinit HX Hf) as [Hacts _].
  destruct (Hacts (S (length (hidden_layers (self w)))) (le_n _))
    as (out & Hout & Hr & Hc).
  rewrite layer_sizes_last in Hc.
  pose proof (forward_trace _ _ _ Hf) as (_ & _ & Hla & _).
  rewrite (initialized_length_weights Hinit) in Hla.
  exists out. split.
  - rewrite (getlast_nth _ Hla). apply getitem_ok. exact Hout.
  - unfold shape. congruence.
Qed.

Lemma trained_input_size m m' : trained m m' -> input_size m' = input_size m.
Proof.
  intros (_ & _ & H). apply (f_equal input_size) in H. exact H.
Qed.

(** An epoch up to its validation block, given what its steps return. *)
Lemma train_epoch_run X y X_val y_val epoch val_loss w
      w1 acts masks grads_w grads_b w2 pred loss :
  forward X true w = (w1, Ok (acts, masks)) ->
  backward (self w1) acts y masks = Ok (grads_w, grads_b) ->
  update_weights grads_w grads_b w1 = (w2, Ok tt) ->
  getlast acts = Ok pred ->
  binary_cross_entropy y pred = Ok loss ->
  train_epoch X y X_val y_val epoch val_loss w
  = bind (validate X_val y_val val_loss)
         (fun v => bind (report X_val y pred epoch v) (fun _ => ret v))
         (mk_World
            (set_train_losses
               (train_losses (self w2)
                ++ [fadd loss (l2_penalty (weights (self w2))
                                          (l2_lambda (self w2)))])
               (self w2))
            (np_random w2) (stdout w2)).
Proof.
  intros Hf Hb Hu Hp Hl.
  unfold train_epoch. unfold bind at 1. rewrite Hf.
  unfold bind at 1. unfold get_self at 1.
  unfold bind at 1. unfold lift at 1. rewrite Hb.
  unfold bind at 1. rewrite Hu.
  unfold bind at 1. unfold lift at 1. rewrite Hp.
  unfold bind at 1. unfold get_self at 1.
  unfold bind at 1. unfold total_loss at 1.
  unfold bind at 1. unfold lift at 1. rewrite Hl.
  unfold bind at 1. unfold get_self at 1. unfold ret at 1.
  unfold bind at 1. unfold modify_self at 1.
  reflexivity.
Qed.

Lemma validate_succeeds X_val y_val val_loss w :
  initialized (self w) ->
  validation_well_shaped (self w) X_val y_val ->
  exists w' v,
    validate X_val y_val val_loss w = (w', Ok v) /\
    (X_val <> None -> y_val <> None -> v <> None) /\
    (X_val = None \/ y_val = None -> v = val_loss /\ w' = w).
Proof.
  intros Hinit Hval. unfold validate.
  destruct X_val as [Xv|]; [destruct y_val as [yv|]|].
  - destruct Hval as [HX Hy].
    destruct (@forward_succeeds Xv false w Hinit HX) as (w1 & acts & masks & Hf).
    assert (w1 = w)
      by (pose proof (forward_inference_world Xv w) as Hw;
          rewrite Hf in Hw; exact Hw).
    subst w1.
    destruct (@forward_final_shape _ _ _ _ _ _ Hinit HX Hf) as (out & Hout & Hso).
    destruct (@total_loss_succeeds yv out (l2_lambda (self w)) w)
      as [v Hv]; [congruence|].
    unfold bind at 1. rewrite Hf.
    unfold bind at 1. unfold lift at 1. rewrite Hout.
    unfold bind at 1. unfold get_self at 1.
    unfold bind at 1. rewrite Hv.
    unfold bind, modify_self, ret.
    eexists. exists (Some v). split; [reflexivity|].
    split; [discriminate|]. intros [H|H]; discriminate.
  - unfold ret. exists w, val_loss. split; [reflexivity|].
    split; [intros _ H; congruence | auto].
  - unfold ret. exists w, val_loss. split; [reflexivity|].
    split; [intros H; congruence | auto].
Qed.

Lemma report_succeeds X_val y pred epoch val_loss w :
  shape y = shape pred ->
  X_val = None \/ val_loss <> None ->
  exists w', report X_val y pred epoch val_loss w = (w', Ok tt).
Proof.
  intros Hs Hv. unfold report.
  destruct (epoch mod 100 =? 0); [|unfold ret; eauto].
  destruct (@total_loss_succeeds y pred lit_0_001 w Hs) as [l Hl].
  unfold bind at 1. rewrite Hl.
  unfold bind, print.
  destruct X_val as [Xv|]; [|unfold ret; eauto].
  destruct val_loss as [v|]; [eauto|].
  destruct Hv as [H|H]; [discriminate | congruence].
Qed.

(** The steps of an epoch before its validation block return on a
    well-shaped batch. *)
Lemma learning_steps_succeed X y w :
  initialized (self w) -> well_shaped (self w) X y ->
  exists w1 acts masks grads_w grads_b w2 pred loss,
    forward X true w = (w1, Ok (acts, masks)) /\
    backward (self w1) acts y masks = Ok (grads_w, grads_b) /\
    update_weights grads_w grads_b w1 = (w2, Ok tt) /\
    getlast acts = Ok pred /\
    binary_cross_entropy y pred = Ok loss /\
    shape y = shape pred /\
    updated (self w) (self w2).
Proof.
  intros Hinit [HX Hy].
  destruct (@forward_succeeds X true w Hinit HX) as (w1 & acts & masks & Hf).
  pose proof (forward_trace _ _ _ Hf) as (Hs1 & _ & Hla & _).
  rewrite (initialized_length_weights Hinit) in Hla.
  destruct (@forward_cache_shapes _ _ _ _ _ _ Hinit HX Hf) as [Hacts Hmasks].
  destruct (@backward_succeeds (self w) acts masks y (nrows X)
              Hinit Hacts Hmasks Hla Hy) as (gw & gb & Hb & Hgw & Hgb).
  destruct (initialized_lengths Hinit) as (Hlw & Hlb & _).
  rewrite <- Hs1 in Hb, Hgw, Hgb, Hlw, Hlb.
  destruct (@update_weights_succeeds gw gb w1 ltac:(congruence) Hgw Hgb)
    as [w2 Hu].
  destruct (@forward_final_shape _ _ _ _ _ _ Hinit HX Hf) as (pred & Hp & Hsp).
  assert (Hshape : shape y = shape pred) by congruence.
  destruct (@binary_cross_entropy_succeeds _ _ Hshape) as [loss Hl].
  exists w1, acts, masks, gw, gb, w2, pred, loss.
  repeat (split; [assumption|]).
  pose proof (update_weights_ok _ _ _ Hu) as (Hupd & _).
  rewrite Hs1 in Hupd. exact Hupd.
Qed.

(** An epoch returns on well-shaped data, unless [X_val] comes without
    [y_val]. *)
Lemma train_epoch_succeeds X y X_val y_val epoch val_loss w :
  initialized (self w) ->
  well_shaped (self w) X y ->
  validation_well_shaped (self w) X_val y_val ->
  X_val = None \/ y_val <> None ->
  exists w' v, train_epoch X y X_val y_val epoch val_loss w = (w', Ok v).
Proof.
  intros Hinit Hxy Hval Hboth.
  destruct (@learning_steps_succeed X y w Hinit Hxy)
    as (w1 & acts & masks & gw & gb & w2 & pred & loss &
        Hf & Hb & Hu & Hp & Hl & Hshape & Hupd).
  rewrite (@train_epoch_run X y _ _ _ _ w _ _ _ _ _ _ _ _ Hf Hb Hu Hp Hl).
  set (w3 := mk_World _ _ _).
  assert (Ht3 : trained (self w) (self w3)).
  { eapply trained_trans; [apply updated_trained; exact Hupd|].
    subst w3. unfold trained. cbn. apply updated_refl. }
  assert (Hinit3 : initialized (self w3))
    by (eapply trained_initialized; eauto).
  assert (Hval3 : validation_well_shaped (self w3) X_val y_val).
  { unfold validation_well_shaped, well_shaped in *.
    rewrite (@trained_input_size _ _ Ht3). exact Hval. }
  destruct (@validate_succeeds X_val y_val val_loss w3 Hinit3 Hval3)
    as (w4 & v & Hv & Hsome & _).
  unfold bind at 1. rewrite Hv.
  destruct (@report_succeeds X_val y pred epoch v w4 Hshape) as [w5 Hr].
  { destruct Hboth as [H|H]; [left; exact H|].
    destruct X_val as [Xv|]; [right|left; reflexivity].
    apply Hsome; [discriminate | exact H]. }
  unfold bind at 1. rewrite Hr. unfold ret. eauto.
Qed.

Lemma train_loop_succeeds X y X_val y_val l :
  forall val_loss w,
    initialized (self w) ->
    well_shaped (self w) X y ->
    validation_well_shaped (self w) X_val y_val ->
    X_val = None \/ y_val <> None ->
    exists w' v,
      for_each l (train_epoch X y X_val y_val) val_loss w = (w', Ok v).
Proof.
  induction l as [|e l IH]; intros val_loss w Hinit Hxy Hval Hboth.
  - cbn. unfold ret. eauto.
  - rewrite for_each_cons.
    destruct (@train_epoch_succeeds X y X_val y_val e val_loss w Hinit Hxy Hval Hboth)
      as (w1 & v1 & H1).
    unfold bind. rewrite H1.
    apply train_epoch_ok in H1.
    destruct H1 as (acts & masks & w0 & gw & gb & w2 & pred & loss &
                    _ & _ & _ & _ & Ht & _).
    apply IH.
    + eapply trained_initialized; eauto.
    + unfold well_shaped in *. rewrite (@trained_input_size _ _ Ht). exact Hxy.
    + unfold validation_well_shaped, well_shaped in *.
      rewrite (@trained_input_size _ _ Ht). exact Hval.
    + exact Hboth.
Qed.

(** [train] returns on well-shaped data, unless [X_val] comes without
    [y_val]. *)
Lemma train_succeeds X y X_val y_val w :
  initialized (self w) ->
  well_shaped (self w) X y ->
  validation_well_shaped (self w) X_val y_val ->
  X_val = None \/ y_val <> None ->
  exists w', train X y X_val y_val w = (w', Ok tt).
Proof.
  intros Hinit Hxy Hval Hboth. unfold train, bind, get_self.
  destruct (@train_loop_succeeds X y X_val y_val (range (epochs (self w)))
              None w Hinit Hxy Hval Hboth) as (w' & v & H).
  rewrite H. unfold ret. eauto.
Qed.

(** With [X_val] but without [y_val] the first epoch appends its train
    loss and then raises in the reporting block, where [val_loss] has
    never been assigned. *)
Lemma train_raises_without_y_val X y X_val w :
  initialized (self w) ->
  well_shaped (self w) X y ->
  0 < epochs (self w) ->
  exists w',
    train X y (Some X_val) None w
    = (w', Err (UnboundLocalError "val_loss")) /\
    length (train_losses (self w')) = S (length (train_losses (self w))).
Proof.
  intros Hinit Hxy Hpos.
  destruct (@learning_steps_succeed X y w Hinit Hxy)
    as (w1 & acts & masks & gw & gb & w2 & pred & loss &
        Hf & Hb & Hu & Hp & Hl & Hshape & Hupd).
  unfold train, bind at 1, get_self at 1. unfold range.
  destruct (epochs (self w)) as [|n]; [lia|].
  change (seq 0 (S n)) with (0 :: seq 1 n). rewrite for_each_cons.
  unfold bind at 1. unfold bind at 1.
  rewrite (@train_epoch_run X y _ _ _ _ w _ _ _ _ _ _ _ _ Hf Hb Hu Hp Hl).
  set (w3 := mk_World _ _ _).
  unfold bind at 1. unfold validate, ret at 1.
  unfold bind at 1. unfold report.
  change (0 mod 100 =? 0) with true. cbv iota.
  destruct (@total_loss_succeeds y pred lit_0_001 w3 Hshape) as [l Hl3].
  eexists. split.
  { unfold bind. rewrite Hl3. unfold print, raise. reflexivity. }
  cbn [self stdout np_random]. subst w3.
  cbn [self train_losses set_train_losses].
  rewrite length_app. cbn [length].
  destruct Hupd as (_ & _ & Hfr).
  apply (f_equal train_losses) in Hfr. cbn in Hfr. rewrite Hfr. lia.
Qed.

End Totality.

(** ** The network without hidden layers *)

Section LogisticLemmas.
Context {Sc : Scalar}.

Lemma bitem_col0 {T} (A : ndarray T) n k :
  nrows A = n -> ncols A = 1 -> k < n -> bitem A k 0 = item A k 0.
Proof.
  intros Hr Hc Hk. apply bitem_in_range; lia.
Qed.

End LogisticLemmas.

(** ** Runs that return *)

Section Runs.
Context {Sc : Scalar}.

Lemma rfor_ext {St} (f g : nat -> St -> result St) l :
  (forall i s, f i s = g i s) -> forall s, rfor l f s = rfor l g s.
Proof.
  intros H. induction l as [|i l IH]; intros s; [reflexivity|].
  cbn [rfor]. rewrite H. destruct (g i s); cbn [rbind]; auto.
Qed.

(** [backward] reads nothing of the object but its weights and its
    activation derivatives. *)
Lemma backward_reads_weights_and_derivatives m m' acts y masks :
  weights m = weights m' ->
  activation_derivatives m = activation_derivatives m' ->
  backward m acts y masks = backward m' acts y masks.
Proof.
  intros Hw Hd. unfold backward, output_delta. rewrite Hw, Hd.
  destruct (getlast acts) as [a|e]; [|reflexivity]. cbn [rbind].
  destruct (binary_cross_entropyDerivative y a) as [d|e]; [|reflexivity].
  cbn [rbind].
  destruct (getlast (activation_derivatives m')) as [deriv|e]; [|reflexivity].
  cbn [rbind].
  destruct (mul_arrays d (deriv a)) as [delta|e]; [|reflexivity].
  cbn [rbind].
  rewrite (@rfor_ext _ (backward_layer m acts masks)
                     (backward_layer m' acts masks)); [reflexivity|].
  intros i [[dl gw] gb]. unfold backward_layer. rewrite Hw, Hd. reflexivity.
Qed.

(** Lengths of what [forward] returns, and its first and last entry. *)
Lemma forward_lengths X training w w' acts masks :
  initialized (self w) ->
  forward X training w = (w', Ok (acts, masks)) ->
  length masks = S (length (hidden_layers (self w))) /\
  length acts = S (S (length (hidden_layers (self w)))) /\
  nth_error acts 0 = Some X /\
  exists A_prev out mask,
    getlast acts = Ok out /\
    nth_error acts (S (length (hidden_layers (self w)))) = Some out /\
    nth_error masks (length (hidden_layers (self w))) = Some mask /\
    layer_step (self w) training (length (hidden_layers (self w)))
               A_prev out mask.
Proof.
  intros Hinit H.
  apply forward_trace in H.
  destruct H as (_ & _ & Hla & Hlm & H0 & Hlayers).
  rewrite (initialized_length_weights Hinit) in *.
  split; [exact Hlm|]. split; [exact Hla|]. split; [exact H0|].
  destruct (Hlayers (length (hidden_layers (self w))) ltac:(lia))
    as (Ap & An & mk & Hp & Hn & Hm & Hstep).
  exists Ap, An, mk.
  rewrite (getlast_nth _ Hla). unfold getitem. rewrite Hn. auto.
Qed.

(** A mask is recorded for layer [i] exactly under the guard. *)
Lemma mask_recorded_iff X w w' acts masks i :
  forward X true w = (w', Ok (acts, masks)) ->
  i < length (weights (self w)) ->
  ((exists mask, nth_error masks i = Some (Some mask)) <->
   (i < length (dropout_rates (self w)) /\
    exists r, nth_error (dropout_rates (self w)) i = Some r /\
              fgt r zero = true)).
Proof.
  intros Hf Hi. rewrite <- dropout_applies_iff.
  apply forward_trace in Hf.
  destruct Hf as (_ & _ & _ & _ & _ & Hlayers).
  destruct (Hlayers i Hi) as (Ap & An & mk & _ & _ & Hm & Hstep).
  apply layer_step_cases in Hstep. destruct Hstep as (A & _ & Hcase).
  rewrite Hm.
  destruct (dropout_applies (self w) true i).
  - destruct Hcase as (rate & g0 & _ & _ & -> & _).
    split; [reflexivity | eauto].
  - destruct Hcase as [-> _].
    split; [intros (mask & Hmask); discriminate | discriminate].
Qed.

(** Layer [i] of a forward pass that returned, by cases on the guard. *)
Lemma forward_layer_of_run X training w w' acts masks i :
  forward X training w = (w', Ok (acts, masks)) ->
  i < length (weights (self w)) ->
  exists A_prev A A_next mk,
    nth_error acts i = Some A_prev /\
    activate (self w) i A_prev = Ok A /\
    nth_error acts (S i) = Some A_next /\
    nth_error masks i = Some mk /\
    if dropout_applies (self w) training i
    then
      exists rate u mask,
        nth_error (dropout_rates (self w)) i = Some rate /\
        fgt rate zero = true /\
        (exists g0, u = fst (rand (nrows A) (ncols A) g0)) /\
        mk = Some mask /\
        shape mask = shape A /\
        (forall r c, item mask r c
                     = if fgt (item u r c) rate then one else zero) /\
        shape A_next = shape A /\
        forall r c, r < nrows A -> c < ncols A ->
          item A_next r c
          = fdiv (fmul (item A r c) (item mask r c)) (fsub one rate)
    else mk = None /\ A_next = A.
Proof.
  intros Hf Hi.
  apply forward_trace in Hf.
  destruct Hf as (_ & _ & _ & _ & _ & Hlayers).
  destruct (Hlayers i Hi) as (Ap & An & mk & Hp & Hn & Hm & Hstep).
  apply layer_step_cases in Hstep. destruct Hstep as (A & Hact & Hcase).
  exists Ap, A, An, mk.
  repeat (split; [assumption|]).
  destruct (dropout_applies (self w) training i).
  - destruct Hcase as (rate & g0 & Hr & Hgt & -> & Hs & Hit).
    exists rate, (fst (rand (nrows A) (ncols A) g0)),
      (gt_as_float (fst (rand (nrows A) (ncols A) g0)) rate).
    split; [exact Hr|]. split; [exact Hgt|].
    split; [exists g0; reflexivity|].
    split; [reflexivity|]. split; [reflexivity|].
    split; [intros r c; reflexivity|].
    split; [exact Hs | exact Hit].
  - exact Hcase.
Qed.

(** An iteration of the loop of [backward] at [i > 0], on the cache and
    the masks of a forward pass that returned. *)
Lemma backward_layer_of_run X w w' acts masks i delta delta' gw gb gw' gb' :
  forward X true w = (w', Ok (acts, masks)) ->
  0 < i -> i < length (weights (self w)) ->
  backward_layer (self w) acts masks i (delta, gw, gb)
  = Ok (delta', gw', gb') ->
  exists a W deriv back pre,
    nth_error acts i = Some a /\
    nth_error (weights (self w)) i = Some W /\
    nth_error (activation_derivatives (self w)) (i - 1) = Some deriv /\
    dot delta (transpose W) = Ok back /\
    mul_arrays back (deriv a) = Ok pre /\
    match nth_error masks (i - 1) with
    | Some (Some mask) =>
        dropout_applies (self w) true (i - 1) = true /\
        (forall r c, item mask r c = zero \/ item mask r c = one) /\
        (exists A_prev A rate,
            nth_error acts (i - 1) = Some A_prev /\
            activate (self w) (i - 1) A_prev = Ok A /\
            nth_error (dropout_rates (self w)) (i - 1) = Some rate /\
            shape mask = shape A /\
            forall r c, r < nrows A -> c < ncols A ->
              item a r c
              = fdiv (fmul (item A r c) (item mask r c)) (fsub one rate)) /\
        shape delta' = shape pre /\
        (forall r c,
            item delta' r c = fmul (item pre r c) (bitem mask r c)) /\
        (forall r c, bitem mask r c = zero ->
                     item delta' r c = fmul (item pre r c) zero)
    | Some None =>
        dropout_applies (self w) true (i - 1) = false /\ delta' = pre
    | None => False
    end.
Proof.
  intros Hf Hpos Hi Hb.
  apply backward_layer_propagates in Hb; [|exact Hpos].
  destruct Hb as (a & W & deriv & back & pre & mk &
                  Ha & HW & Hd & Hback & Hpre & Hmk & Hcase).
  exists a, W, deriv, back, pre.
  repeat (split; [assumption|]).
  apply forward_trace in Hf.
  destruct Hf as (_ & _ & _ & _ & _ & Hlayers).
  destruct (Hlayers (i - 1) ltac:(lia))
    as (Ap & An & mk' & Hp & Hn & Hm & Hstep).
  replace (S (i - 1)) with i in Hn by lia.
  rewrite Ha in Hn. inversion Hn; subst An.
  rewrite Hmk in Hm. inversion Hm; subst mk'.
  rewrite Hmk.
  apply layer_step_cases in Hstep. destruct Hstep as (A & Hact & Hstep).
  destruct (dropout_applies (self w) true (i - 1)).
  - destruct Hstep as (rate & g0 & Hr & Hgt & -> & Hs & Hit).
    destruct Hcase as [Hshape Hitem].
    split; [reflexivity|].
    split.
    { intros r c. cbn.
      destruct (fgt _ rate); auto. }
    split.
    { exists Ap, A, rate. repeat (split; [assumption|]).
      split; [reflexivity | exact Hit]. }
    split; [exact Hshape|]. split; [exact Hitem|].
    intros r c E. rewrite Hitem, E. reflexivity.
  - destruct Hstep as [-> _]. split; [reflexivity | exact Hcase].
Qed.

(** An iteration of the loop of [backward], read off its result. *)
Lemma backward_layer_steps m acts masks i delta gw gb delta' gw' gb' :
  backward_layer m acts masks i (delta, gw, gb) = Ok (delta', gw', gb') ->
  exists a g,
    nth_error acts i = Some a /\
    dot (transpose a) delta = Ok g /\
    gw' = g :: gw /\
    gb' = sum_axis0_keepdims delta :: gb /\
    if 0 <? i
    then
      exists W deriv back pre mk,
        nth_error (weights m) i = Some W /\
        nth_error (activation_derivatives m) (i - 1) = Some deriv /\
        dot delta (transpose W) = Ok back /\
        mul_arrays back (deriv a) = Ok pre /\
        nth_error masks (i - 1) = Some mk /\
        match mk with
        | Some mask => inplace2 fmul pre mask = Ok delta'
        | None => delta' = pre
        end
    else delta' = delta.
Proof.
  intros H. unfold backward_layer in H.
  apply rbind_ok in H. destruct H as (a & Ha & H).
  apply rbind_ok in H. destruct H as (g & Hg & H).
  pose proof Ha as Ha'. apply getitem_ok in Ha'.
  exists a, g. split; [exact Ha'|]. split; [exact Hg|].
  destruct (0 <? i).
  - apply rbind_ok in H. destruct H as (W & HW & H).
    apply rbind_ok in H. destruct H as (back & Hback & H).
    apply rbind_ok in H. destruct H as (deriv & Hderiv & H).
    apply rbind_ok in H. destruct H as (a2 & Ha2 & H).
    apply rbind_ok in H. destruct H as (pre & Hpre & H).
    apply rbind_ok in H. destruct H as (mk & Hmk & H).
    rewrite Ha in Ha2. inversion Ha2; subst a2.
    apply getitem_ok in HW, Hderiv, Hmk.
    destruct mk as [mask|].
    + apply rbind_ok in H. destruct H as (d & Hd & H).
      inversion H; subst.
      split; [reflexivity|]. split; [reflexivity|].
      exists W, deriv, back. eexists. exists (Some mask).
      repeat (split; [eassumption|]). eassumption.
    + inversion H; subst.
      split; [reflexivity|]. split; [reflexivity|].
      exists W, deriv, back. eexists. exists None.
      repeat (split; [eassumption|]). reflexivity.
  - inversion H; subst. auto.
Qed.

Lemma nth_error_snoc_last {A} (l : list A) a :
  nth_error (l ++ [a]) (length l) = Some a.
Proof. rewrite nth_error_app2, Nat.sub_diag by lia. reflexivity. Qed.

(** The loop of [backward] from layer [k - 1] down to layer 0: what it
    prepends to the two gradient lists, and the error signals it went
    through. *)
Lemma backward_loop_gradients m acts masks :
  forall k delta gw gb delta' gw' gb',
    rfor (rev (seq 0 k)) (backward_layer m acts masks) (delta, gw, gb)
    = Ok (delta', gw', gb') ->
    exists deltas gws gbs,
      gw' = gws ++ gw /\ gb' = gbs ++ gb /\
      length deltas = k /\ length gws = k /\ length gbs = k /\
      (0 < k -> nth_error deltas (k - 1) = Some delta) /\
      (forall i d, nth_error deltas i = Some d ->
         exists a g,
           nth_error acts i = Some a /\
           dot (transpose a) d = Ok g /\
           nth_error gws i = Some g /\
           nth_error gbs i = Some (sum_axis0_keepdims d)) /\
      (forall i, 0 < i < k ->
         exists d W deriv a back pre mk d',
           nth_error deltas i = Some d /\
           nth_error (weights m) i = Some W /\
           nth_error (activation_derivatives m) (i - 1) = Some deriv /\
           nth_error acts i = Some a /\
           dot d (transpose W) = Ok back /\
           mul_arrays back (deriv a) = Ok pre /\
           nth_error masks (i - 1) = Some mk /\
           nth_error deltas (i - 1) = Some d' /\
           match mk with
           | Some mask => inplace2 fmul pre mask = Ok d'
           | None => d' = pre
           end).
Proof.
  induction k as [|k IH]; intros delta gw gb delta' gw' gb' H.
  - cbn in H. inversion H; subst.
    exists [], [], []. repeat (split; [reflexivity|]).
    split; [lia|]. split.
    + intros [|i] d Hd; discriminate.
    + intros i Hi. lia.
  - rewrite rev_seq_S in H. cbn [rfor] in H.
    apply rbind_ok in H. destruct H as ([[d1 gw1] gb1] & Hstep & H).
    apply backward_layer_steps in Hstep.
    destruct Hstep as (a & g & Ha & Hg & -> & -> & Hprop).
    apply IH in H.
    destruct H as (ds & gws & gbs & -> & -> & Hl1 & Hl2 & Hl3 &
                   Htop & Hgrad & Hrec).
    exists (ds ++ [delta]), (gws ++ [g]),
      (gbs ++ [sum_axis0_keepdims delta]).
    rewrite <- !app_assoc. cbn [app].
    split; [reflexivity|]. split; [reflexivity|].
    rewrite !length_app. cbn [length].
    split; [lia|]. split; [lia|]. split; [lia|].
    split.
    { intros _. replace (S k - 1) with (length ds) by lia.
      apply nth_error_snoc_last. }
    split.
    { intros i d Hd.
      destruct (Nat.lt_ge_cases i k) as [Hi|Hi].
      - rewrite nth_error_app1 in Hd by lia.
        destruct (Hgrad i d Hd) as (a0 & g0 & A1 & A2 & A3 & A4).
        exists a0, g0. split; [exact A1|]. split; [exact A2|].
        rewrite !nth_error_app1 by lia. auto.
      - assert (Hik : i = k).
        { assert (i < length (ds ++ [delta]))
            by (apply nth_error_Some; congruence).
          rewrite length_app in H. cbn [length] in H. lia. }
        subst i. rewrite <- Hl1 in Hd at 1.
        rewrite nth_error_snoc_last in Hd. inversion Hd; subst d.
        exists a, g. split; [exact Ha|]. split; [exact Hg|].
        split.
        + rewrite <- Hl2 at 1. apply nth_error_snoc_last.
        + rewrite <- Hl3 at 1. apply nth_error_snoc_last. }
    intros i Hi.
    destruct (Nat.lt_ge_cases i k) as [Hik|Hik].
    + destruct (Hrec i ltac:(lia))
        as (d & W & deriv & a0 & back & pre & mk & d' &
            A1 & A2 & A3 & A4 & A5 & A6 & A7 & A8 & A9).
      exists d, W, deriv, a0, back, pre, mk, d'.
      rewrite !nth_error_app1 by lia. auto 10.
    + assert (i = k) by lia. subst i.
      assert (E : (0 <? k) = true) by (apply Nat.ltb_lt; lia).
      rewrite E in Hprop.
      destruct Hprop as (W & deriv & back & pre & mk &
                         B1 & B2 & B3 & B4 & B5 & B6).
      exists delta, W, deriv, a, back, pre, mk, d1.
      split.
      { rewrite <- Hl1 at 1. apply nth_error_snoc_last. }
      rewrite nth_error_app1 by lia.
      specialize (Htop ltac:(lia)). auto 10.
Qed.

(** [backward], read off its result: the gradients are those of the
    error signals of the pass.  Neither the weights of a layer's own
    transition nor [l2_lambda] enter the gradients of that layer. *)
Lemma backward_gradients m acts y masks grads_w grads_b :
  0 < length (weights m) ->
  backward m acts y masks = Ok (grads_w, grads_b) ->
  exists deltas,
    error_signals m acts y masks deltas /\
    gradients_of acts deltas grads_w grads_b.
Proof.
  intros Hpos H. unfold backward in H.
  apply rbind_ok in H. destruct H as (delta & Hdelta & H).
  apply rbind_ok in H. destruct H as ([[d' gw] gb] & Hloop & H).
  inversion H; subst gw gb. unfold range in Hloop.
  apply backward_loop_gradients in Hloop.
  destruct Hloop as (ds & gws & gbs & -> & -> & Hl1 & Hl2 & Hl3 &
                     Htop & Hgrad & Hrec).
  rewrite !app_nil_r.
  exists ds. split.
  - split; [exact Hl1|]. split; [|exact Hrec].
    unfold output_delta in Hdelta.
    apply rbind_ok in Hdelta. destruct Hdelta as (pred & Hp & Hdelta).
    apply rbind_ok in Hdelta. destruct Hdelta as (d & Hd & Hdelta).
    apply rbind_ok in Hdelta. destruct Hdelta as (deriv & Hderiv & Hdelta).
    apply rbind_ok in Hdelta. destruct Hdelta as (pred2 & Hp2 & Hdelta).
    rewrite Hp in Hp2. inversion Hp2; subst pred2.
    exists pred, deriv, d, delta.
    repeat (split; [assumption|]).
    rewrite (@getlast_nth _ ds (length (weights m) - 1)) by lia.
    unfold getitem. rewrite (Htop Hpos). reflexivity.
  - split; [congruence|]. split; [congruence|]. exact Hgrad.
Qed.

(** The reporting block never touches the object; it raises exactly
    when it has to print a validation loss that was never assigned. *)
Lemma report_outcome X_val y pred epoch val_loss w :
  shape y = shape pred ->
  exists w' r,
    report X_val y pred epoch val_loss w = (w', r) /\
    self w' = self w /\
    (X_val = None \/ val_loss <> None -> r = Ok tt) /\
    (r = Ok tt \/
     r = Err (UnboundLocalError "val_loss") /\
     X_val <> None /\ val_loss = None /\ epoch mod 100 = 0).
Proof.
  intros Hs. unfold report.
  destruct (epoch mod 100 =? 0) eqn:E.
  - apply Nat.eqb_eq in E.
    destruct (@total_loss_succeeds _ y pred lit_0_001 w Hs) as [l Hl].
    unfold bind at 1. rewrite Hl.
    unfold bind, print.
    destruct X_val as [Xv|].
    + destruct val_loss as [v|].
      * eexists. eexists. split; [reflexivity|]. cbn [self]. auto.
      * unfold raise. eexists. eexists. split; [reflexivity|].
        cbn [self]. split; [reflexivity|]. split.
        { intros [H|H]; [discriminate | congruence]. }
        right. split; [reflexivity|]. split; [discriminate|]. auto.
    + unfold ret. eexists. eexists. split; [reflexivity|].
      cbn [self]. auto.
  - unfold ret. eexists. eexists. split; [reflexivity|]. auto.
Qed.

(** An epoch on a well-shaped batch, whatever is passed for validation:
    the learning steps return and the train loss is appended; the
    validation loss is appended when both [X_val] and [y_val] are given;
    the reporting block then returns, unless [X_val] came without
    [y_val]. *)
Lemma train_epoch_outcome X y X_val y_val epoch val_loss w :
  initialized (self w) ->
  well_shaped (self w) X y ->
  validation_well_shaped (self w) X_val y_val ->
  exists w1 acts masks grads_w grads_b w2 pred loss w' r,
    forward X true w = (w1, Ok (acts, masks)) /\
    self w1 = self w /\
    backward (self w1) acts y masks = Ok (grads_w, grads_b) /\
    update_weights grads_w grads_b w1 = (w2, Ok tt) /\
    getlast acts = Ok pred /\
    binary_cross_entropy y pred = Ok loss /\
    train_epoch X y X_val y_val epoch val_loss w = (w', r) /\
    weights (self w') = weights (self w2) /\
    trained (self w) (self w') /\
    train_losses (self w')
    = train_losses (self w)
      ++ [fadd loss (l2_penalty (weights (self w')) (l2_lambda (self w')))] /\
    match X_val, y_val with
    | Some Xv, Some yv =>
        (exists v, r = Ok (Some v)) /\
        exists w3 vacts vmasks vpred vloss,
          forward Xv false w3 = (w3, Ok (vacts, vmasks)) /\
          weights (self w3) = weights (self w') /\
          getlast vacts = Ok vpred /\
          binary_cross_entropy yv vpred = Ok vloss /\
          val_losses (self w')
          = val_losses (self w)
            ++ [fadd vloss
                  (l2_penalty (weights (self w')) (l2_lambda (self w')))]
    | Some _, None =>
        val_losses (self w') = val_losses (self w) /\
        (r = Ok val_loss \/
         r = Err (UnboundLocalError "val_loss") /\
         val_loss = None /\ epoch mod 100 = 0)
    | None, _ =>
        r = Ok val_loss /\ val_losses (self w') = val_losses (self w)
    end.
Proof.
  intros Hinit Hxy Hval.
  destruct (@learning_steps_succeed _ X y w Hinit Hxy)
    as (w1 & acts & masks & gw & gb & w2 & pred & loss &
        Hf & Hb & Hu & Hp & Hl & Hshape & Hupd).
  pose proof (forward_trace _ _ _ Hf) as (Hs1 & _).
  exists w1, acts, masks, gw, gb, w2, pred, loss.
  rewrite (@train_epoch_run _ X y X_val y_val epoch val_loss w
             _ _ _ _ _ _ _ _ Hf Hb Hu Hp Hl).
  set (w3 := mk_World _ _ _).
  assert (Hs3 : self w3
                = set_train_losses
                    (train_losses (self w2)
                     ++ [fadd loss (l2_penalty (weights (self w2))
                                               (l2_lambda (self w2)))])
                    (self w2)) by reflexivity.
  assert (Htl2 : train_losses (self w2) = train_losses (self w)).
  { destruct Hupd as (_ & _ & Hfr).
    apply (f_equal train_losses) in Hfr. exact Hfr. }
  assert (Hvl2 : val_losses (self w2) = val_losses (self w)).
  { destruct Hupd as (_ & _ & Hfr).
    apply (f_equal val_losses) in Hfr. exact Hfr. }
  assert (Ht3 : trained (self w) (self w3)).
  { eapply trained_trans; [apply updated_trained; exact Hupd|].
    rewrite Hs3. unfold trained. cbn. apply updated_refl. }
  assert (Hinit3 : initialized (self w3))
    by (eapply trained_initialized; eauto).
  assert (Hval3 : validation_well_shaped (self w3) X_val y_val).
  { unfold validation_well_shaped, well_shaped in *.
    rewrite (@trained_input_size _ _ _ Ht3). exact Hval. }
  destruct (@validate_succeeds _ X_val y_val val_loss w3 Hinit3 Hval3)
    as (w4 & v & Hv & Hsome & Hnone).
  pose proof (validate_ok _ _ _ _ Hv) as (_ & _ & Hvok).
  destruct (@report_outcome X_val y pred epoch v w4 Hshape)
    as (w5 & r5 & Hr & Hs5 & Hrok & Hrcase).
  exists w5, (match r5 with Ok _ => Ok v | Err e => Err e end).
  split; [exact Hf|]. split; [exact Hs1|]. split; [exact Hb|].
  split; [exact Hu|]. split; [exact Hp|]. split; [exact Hl|].
  split.
  { unfold bind at 1. rewrite Hv. unfold bind at 1. rewrite Hr.
    destruct r5; reflexivity. }
  rewrite Hs5.
  destruct X_val as [Xv|]; [destruct y_val as [yv|]|].
  - destruct Hvok as (vacts & vmasks & vpred & vloss & Hvf & Hvp & Hvb & Hs4).
    rewrite Hs4.
    cbn [weights l2_lambda train_losses val_losses set_val_losses].
    rewrite Hs3.
    cbn [weights l2_lambda train_losses val_losses set_train_losses].
    rewrite Htl2, Hvl2.
    split; [reflexivity|].
    split.
    { eapply trained_trans; [apply updated_trained; exact Hupd|].
      unfold trained. cbn. apply updated_refl. }
    split; [reflexivity|].
    split.
    { rewrite Hrok.
      - destruct v as [v|]; [eauto|].
        exfalso. apply Hsome; [discriminate | discriminate | reflexivity].
      - right. apply Hsome; discriminate. }
    exists w3, vacts, vmasks, vpred, vloss.
    split; [exact Hvf|]. split; [rewrite Hs3; reflexivity|].
    split; [exact Hvp|]. split; [exact Hvb|]. reflexivity.
  - subst w4. destruct (Hnone (or_intror eq_refl)) as [-> _].
    split; [rewrite Hs3; reflexivity|]. split; [exact Ht3|].
    rewrite Hs3.
    cbn [weights l2_lambda train_losses val_losses set_train_losses].
    rewrite Htl2, Hvl2. split; [reflexivity|]. split; [reflexivity|].
    destruct Hrcase as [-> | (-> & _ & Hn & He)]; [left; reflexivity|].
    right. auto.
  - subst w4. destruct (Hnone (or_introl eq_refl)) as [-> _].
    split; [rewrite Hs3; reflexivity|]. split; [exact Ht3|].
    rewrite Hs3.
    cbn [weights l2_lambda train_losses val_losses set_train_losses].
    rewrite Htl2, Hvl2. split; [reflexivity|].
    rewrite Hrok by (left; reflexivity). split; reflexivity.
Qed.

End Runs.

(** ** The specified properties *)

Section Properties.
Context {Sc : Scalar}.

(** C8.  Construction raises exactly when the number of activation names
    is not the number of hidden layers plus one, or when some name is not
    a key of the registry; otherwise it returns an initialized object.
    The count is checked first and raises [ValueError]; an unregistered
    name raises [KeyError] carrying that name, the first unregistered one
    of the list.  "sigmoid" and "relu" are registered. *)
Theorem construction_fails_exactly_on_bad_configuration
        (isz : nat) (hidden : list nat) (names : list string)
        (rates : option (list F)) (lr : F) (n_epochs : nat) (l2 : F)
        (g : RandomState) :
  (is_ok (snd (new_MLPBinaryClassifier isz hidden names rates lr
                 n_epochs l2 g)) = false
   <-> (length names <> length hidden + 1
        \/ exists nm, In nm names /\ registered nm = false)) /\
  (length names <> length hidden + 1 ->
   snd (new_MLPBinaryClassifier isz hidden names rates lr n_epochs l2 g)
   = Err (ValueError "# activation functions != # layers")) /\
  (length names = length hidden + 1 ->
   (exists nm, In nm names /\ registered nm = false) ->
   exists bad,
     snd (new_MLPBinaryClassifier isz hidden names rates lr n_epochs l2 g)
     = Err (KeyError bad) /\
     In bad names /\ registered bad = false /\
     find (fun nm => negb (registered nm)) names = Some bad) /\
  (length names = length hidden + 1 ->
   (forall nm, In nm names -> registered nm = true) ->
   exists m,
     snd (new_MLPBinaryClassifier isz hidden names rates lr n_epochs l2 g)
     = Ok m /\ initialized m) /\
  registered "sigmoid" = true /\ registered "relu" = true.
Proof.
  pose proof (new_MLPBinaryClassifier_spec isz hidden names rates lr
                n_epochs l2 g) as H.
  cbv zeta in H.
  set (r := snd (new_MLPBinaryClassifier isz hidden names rates lr
                   n_epochs l2 g)) in *.
  destruct (length names =? S (length hidden)) eqn:E; cbn [negb] in H.
  - apply Nat.eqb_eq in E.
    destruct (find (fun nm => negb (registered nm)) names) as [bad|] eqn:Ef.
    + pose proof (find_some _ _ Ef) as [Hin Hbad].
      apply negb_true_iff in Hbad.
      repeat split.
      * intros _. right. eauto.
      * intros _. rewrite H. reflexivity.
      * intros Hne. lia.
      * intros _ _. exists bad. auto.
      * intros _ Hall. rewrite (Hall bad Hin) in Hbad. discriminate.
    + destruct H as (m & Hm & Hinit & _).
      repeat split.
      * rewrite Hm. discriminate.
      * intros [Hne | (nm & Hin & Hnm)]; [lia|].
        pose proof (find_none _ _ Ef nm Hin) as Hf.
        cbv beta in Hf. rewrite Hnm in Hf. discriminate.
      * intros Hne. lia.
      * intros _ (nm & Hin & Hnm).
        pose proof (find_none _ _ Ef nm Hin) as Hf.
        cbv beta in Hf. rewrite Hnm in Hf. discriminate.
      * intros _ _. exists m. auto.
  - apply Nat.eqb_neq in E.
    repeat split.
    + intros _. left. lia.
    + intros _. rewrite H. reflexivity.
    + intros _. exact H.
    + intros Heq. lia.
    + intros Heq. lia.
Qed.

(** C9.  For the same weights, biases, activation functions and input,
    the object whose [dropout_rates] argument was a list of zeros (of any
    length [k]) and the object built without that argument return the
    same activation cache and masks from [forward], in training and in
    inference mode, and neither consumes a random draw. *)
Theorem zero_dropout_same_as_no_dropout
        (m : MLPBinaryClassifier) (k : nat) (X : array) (training : bool)
        (g : RandomState) (out : list line) :
  snd (forward X training
         (mk_World
            (set_dropout_rates
               (dropout_rates_or_default (Some (repeat zero k))
                  (hidden_layers m)) m) g out))
  = snd (forward X training
           (mk_World
              (set_dropout_rates
                 (dropout_rates_or_default None (hidden_layers m)) m)
              g out)) /\
  np_random
    (fst (forward X training
            (mk_World
               (set_dropout_rates
                  (dropout_rates_or_default (Some (repeat zero k))
                     (hidden_layers m)) m) g out))) = g /\
  np_random
    (fst (forward X training
            (mk_World
               (set_dropout_rates
                  (dropout_rates_or_default None (hidden_layers m)) m)
               g out))) = g.
Proof.
  set (w1 := mk_World (set_dropout_rates
               (dropout_rates_or_default (Some (repeat zero k))
                  (hidden_layers m)) m) g out).
  set (w2 := mk_World (set_dropout_rates
               (dropout_rates_or_default None (hidden_layers m)) m) g out).
  assert (Hz : forall n, Forall (fun r : F => r = zero) (repeat zero n)).
  { intros n. apply Forall_forall. intros r Hr.
    apply repeat_spec in Hr. exact Hr. }
  assert (Hz1 : Forall (fun r => r = zero) (dropout_rates (self w1))).
  { subst w1. cbn [self dropout_rates set_dropout_rates].
    unfold dropout_rates_or_default.
    destruct k as [|k]; cbn [repeat]; [apply Hz|].
    apply (Hz (S k)). }
  assert (Hz2 : Forall (fun r => r = zero) (dropout_rates (self w2)))
    by apply Hz.
  pose proof (forward_loop_zero_rates training
                (range (length (weights m))) (X, [X], []) w1 w2
                Hz1 Hz2 eq_refl eq_refl eq_refl) as (H1 & H2 & H3).
  unfold forward, bind, get_self.
  change (weights (self w1)) with (weights m).
  change (weights (self w2)) with (weights m).
  destruct (for_each _ _ _ w1) as [w1' [[[A1 acts1] masks1]|e1]];
    destruct (for_each _ _ _ w2) as [w2' [[[A2 acts2] masks2]|e2]];
    cbn [fst snd] in *; subst w1' w2'; try discriminate;
    inversion H3; subst; auto.
Qed.

(** C5, as the code has it.  On a batch with [input_size] columns
    [forward] returns, in either mode, a mask list with one entry per
    layer transition, that is one per hidden layer and one more for the
    output layer, and an activation cache with one entry more than that:
    the input at index 0 and the output of the last layer last. *)
Theorem forward_returns_one_mask_per_layer
        (X : array) (training : bool) (w : World) :
  initialized (self w) ->
  ncols X = input_size (self w) ->
  exists w' acts masks,
    forward X training w = (w', Ok (acts, masks)) /\
    length masks = S (length (hidden_layers (self w))) /\
    length acts = S (S (length (hidden_layers (self w)))) /\
    nth_error acts 0 = Some X /\
    exists A_prev out mask,
      getlast acts = Ok out /\
      nth_error acts (S (length (hidden_layers (self w)))) = Some out /\
      nth_error masks (length (hidden_layers (self w))) = Some mask /\
      layer_step (self w) training (length (hidden_layers (self w)))
                 A_prev out mask.
Proof.
  intros Hinit HX.
  destruct (@forward_succeeds _ X training w Hinit HX)
    as (w' & acts & masks & Hf).
  exists w', acts, masks. split; [exact Hf|].
  exact (forward_lengths _ _ _ Hinit Hf).
Qed.

(** C7.  On a batch with [input_size] columns [predict] returns; it runs
    [forward] in inference mode (no random draw, no change of state) and
    compares the final activation with 0.5: an entry above 0.5 gets label
    1 and any other entry label 0.  So the labels are 0 or 1, one per
    input row in a single column, and an activation of exactly 0.5
    always gets label 0. *)
Theorem predict_thresholds_final_activation (X : array) (w : World) :
  initialized (self w) ->
  ncols X = input_size (self w) ->
  exists labels acts masks out,
    predict X w = (w, Ok labels) /\
    forward X false w = (w, Ok (acts, masks)) /\
    getlast acts = Ok out /\
    labels = gt_as_int out lit_0_5 /\
    (forall r c, fgt (item out r c) lit_0_5 = true ->
                 item labels r c = 1%Z) /\
    (forall r c, fgt (item out r c) lit_0_5 = false ->
                 item labels r c = 0%Z) /\
    (forall r c, item out r c = lit_0_5 -> item labels r c = 0%Z) /\
    nrows labels = nrows X /\
    ncols labels = 1 /\
    forall r c, item labels r c = 0%Z \/ item labels r c = 1%Z.
Proof.
  intros Hinit HX.
  destruct (@forward_succeeds _ X false w Hinit HX)
    as (w1 & acts & masks & Hf).
  assert (w1 = w)
    by (pose proof (forward_inference_world X w) as Hw;
        rewrite Hf in Hw; exact Hw).
  subst w1.
  destruct (@forward_final_shape _ _ _ _ _ _ _ Hinit HX Hf)
    as (out & Hout & Hs).
  unfold shape in Hs. apply pair_equal_spec in Hs. destruct Hs as [Hr Hc].
  exists (gt_as_int out lit_0_5), acts, masks, out.
  split.
  { unfold predict, bind, lift, ret. rewrite Hf, Hout. reflexivity. }
  split; [exact Hf|]. split; [exact Hout|]. split; [reflexivity|].
  split.
  { intros r c E. cbn. rewrite E. reflexivity. }
  split.
  { intros r c E. cbn. rewrite E. reflexivity. }
  split.
  { intros r c E. cbn. rewrite E, fgt_irrefl. reflexivity. }
  split; [exact Hr|]. split; [exact Hc|].
  intros r c. cbn. destruct (fgt (item out r c) lit_0_5); auto.
Qed.

(** C6.  A call of [train] on well-shaped data.  With [X_val] and
    [y_val] given together or not at all (as the comment on [train]
    asks) it returns after [epochs] epochs, each meeting [epoch_spec]:
    one train loss appended, the binary cross-entropy of the labels
    against the final activation of that epoch's training-mode forward
    pass plus the penalty of the updated weights; one validation loss
    appended, from an inference-mode forward pass, exactly when
    validation data is given.  With [X_val] but without [y_val] it does
    not return: the validation block is skipped, the reporting block of
    the first epoch reads [val_loss] unassigned, and the call raises
    after a single train loss.  Without epochs it returns at once. *)
Theorem train_appends_one_loss_per_epoch
        (X y : array) (X_val y_val : option array) (w : World) :
  initialized (self w) ->
  well_shaped (self w) X y ->
  validation_well_shaped (self w) X_val y_val ->
  (X_val = None \/ y_val <> None ->
   exists w',
     train X y X_val y_val w = (w', Ok tt) /\
     epochs_spec X y X_val y_val (epochs (self w)) w w' /\
     length (train_losses (self w'))
     = length (train_losses (self w)) + epochs (self w) /\
     length (val_losses (self w'))
     = length (val_losses (self w))
       + match X_val, y_val with
         | Some _, Some _ => epochs (self w)
         | _, _ => 0
         end) /\
  (X_val <> None -> y_val = None -> 0 < epochs (self w) ->
   exists w',
     train X y X_val y_val w = (w', Err (UnboundLocalError "val_loss")) /\
     length (train_losses (self w')) = length (train_losses (self w)) + 1) /\
  (epochs (self w) = 0 -> train X y X_val y_val w = (w, Ok tt)).
Proof.
  intros Hinit Hxy Hval. split; [|split].
  - intros Hboth.
    destruct (@train_succeeds _ X y X_val y_val w Hinit Hxy Hval Hboth)
      as (w' & H).
    exists w'. split; [exact H|].
    apply train_ok in H. split; [exact H|].
    apply epochs_spec_counts in H. tauto.
  - intros HX Hy Hpos. subst y_val.
    destruct X_val as [Xv|]; [|congruence].
    destruct (@train_raises_without_y_val _ X y Xv w Hinit Hxy Hpos)
      as (w' & H & Hlen).
    exists w'. split; [exact H|]. rewrite Hlen. lia.
  - intros E. unfold train, bind, get_self. rewrite E. reflexivity.
Qed.

(** C1.  [backward] reads the weights and the activation derivatives and
    nothing else of the object, so it returns the same gradients whatever
    [l2_lambda] is.  In an epoch on a well-shaped batch the gradients are
    those of the error signals of the pass ([error_signals],
    [gradients_of]): the derivative of the binary cross-entropy at the
    final activation times the derivative of the output activation,
    propagated down through the weights, the activation derivatives and
    the masks; the gradient of a layer is the product of its transposed
    input with its signal, and the column sums of the signal, with no
    term of the penalty.  The losses the epoch appends do carry it: the
    train loss, and the validation loss when [X_val] and [y_val] are both
    given, are the binary cross-entropy plus [l2_penalty] of the updated
    weights at [l2_lambda].  The train loss is appended whatever is
    passed for validation; the epoch itself returns unless [X_val] came
    without [y_val]. *)
Theorem gradients_ignore_l2_but_losses_include_it
        (lam : F) (X y : array) (X_val y_val : option array)
        (epoch : nat) (val_loss : option F) (w : World) :
  initialized (self w) ->
  well_shaped (self w) X y ->
  validation_well_shaped (self w) X_val y_val ->
  (forall m m' acts yl masks,
      weights m = weights m' ->
      activation_derivatives m = activation_derivatives m' ->
      backward m acts yl masks = backward m' acts yl masks) /\
  exists w1 acts masks grads_w grads_b deltas w2 pred loss w' r,
    forward X true w = (w1, Ok (acts, masks)) /\
    backward (set_l2_lambda lam (self w1)) acts y masks
    = Ok (grads_w, grads_b) /\
    error_signals (self w) acts y masks deltas /\
    gradients_of acts deltas grads_w grads_b /\
    update_weights grads_w grads_b w1 = (w2, Ok tt) /\
    train_epoch X y X_val y_val epoch val_loss w = (w', r) /\
    weights (self w') = weights (self w2) /\
    getlast acts = Ok pred /\
    binary_cross_entropy y pred = Ok loss /\
    train_losses (self w')
    = train_losses (self w)
      ++ [fadd loss (l2_penalty (weights (self w')) (l2_lambda (self w')))] /\
    l2_lambda (self w') = l2_lambda (self w) /\
    match X_val, y_val with
    | Some Xv, Some yv =>
        (exists v, r = Ok (Some v)) /\
        exists w3 vacts vmasks vpred vloss,
          forward Xv false w3 = (w3, Ok (vacts, vmasks)) /\
          weights (self w3) = weights (self w') /\
          getlast vacts = Ok vpred /\
          binary_cross_entropy yv vpred = Ok vloss /\
          val_losses (self w')
          = val_losses (self w)
            ++ [fadd vloss
                  (l2_penalty (weights (self w')) (l2_lambda (self w')))]
    | Some _, None =>
        val_losses (self w') = val_losses (self w) /\
        (r = Ok val_loss \/
         r = Err (UnboundLocalError "val_loss") /\
         val_loss = None /\ epoch mod 100 = 0)
    | None, _ =>
        r = Ok val_loss /\ val_losses (self w') = val_losses (self w)
    end.
Proof.
  intros Hinit Hxy Hval.
  split; [intros; apply backward_reads_weights_and_derivatives; assumption|].
  destruct (@train_epoch_outcome _ X y X_val y_val epoch val_loss w
              Hinit Hxy Hval)
    as (w1 & acts & masks & gw & gb & w2 & pred & loss & w' & r &
        Hf & Hs1 & Hb & Hu & Hp & Hl & He & Hw & Ht & Htl & Hv).
  assert (Hpos : 0 < length (weights (self w1))).
  { rewrite Hs1, (initialized_length_weights Hinit). lia. }
  destruct (@backward_gradients _ _ _ _ _ _ _ Hpos Hb)
    as (deltas & Hsig & Hgrad).
  rewrite Hs1 in Hsig.
  exists w1, acts, masks, gw, gb, deltas, w2, pred, loss, w', r.
  split; [exact Hf|].
  split.
  { rewrite <- Hb. apply backward_reads_weights_and_derivatives;
      reflexivity. }
  split; [exact Hsig|]. split; [exact Hgrad|]. split; [exact Hu|].
  split; [exact He|]. split; [exact Hw|]. split; [exact Hp|].
  split; [exact Hl|]. split; [exact Htl|].
  split; [apply trained_l2_lambda; exact Ht | exact Hv].
Qed.

(** C10.  Construction succeeds or fails regardless of the
    [dropout_rates] argument, whatever its length; the object keeps the
    argument as it is unless it is absent or empty, in which case the
    rates are a zero per hidden layer.  Nor does [forward] fail because
    of it: on a batch with [input_size] columns a training-mode forward
    pass returns whatever [dropout_rates] holds, and a mask is drawn for
    layer [i] exactly when [i < len(dropout_rates)] and
    [dropout_rates[i] > 0]; so with a positive rate at the index of the
    last layer transition the output layer is dropped as well. *)
Theorem dropout_rates_never_rejected
        (isz : nat) (hidden : list nat) (names : list string)
        (rates : option (list F)) (lr : F) (n_epochs : nat) (l2 : F)
        (g : RandomState) (X : array) (w : World) :
  initialized (self w) ->
  ncols X = input_size (self w) ->
  is_ok (snd (new_MLPBinaryClassifier isz hidden names rates lr
                n_epochs l2 g))
  = is_ok (snd (new_MLPBinaryClassifier isz hidden names None lr
                  n_epochs l2 g)) /\
  (forall m,
      snd (new_MLPBinaryClassifier isz hidden names rates lr n_epochs l2 g)
      = Ok m ->
      dropout_rates m = dropout_rates_or_default rates hidden) /\
  new_MLPBinaryClassifier isz hidden names (Some []) lr n_epochs l2 g
  = new_MLPBinaryClassifier isz hidden names None lr n_epochs l2 g /\
  dropout_rates_or_default None hidden = repeat zero (length hidden) /\
  exists w' acts masks,
    forward X true w = (w', Ok (acts, masks)) /\
    (forall i, i <= length (hidden_layers (self w)) ->
       ((exists mask, nth_error masks i = Some (Some mask)) <->
        (i < length (dropout_rates (self w)) /\
         exists r, nth_error (dropout_rates (self w)) i = Some r /\
                   fgt r zero = true))) /\
    (forall r,
        nth_error (dropout_rates (self w)) (length (hidden_layers (self w)))
        = Some r ->
        fgt r zero = true ->
        exists mask,
          nth_error masks (length (hidden_layers (self w)))
          = Some (Some mask)).
Proof.
  intros Hinit HX.
  pose proof (new_MLPBinaryClassifier_spec isz hidden names rates lr
                n_epochs l2 g) as H1.
  pose proof (new_MLPBinaryClassifier_spec isz hidden names None lr
                n_epochs l2 g) as H2.
  cbv zeta in H1, H2.
  split.
  { destruct (negb (length names =? S (length hidden))).
    - rewrite H1, H2. reflexivity.
    - destruct (find _ names) as [bad|].
      + rewrite H1, H2. reflexivity.
      + destruct H1 as (m1 & -> & _). destruct H2 as (m2 & -> & _).
        reflexivity. }
  split.
  { intros m Hm. rewrite Hm in H1.
    destruct (negb (length names =? S (length hidden))); [discriminate|].
    destruct (find _ names) as [bad|]; [discriminate|].
    destruct H1 as (m1 & Hm1 & _ & Hfr). inversion Hm1; subst m1.
    apply (f_equal dropout_rates) in Hfr. exact Hfr. }
  split; [reflexivity|]. split; [reflexivity|].
  destruct (@forward_succeeds _ X true w Hinit HX)
    as (w' & acts & masks & Hf).
  pose proof (initialized_length_weights Hinit) as HL.
  exists w', acts, masks. split; [exact Hf|].
  assert (Hiff : forall i, i <= length (hidden_layers (self w)) ->
     ((exists mask, nth_error masks i = Some (Some mask)) <->
      (i < length (dropout_rates (self w)) /\
       exists r, nth_error (dropout_rates (self w)) i = Some r /\
                 fgt r zero = true)))
    by (intros i Hi; apply (mask_recorded_iff _ _ Hf); lia).
  split; [exact Hiff|].
  intros r Hr Hgt.
  apply Hiff; [lia|]. split.
  - apply nth_error_Some. congruence.
  - eauto.
Qed.

(** C3.  After a training-mode forward pass on a batch with [input_size]
    columns, an iteration of the loop of [backward] at a layer index
    [i > 0], on a [delta] of the shape of the activation of layer [i],
    returns: [delta] is propagated through [weights[i]] and multiplied by
    the derivative at the cached activation; if the forward pass recorded
    a mask for layer [i - 1], the result is multiplied entry by entry by
    that very mask, whose entries are 0 or 1 (the factor [1 / (1 - rate)]
    that forward applied to the activation is not applied again), so the
    entries that forward dropped carry the factor 0; without a mask
    [delta] is left as propagated. *)
Theorem backward_reuses_forward_mask
        (X : array) (w : World) (i : nat) (delta : array)
        (gw gb : list array) :
  initialized (self w) ->
  ncols X = input_size (self w) ->
  0 < i -> i <= length (hidden_layers (self w)) ->
  shape delta = (nrows X, nth (S i) (layer_sizes (self w)) 0) ->
  exists w' acts masks delta' g a W deriv back pre,
    forward X true w = (w', Ok (acts, masks)) /\
    backward_layer (self w) acts masks i (delta, gw, gb)
    = Ok (delta', g :: gw, sum_axis0_keepdims delta :: gb) /\
    nth_error acts i = Some a /\
    nth_error (weights (self w)) i = Some W /\
    nth_error (activation_derivatives (self w)) (i - 1) = Some deriv /\
    dot delta (transpose W) = Ok back /\
    mul_arrays back (deriv a) = Ok pre /\
    shape pre = (nrows X, nth i (layer_sizes (self w)) 0) /\
    (forall mask,
        nth_error masks (i - 1) = Some (Some mask) ->
        shape mask = shape pre /\
        forall r c, r < nrows pre -> c < ncols pre ->
          item delta' r c = fmul (item pre r c) (item mask r c)) /\
    match nth_error masks (i - 1) with
    | Some (Some mask) =>
        dropout_applies (self w) true (i - 1) = true /\
        (forall r c, item mask r c = zero \/ item mask r c = one) /\
        (exists A_prev A rate,
            nth_error acts (i - 1) = Some A_prev /\
            activate (self w) (i - 1) A_prev = Ok A /\
            nth_error (dropout_rates (self w)) (i - 1) = Some rate /\
            shape mask = shape A /\
            forall r c, r < nrows A -> c < ncols A ->
              item a r c
              = fdiv (fmul (item A r c) (item mask r c)) (fsub one rate)) /\
        shape delta' = shape pre /\
        (forall r c,
            item delta' r c = fmul (item pre r c) (bitem mask r c)) /\
        (forall r c, bitem mask r c = zero ->
                     item delta' r c = fmul (item pre r c) zero)
    | Some None =>
        dropout_applies (self w) true (i - 1) = false /\ delta' = pre
    | None => False
    end.
Proof.
  intros Hinit HX Hpos Hi Hdelta.
  destruct (@forward_succeeds _ X true w Hinit HX)
    as (w' & acts & masks & Hf).
  pose proof (initialized_length_weights Hinit) as HL.
  destruct (@forward_cache_shapes _ _ _ _ _ _ _ Hinit HX Hf)
    as [Hacts Hmasks].
  destruct (@backward_layer_succeeds _ (self w) acts masks (nrows X) i
              delta gw gb Hinit Hacts Hmasks ltac:(lia) Hdelta)
    as (delta' & g & Hb & _ & _).
  destruct (@backward_layer_of_run _ X w w' acts masks i delta delta'
              gw gb _ _ Hf Hpos ltac:(lia) Hb)
    as (a & W & deriv & back & pre & Ha & HW & Hd & Hback & Hpre & Hcase).
  exists w', acts, masks, delta', g, a, W, deriv, back, pre.
  split; [exact Hf|]. split; [exact Hb|].
  repeat (split; [assumption|]).
  assert (Hspre : shape pre = (nrows X, nth i (layer_sizes (self w)) 0)).
  { destruct (Hacts i ltac:(lia)) as (a' & Ha' & Har & Hac).
    rewrite Ha in Ha'. inversion Ha'; subst a'.
    destruct (initialized_weight _ Hinit HW) as [_ HsW].
    unfold shape in HsW, Hdelta.
    apply pair_equal_spec in HsW. destruct HsW as [HW1 _].
    apply pair_equal_spec in Hdelta. destruct Hdelta as [Hdr _].
    apply dot_shape in Hback. destruct Hback as [Hbr Hbc].
    cbn [transpose ncols] in Hbc.
    assert (Hsb : shape back = shape (deriv a)).
    { rewrite (derivative_shape _ a Hinit Hd). unfold shape. congruence. }
    destruct (@broadcast2_same_shape _ fmul back (deriv a) Hsb)
      as (pre' & Hpre' & Hs').
    unfold mul_arrays in Hpre. rewrite Hpre in Hpre'.
    inversion Hpre'; subst pre'. rewrite Hs'. unfold shape. congruence. }
  split; [exact Hspre|].
  split; [|exact Hcase].
  intros mask Hmask.
  destruct (Hmasks (i - 1) ltac:(lia)) as (mk & Hmk & Hsm).
  rewrite Hmask in Hmk. inversion Hmk; subst mk.
  specialize (Hsm mask eq_refl).
  replace (S (i - 1)) with i in Hsm by lia.
  assert (Heq : shape mask = shape pre) by congruence.
  split; [exact Heq|].
  intros r c Hr Hc.
  rewrite Hmask in Hcase. destruct Hcase as (_ & _ & _ & _ & Hitem & _).
  rewrite Hitem. f_equal.
  unfold shape in Heq. apply pair_equal_spec in Heq. destruct Heq as [E1 E2].
  apply bitem_in_range; congruence.
Qed.

(** C2, as the code has it.  For a network without hidden layers (one
    sigmoid layer) and without dropout, on a batch of [n] examples,
    [backward] returns the weight gradient whose entry [j] is the sum
    over the examples [k] of
    [X[k][j] * ((a_k - y_k) / (a_k * (1 - a_k) + 1e-8) * (a_k * (1 - a_k)))]
    with [a = sigmoid(XW + b)]: the closed form [X^T (a - y)] with each
    term scaled by [s / (s + 1e-8)], [s = a (1 - a)], the stabiliser of
    the loss derivative.  The sum is not divided by [n]. *)
Theorem logistic_gradient_with_stabiliser
        (w : World) (X y W b : array) (n d : nat) :
  weights (self w) = [W] ->
  biases (self w) = [b] ->
  activation_funcs (self w) = [sigmoid] ->
  activation_derivatives (self w) = [sigmoidDerivative] ->
  Forall (fun r => r = zero) (dropout_rates (self w)) ->
  shape X = (n, d) -> shape W = (d, 1) -> shape b = (1, 1) ->
  shape y = (n, 1) ->
  exists A G gb,
    forward X true w = (w, Ok ([X; A], [None])) /\
    shape A = (n, 1) /\
    (forall k, k < n ->
       item A k 0
       = fdiv one
           (fadd one
              (fexp (fneg
                 (fadd (fsum (map (fun j => fmul (item X k j) (item W j 0))
                                  (seq 0 d)))
                       (item b 0 0)))))) /\
    backward (self w) [X; A] y [None] = Ok ([G], [gb]) /\
    shape G = (d, 1) /\
    forall j, j < d ->
      item G j 0
      = fsum (map (fun k =>
                fmul (item X k j)
                  (fmul
                     (fdiv (fsub (item A k 0) (item y k 0))
                        (fadd (fmul (item A k 0) (fsub one (item A k 0)))
                              lit_1e_8))
                     (fmul (item A k 0) (fsub one (item A k 0)))))
              (seq 0 n)).
Proof.
  intros HW Hb Hf Hd Hz HsX HsW Hsb Hsy.
  unfold shape in *.
  apply pair_equal_spec in HsX, HsW, Hsb, Hsy.
  destruct HsX as [HXr HXc], HsW as [HWr HWc], Hsb as [Hbr Hbc],
           Hsy as [Hyr Hyc].
  assert (Hact : activate (self w) 0 X
                 = Ok (sigmoid
                         (mk_ndarray n 1
                            (fun i j =>
                               fadd
                                 (bitem
                                    (mk_ndarray n 1
                                       (fun i j =>
                                          fsum (map (fun k =>
                                                  fmul (item X i k)
                                                       (item W k j))
                                                  (seq 0 d)))) i j)
                                 (bitem b i j))))).
  { unfold activate. rewrite HW, Hb, Hf. cbn [getitem nth_error rbind].
    unfold dot. rewrite HXc, HWr, Nat.eqb_refl. cbn [rbind].
    unfold add_arrays, broadcast2. cbn [nrows ncols].
    rewrite HXr, HWc, Hbr, Hbc, broadcast_dim_1_r, broadcast_dim_same.
    reflexivity. }
  set (A := sigmoid _) in Hact.
  assert (HAr : nrows A = n) by reflexivity.
  assert (HAc : ncols A = 1) by reflexivity.
  set (delta := mk_ndarray n 1
         (fun i j =>
            fmul
              (bitem
                 (mk_ndarray n 1
                    (fun i j =>
                       fdiv
                         (bitem (mk_ndarray n 1
                                   (fun i j => fsub (bitem A i j)
                                                    (bitem y i j))) i j)
                         (bitem (amap (fun p => fadd (fmul p (fsub one p))
                                                     lit_1e_8) A) i j)))
                 i j)
              (bitem (sigmoidDerivative A) i j))).
  exists A,
    (mk_ndarray d 1
       (fun i j => fsum (map (fun k => fmul (item (transpose X) i k)
                                            (item delta k j))
                             (seq 0 n)))),
    (sum_axis0_keepdims delta).
  split.
  { unfold forward, bind, get_self. rewrite HW.
    cbn [length range seq]. rewrite for_each_cons. unfold bind.
    rewrite forward_layer_zero_rates by exact Hz.
    rewrite Hact. reflexivity. }
  split; [reflexivity|].
  split.
  { intros k Hk. subst A. cbn [sigmoid amap item].
    rewrite (bitem_col0 _ (n:=n)) by (auto; reflexivity).
    cbn [item]. do 4 f_equal.
    unfold bitem. rewrite Hbr, Hbc. reflexivity. }
  assert (Hdelta : output_delta (self w) [X; A] y = Ok delta).
  { unfold output_delta. cbn [getlast rev app rbind].
    unfold binary_cross_entropyDerivative, sub_arrays, div_arrays,
      broadcast2.
    rewrite HAr, HAc, Hyr, Hyc. cbn [amap nrows ncols].
    rewrite !broadcast_dim_same. cbn [rbind nrows ncols].
    rewrite !broadcast_dim_same. cbn [rbind nrows ncols].
    rewrite Hd. cbn [getlast rev app rbind].
    unfold mul_arrays, broadcast2.
    cbn [sigmoidDerivative amap nrows ncols].
    rewrite HAr, HAc, !broadcast_dim_same. reflexivity. }
  split.
  { unfold backward. rewrite Hdelta, HW. cbn [rbind length range seq rev app].
    cbn [rfor rbind]. unfold backward_layer.
    cbn [getitem nth_error rbind].
    unfold dot. cbn [transpose nrows ncols].
    rewrite HXr, HXc. subst delta. cbn [nrows ncols].
    rewrite Nat.eqb_refl. reflexivity. }
  split; [reflexivity|].
  intros j Hj. cbn [item]. f_equal.
  apply map_ext_in. intros k Hk. apply in_seq in Hk.
  cbn [transpose item]. f_equal.
  subst delta. cbn [item].
  rewrite (bitem_col0 _ (n:=n)) by (auto; lia).
  rewrite (bitem_col0 _ (n:=n)) by (auto; lia).
  cbn [item sigmoidDerivative amap].
  rewrite (bitem_col0 _ (n:=n)) by (auto; lia).
  rewrite (bitem_col0 _ (n:=n)) by (auto; lia).
  cbn [item amap].
  rewrite (bitem_col0 A (n:=n)) by (auto; lia).
  rewrite (bitem_col0 y (n:=n)) by (auto; lia).
  reflexivity.
Qed.

End Properties.

(** ** Rejected inputs *)

Section Rejections.
Context {Sc : Scalar}.

Lemma activate_wrong_width m A :
  initialized m -> ncols A <> input_size m ->
  activate m 0 A = Err (ValueError "shapes not aligned").
Proof.
  intros Hinit HA.
  destruct (initialized_lengths Hinit) as (Hlw & _).
  destruct (getitem_lt (weights m) (i:=0)) as [W HW]; [lia|].
  unfold activate. rewrite HW. cbn [rbind].
  apply getitem_ok in HW.
  destruct (initialized_weight _ Hinit HW) as [_ HsW].
  unfold shape in HsW. apply pair_equal_spec in HsW. destruct HsW as [HW1 _].
  unfold dot. rewrite HW1. cbn [layer_sizes app nth].
  destruct (ncols A =? input_size m) eqn:E; [|reflexivity].
  apply Nat.eqb_eq in E. contradiction.
Qed.

Lemma forward_wrong_width X training w :
  initialized (self w) -> ncols X <> input_size (self w) ->
  forward X training w = (w, Err (ValueError "shapes not aligned")).
Proof.
  intros Hinit HX.
  unfold forward, bind at 1, get_self at 1.
  rewrite (initialized_length_weights Hinit). unfold range.
  change (seq 0 (S (length (hidden_layers (self w)))))
    with (0 :: seq 1 (length (hidden_layers (self w)))).
  rewrite for_each_cons. unfold forward_layer. unfold bind, get_self, lift.
  rewrite (activate_wrong_width _ Hinit HX). reflexivity.
Qed.

(** X1.  A batch whose number of columns is not [input_size] is rejected by
    the first matrix product: [forward], in either mode, and [predict]
    raise numpy's [ValueError] and leave object, random state and output
    as they were. *)
Theorem forward_and_predict_reject_wrong_width
        (X : array) (training : bool) (w : World) :
  initialized (self w) ->
  ncols X <> input_size (self w) ->
  forward X training w = (w, Err (ValueError "shapes not aligned")) /\
  predict X w = (w, Err (ValueError "shapes not aligned")).
Proof.
  intros Hinit HX. split; [apply forward_wrong_width; assumption|].
  unfold predict, bind. rewrite forward_wrong_width by assumption.
  reflexivity.
Qed.

(** X2.  [train] checks nothing itself: with [epochs = 0] it returns at once
    whatever it is given, and otherwise a batch of the wrong width makes
    the first epoch raise in its forward pass, before any weight is
    touched, any loss recorded or any line printed. *)
Theorem train_rejects_wrong_width
        (X y : array) (X_val y_val : option array) (w : World) :
  initialized (self w) ->
  ncols X <> input_size (self w) ->
  (epochs (self w) = 0 -> train X y X_val y_val w = (w, Ok tt)) /\
  (0 < epochs (self w) ->
   train X y X_val y_val w = (w, Err (ValueError "shapes not aligned"))).
Proof.
  intros Hinit HX. split.
  - intros H0. unfold train, bind, get_self. rewrite H0. reflexivity.
  - intros Hpos. unfold train, bind at 1, get_self at 1. unfold range.
    destruct (epochs (self w)) as [|n]; [lia|].
    change (seq 0 (S n)) with (0 :: seq 1 n). rewrite for_each_cons.
    unfold bind at 1. unfold bind at 1. unfold train_epoch at 1.
    unfold bind at 1. rewrite forward_wrong_width by assumption.
    reflexivity.
Qed.

End Rejections.

Section RowVectorLabels.
Context {Sc : Scalar}.

Lemma broadcast_dim_1_l n : broadcast_dim 1 n = Ok n.
Proof.
  unfold broadcast_dim. destruct (1 =? n) eqn:E; [|reflexivity].
  apply Nat.eqb_eq in E. subst n. reflexivity.
Qed.

(** The error signal at the output when the labels come as a row: numpy
    broadcasts the column of predictions against the row of labels, and
    [delta] is a square matrix. *)
Lemma output_delta_of_row_labels m acts y aL n :
  initialized m ->
  getlast acts = Ok aL -> shape aL = (n, 1) -> shape y = (1, n) ->
  exists delta, output_delta m acts y = Ok delta /\ shape delta = (n, n).
Proof.
  intros Hinit Hlast HaL Hy.
  destruct (initialized_lengths Hinit) as (_ & _ & _ & Hld).
  unfold shape in HaL, Hy.
  apply pair_equal_spec in HaL, Hy.
  destruct HaL as [Hr Hc], Hy as [Hyr Hyc].
  destruct (nth_error (activation_derivatives m) (length (hidden_layers m)))
    as [deriv|] eqn:Ed; [|apply nth_error_None in Ed; lia].
  pose proof (derivative_shape _ aL Hinit Ed) as Hsd.
  unfold shape in Hsd. apply pair_equal_spec in Hsd.
  destruct Hsd as [Hdr Hdc].
  unfold output_delta. rewrite Hlast. cbn [rbind].
  unfold binary_cross_entropyDerivative, sub_arrays, div_arrays, broadcast2.
  rewrite Hr, Hc, Hyr, Hyc, broadcast_dim_1_r, broadcast_dim_1_l.
  cbn [rbind amap nrows ncols].
  rewrite Hr, Hc, broadcast_dim_same, broadcast_dim_1_r. cbn [rbind].
  rewrite (getlast_nth _ Hld). unfold getitem. rewrite Ed. cbn [rbind].
  unfold mul_arrays, broadcast2. cbn [nrows ncols].
  rewrite Hdr, Hdc, Hr, Hc, broadcast_dim_same, broadcast_dim_1_r.
  cbn [rbind]. eexists. split; reflexivity.
Qed.

Lemma train_first_epoch_raises X y X_val y_val w w' e :
  0 < epochs (self w) ->
  train_epoch X y X_val y_val 0 None w = (w', Err e) ->
  train X y X_val y_val w = (w', Err e).
Proof.
  intros Hpos H. unfold train, bind at 1, get_self at 1. unfold range.
  destruct (epochs (self w)) as [|k]; [lia|].
  change (seq 0 (S k)) with (0 :: seq 1 k). rewrite for_each_cons.
  unfold bind. rewrite H. reflexivity.
Qed.

(** X3.  Labels must come as a column.  Given as a row of [n > 1] labels,
    numpy broadcasts them against the column of predictions into an
    [n] by [n] error signal, which no longer fits the parameters: the
    first epoch raises [ValueError], in [backward] when there are hidden
    layers and in [update_weights] when there are none.  No parameter has
    been changed, no loss recorded and nothing printed. *)
Theorem train_rejects_labels_given_as_a_row
        (X y : array) (X_val y_val : option array) (w : World) :
  initialized (self w) ->
  ncols X = input_size (self w) ->
  shape y = (1, nrows X) ->
  1 < nrows X ->
  0 < epochs (self w) ->
  exists w' msg,
    train X y X_val y_val w = (w', Err (ValueError msg)) /\
    self w' = self w /\ stdout w' = stdout w /\
    (hidden_layers (self w) <> [] -> msg = "shapes not aligned"%string) /\
    (hidden_layers (self w) = [] ->
     msg = "non-broadcastable output operand"%string).
Proof.
  intros Hinit HX Hy Hn Hpos.
  destruct (@forward_succeeds _ X true w Hinit HX)
    as (w1 & acts & masks & Hf).
  pose proof (forward_trace _ _ _ Hf) as (Hs1 & Ho1 & Hla & _).
  destruct (@forward_cache_shapes _ _ _ _ _ _ _ Hinit HX Hf)
    as [Hacts Hmasks].
  destruct (@forward_final_shape _ _ _ _ _ _ _ Hinit HX Hf)
    as (aL & Hlast & HsL).
  destruct (@output_delta_of_row_labels (self w) acts y aL (nrows X)
              Hinit Hlast HsL Hy) as (delta & Hdelta & Hsdelta).
  destruct (initialized_lengths Hinit) as (Hlw & Hlb & _).
  destruct (Hacts (length (hidden_layers (self w))) ltac:(lia))
    as (a & Ha & Har & Hac).
  destruct (nth_error (weights (self w)) (length (hidden_layers (self w))))
    as [W|] eqn:EW; [|apply nth_error_None in EW; lia].
  destruct (initialized_weight _ Hinit EW) as [_ HsW].
  rewrite layer_sizes_last in HsW.
  unfold shape in HsW, Hsdelta.
  apply pair_equal_spec in HsW, Hsdelta.
  destruct HsW as [HW1 HW2], Hsdelta as [Hdr Hdc].
  destruct (@dot_succeeds _ (transpose a) delta) as (g & Hg & Hgr & Hgc);
    [cbn [transpose ncols]; congruence|].
  assert (Hne : (nrows X =? 1) = false) by (apply Nat.eqb_neq; lia).
  assert (Hhead :
    backward (self w) acts y masks
    = if 0 <? length (hidden_layers (self w))
      then Err (ValueError "shapes not aligned")
      else Ok ([g], [sum_axis0_keepdims delta])).
  { unfold backward. rewrite Hdelta. cbn [rbind].
    rewrite Hlw. unfold range. rewrite rev_seq_S. cbn [rfor].
    unfold backward_layer at 1. unfold getitem at 1. rewrite Ha.
    cbn [rbind]. rewrite Hg. cbn [rbind].
    destruct (0 <? length (hidden_layers (self w))) eqn:EL.
    - unfold getitem at 1. rewrite EW. cbn [rbind].
      unfold dot at 1. cbn [transpose nrows ncols].
      rewrite Hdc, HW2, Hne. reflexivity.
    - apply Nat.ltb_ge in EL.
      replace (length (hidden_layers (self w))) with 0 by lia.
      reflexivity. }
  exists w1.
  destruct (0 <? length (hidden_layers (self w))) eqn:EL.
  - exists "shapes not aligned"%string.
    split.
    { apply train_first_epoch_raises; [exact Hpos|].
      unfold train_epoch. unfold bind at 1. rewrite Hf.
      unfold bind at 1. unfold get_self at 1.
      unfold bind at 1. unfold lift at 1. rewrite Hs1, Hhead.
      reflexivity. }
    split; [exact Hs1|]. split; [exact Ho1|].
    split; [reflexivity|].
    intros Hnil. rewrite Hnil in EL. discriminate.
  - exists "non-broadcastable output operand"%string.
    apply Nat.ltb_ge in EL.
    assert (HL0 : length (hidden_layers (self w)) = 0) by lia.
    split.
    { apply train_first_epoch_raises; [exact Hpos|].
      unfold train_epoch. unfold bind at 1. rewrite Hf.
      unfold bind at 1. unfold get_self at 1.
      unfold bind at 1. unfold lift at 1. rewrite Hs1, Hhead.
      unfold bind at 1.
      unfold update_weights. unfold bind at 1. unfold get_self at 1.
      rewrite Hs1, Hlw, HL0. cbn [range seq]. rewrite for_each_cons.
      unfold bind at 1. unfold update_layer.
      unfold bind at 1. unfold get_self at 1.
      unfold bind at 1. unfold lift at 1. rewrite Hs1.
      rewrite HL0 in EW. unfold getitem at 1. rewrite EW.
      unfold bind at 1. unfold lift at 1. cbn [getitem nth_error].
      unfold bind at 1. unfold lift at 1.
      unfold inplace2. cbn [amap nrows ncols].
      rewrite Hgr, Hgc, Hdc. cbn [transpose nrows].
      rewrite Hac, HL0 in *. rewrite HW1, HW2.
      rewrite broadcast_dim_same, broadcast_dim_1_l. cbn [rbind].
      rewrite Nat.eqb_refl, Hne. reflexivity. }
    split; [exact Hs1|]. split; [exact Ho1|].
    split; [|reflexivity].
    intros Hnn. destruct (hidden_layers (self w)); [contradiction|].
    discriminate.
Qed.

End RowVectorLabels.

Section ValidationWithoutLabels.
Context {Sc : Scalar}.

(** X4.  [train] given [X_val] but no [y_val]: the validation block is
    skipped, so the reporting block of epoch 0 reads a [val_loss] that
    was never assigned.  The call raises [UnboundLocalError] after the
    first gradient step: one train loss has been appended and the line
    of epoch 0 printed, no validation loss recorded, and [X_val] itself
    was never looked at. *)
Theorem validation_inputs_without_labels_crash
        (X y X_val : array) (w : World) :
  initialized (self w) ->
  well_shaped (self w) X y ->
  0 < epochs (self w) ->
  exists w' loss,
    train X y (Some X_val) None w
    = (w', Err (UnboundLocalError "val_loss")) /\
    stdout w' = stdout w ++ [EpochLoss 0 loss] /\
    length (train_losses (self w')) = S (length (train_losses (self w))) /\
    val_losses (self w') = val_losses (self w) /\
    trained (self w) (self w').
Proof.
  intros Hinit Hxy Hpos.
  destruct (@learning_steps_succeed _ X y w Hinit Hxy)
    as (w1 & acts & masks & gw & gb & w2 & pred & loss &
        Hf & Hb & Hu & Hp & Hl & Hshape & Hupd).
  pose proof (forward_trace _ _ _ Hf) as (_ & Ho1 & _).
  pose proof (update_weights_ok _ _ _ Hu) as (_ & _ & Ho2).
  unfold train, bind at 1, get_self at 1. unfold range.
  destruct (epochs (self w)) as [|n]; [lia|].
  change (seq 0 (S n)) with (0 :: seq 1 n). rewrite for_each_cons.
  unfold bind at 1. unfold bind at 1.
  rewrite (@train_epoch_run _ X y _ _ _ _ w _ _ _ _ _ _ _ _ Hf Hb Hu Hp Hl).
  set (w3 := mk_World _ _ _).
  unfold bind at 1. unfold validate, ret at 1.
  unfold bind at 1. unfold report.
  change (0 mod 100 =? 0) with true. cbv iota.
  destruct (@total_loss_succeeds _ y pred lit_0_001 w3 Hshape) as [l Hl3].
  eexists. exists l. split.
  { unfold bind. rewrite Hl3. unfold print, raise. reflexivity. }
  cbn [self stdout np_random]. subst w3.
  cbn [self stdout train_losses val_losses set_train_losses].
  split; [congruence|].
  split.
  { rewrite length_app. cbn [length].
    destruct Hupd as (_ & _ & Hfr).
    apply (f_equal train_losses) in Hfr. cbn in Hfr. rewrite Hfr. lia. }
  split.
  { destruct Hupd as (_ & _ & Hfr).
    apply (f_equal val_losses) in Hfr. exact Hfr. }
  eapply trained_trans; [apply updated_trained; exact Hupd|].
  unfold trained. cbn. apply updated_refl.
Qed.

End ValidationWithoutLabels.

(** ** What construction draws *)

Section ConstructionDraws.
Context {Sc : Scalar}.

Lemma weights_before_S ls i :
  weights_before ls (S i)
  = weights_before ls i + nth i ls 0 * nth (S i) ls 0.
Proof.
  unfold weights_before. rewrite seq_S, map_app, list_sum_app.
  simpl. lia.
Qed.

Lemma for_each_app {St} (l1 l2 : list nat) (body : nat -> St -> M St) s w :
  for_each (l1 ++ l2) body s w
  = bind (for_each l1 body s) (for_each l2 body) w.
Proof.
  revert s w. induction l1 as [|i l1 IH]; intros s w.
  - reflexivity.
  - cbn [app]. rewrite !for_each_cons. unfold bind.
    destruct (body i s w) as [w1 [s1|e]]; [|reflexivity].
    rewrite IH. reflexivity.
Qed.


Lemma drawn_activations ls g0 m0 s w :
  drawn ls g0 m0 s w -> activations (self w) = activations m0.
Proof.
  intros (_ & _ & _ & _ & _ & Hf).
  apply (f_equal activations) in Hf. exact Hf.
Qed.

Lemma nth_error_snoc {A} (l : list A) a i x :
  nth_error (l ++ [a]) i = Some x ->
  nth_error l i = Some x \/ (i = length l /\ x = a).
Proof.
  intros H. destruct (Nat.lt_ge_cases i (length l)) as [Hi|Hi].
  - rewrite nth_error_app1 in H by exact Hi. auto.
  - rewrite nth_error_app2 in H by exact Hi.
    destruct (i - length l) as [|k] eqn:E; cbn in H.
    + inversion H. right. split; [lia | reflexivity].
    + destruct k; discriminate.
Qed.

(** One more iteration: the draw of layer [s], and the outcome of the
    registry lookup. *)
Lemma drawn_step ls g0 m0 s w name :
  S s < length ls ->
  nth_error (activations m0) s = Some name ->
  drawn ls g0 m0 s w ->
  match dict_get ACTIVATIONS name with
  | Ok _ =>
      exists w', initialize_layer ls s tt w = (w', Ok tt) /\
                 stdout w' = stdout w /\
                 drawn ls g0 m0 (S s) w'
  | Err e =>
      exists w', initialize_layer ls s tt w = (w', Err (KeyError name)) /\
                 np_random w'
                 = mk_RandomState (samples g0)
                     (consumed g0 + weights_before ls (S s))
  end.
Proof.
  intros Hs Hname Hd.
  pose proof (drawn_activations Hd) as Hact.
  destruct Hd as (Hg & Hlw & Hw & Hlb & Hb & Hf).
  destruct (nth_error ls s) as [a|] eqn:Ea;
    [|apply nth_error_None in Ea; lia].
  destruct (nth_error ls (s + 1)) as [b|] eqn:Eb;
    [|apply nth_error_None in Eb; lia].
  rewrite (@initialize_layer_step _ ls s w a b name)
    by (try assumption; congruence).
  unfold randn, draw. rewrite Hg. cbn [samples consumed].
  assert (Ha' : nth s ls 0 = a) by (apply nth_error_nth; exact Ea).
  assert (Hb' : nth (S s) ls 0 = b)
    by (apply nth_error_nth; rewrite <- Eb; f_equal; lia).
  assert (Hoff : consumed g0 + weights_before ls s + a * b
                 = consumed g0 + weights_before ls (S s))
    by (rewrite weights_before_S, Ha', Hb'; lia).
  destruct (dict_get ACTIVATIONS name) as [[f d]|e] eqn:Ed.
  - eexists. split; [reflexivity|]. split; [reflexivity|].
    unfold drawn.
    cbn [self np_random weights biases set_weights set_biases
         set_activation_funcs set_activation_derivatives].
    split; [rewrite Hoff; reflexivity|].
    split; [rewrite length_app; cbn [length]; lia|].
    split.
    { intros i W HW. apply nth_error_snoc in HW.
      destruct HW as [HW | [-> ->]]; [apply Hw; exact HW|].
      rewrite Hlw, Hb'. cbn [amap ncols item]. split; reflexivity. }
    split; [rewrite length_app; cbn [length]; lia|].
    split.
    { intros i b0 r c Hb0. apply nth_error_snoc in Hb0.
      destruct Hb0 as [Hb0 | [-> ->]]; [eapply Hb; exact Hb0 | reflexivity]. }
    destruct (self w); cbn in *. exact Hf.
  - apply dict_get_err in Ed. subst e.
    eexists. split; [reflexivity|].
    cbn [np_random]. rewrite Hoff. reflexivity.
Qed.

(** The loop over layers whose names are all registered. *)
Lemma drawn_loop ls g0 m0 n :
  forall s w,
    s + n < length ls ->
    (forall i, s <= i < s + n ->
       exists nm, nth_error (activations m0) i = Some nm /\
                  registered nm = true) ->
    drawn ls g0 m0 s w ->
    exists w',
      for_each (seq s n) (initialize_layer ls) tt w = (w', Ok tt) /\
      stdout w' = stdout w /\
      drawn ls g0 m0 (s + n) w'.
Proof.
  induction n as [|n IH]; intros s w Hls Hreg Hd.
  - exists w. rewrite Nat.add_0_r. cbn. auto.
  - change (seq s (S n)) with (s :: seq (S s) n). rewrite for_each_cons.
    destruct (Hreg s ltac:(lia)) as (nm & Hnm & Hr).
    pose proof (@drawn_step ls g0 m0 s w nm ltac:(lia) Hnm Hd) as Hstep.
    unfold registered in Hr.
    destruct (dict_get ACTIVATIONS nm) as [fd|e]; [|discriminate].
    destruct Hstep as (w1 & H1 & Ho1 & Hd1).
    destruct (IH (S s) w1 ltac:(lia)) as (w' & H & Ho & Hd').
    { intros i Hi. apply Hreg. lia. }
    { exact Hd1. }
    exists w'. unfold bind. rewrite H1.
    split; [exact H|]. split; [congruence|].
    replace (s + S n) with (S s + n) by lia. exact Hd'.
Qed.

Lemma drawn_start ls g m0 out :
  weights m0 = [] -> biases m0 = [] ->
  drawn ls g m0 0 (mk_World m0 g out).
Proof.
  intros Hw Hb. unfold drawn. cbn [self np_random].
  rewrite Hw, Hb. unfold weights_before. cbn [seq map list_sum].
  rewrite Nat.add_0_r. destruct g as [sm k0]. cbn [samples consumed].
  split; [reflexivity|]. split; [reflexivity|].
  split; [intros [|i] W H; discriminate|].
  split; [reflexivity|].
  split; [intros [|i] b r c H; discriminate|]. reflexivity.
Qed.

(** X5.  A successful construction draws the weights layer by layer from the
    global random state: layer [i] takes the next
    [layer_sizes[i] * layer_sizes[i+1]] samples, row by row, each scaled
    by 0.01; nothing else is drawn.  Every bias starts at zero, both loss
    histories start empty and the configuration is stored as given. *)
Theorem construction_draws_the_weights_in_order
        (isz : nat) (hidden : list nat) (names : list string)
        (rates : option (list F)) (lr : F) (n_epochs : nat) (l2 : F)
        (g : RandomState) :
  length names = S (length hidden) ->
  (forall nm, In nm names -> registered nm = true) ->
  exists m,
    new_MLPBinaryClassifier isz hidden names rates lr n_epochs l2 g
    = (mk_RandomState (samples g)
         (consumed g
          + weights_before ([isz] ++ hidden ++ [1]) (S (length hidden))),
       Ok m) /\
    (forall i W, nth_error (weights m) i = Some W ->
       forall r c,
         item W r c
         = fmul (samples g (consumed g
                            + weights_before ([isz] ++ hidden ++ [1]) i
                            + r * ncols W + c)) lit_0_01) /\
    (forall i b r c, nth_error (biases m) i = Some b -> item b r c = zero) /\
    train_losses m = [] /\ val_losses m = [] /\
    input_size m = isz /\ hidden_layers m = hidden /\
    activations m = names /\ learning_rate m = lr /\
    epochs m = n_epochs /\ l2_lambda m = l2.
Proof.
  intros Hlen Hreg.
  set (ls := [isz] ++ hidden ++ [1]).
  set (m0 := init_fields isz hidden names rates lr n_epochs l2).
  assert (Hls : length ls = S (S (length hidden))).
  { subst ls. cbn [app length]. rewrite length_app. cbn [length]. lia. }
  destruct (@drawn_loop ls g m0 (S (length hidden)) 0 (mk_World m0 g []))
    as (w' & Hrun & _ & Hd).
  - lia.
  - intros i Hi. cbn [activations m0 init_fields].
    destruct (nth_error names i) as [nm|] eqn:E;
      [|apply nth_error_None in E; lia].
    exists nm. split; [reflexivity|]. apply Hreg.
    eapply nth_error_In; exact E.
  - apply drawn_start; reflexivity.
  - exists (self w').
    destruct Hd as (Hg & _ & Hw & _ & Hb & Hf).
    split.
    { unfold new_MLPBinaryClassifier, _initialize_network.
      fold m0. unfold bind, get_self. cbn [self].
      change (input_size m0) with isz.
      change (hidden_layers m0) with hidden.
      change (activations m0) with names.
      fold ls. rewrite Hls, Hlen. cbn [Nat.sub].
      rewrite ?Nat.sub_0_r, Nat.eqb_refl. cbn [negb].
      unfold range. rewrite Hrun, Hg. reflexivity. }
    split.
    { intros i W HW r c. destruct (Hw i W HW) as [Hc Hit].
      rewrite Hit, Hc. reflexivity. }
    split; [exact Hb|].
    repeat split.
    + apply (f_equal train_losses) in Hf. exact Hf.
    + apply (f_equal val_losses) in Hf. exact Hf.
    + apply (f_equal input_size) in Hf. exact Hf.
    + apply (f_equal hidden_layers) in Hf. exact Hf.
    + apply (f_equal activations) in Hf. exact Hf.
    + apply (f_equal learning_rate) in Hf. exact Hf.
    + apply (f_equal epochs) in Hf. exact Hf.
    + apply (f_equal l2_lambda) in Hf. exact Hf.
Qed.

(** X6.  A construction that fails has not always left the global random
    state alone.  The count check comes before any draw; but the registry
    lookup of layer [j] comes after the draw of its weights, so an
    unknown name at position [j] (the names before it being registered)
    raises [KeyError] with the weights of layers [0..j] already drawn. *)
Theorem failed_construction_may_have_drawn
        (isz : nat) (hidden : list nat) (names : list string)
        (rates : option (list F)) (lr : F) (n_epochs : nat) (l2 : F)
        (g : RandomState) :
  (length names <> S (length hidden) ->
   new_MLPBinaryClassifier isz hidden names rates lr n_epochs l2 g
   = (g, Err (ValueError "# activation functions != # layers"))) /\
  (length names = S (length hidden) ->
   forall j bad,
     nth_error names j = Some bad ->
     registered bad = false ->
     (forall i nm, i < j -> nth_error names i = Some nm ->
                   registered nm = true) ->
     new_MLPBinaryClassifier isz hidden names rates lr n_epochs l2 g
     = (mk_RandomState (samples g)
          (consumed g + weights_before ([isz] ++ hidden ++ [1]) (S j)),
        Err (KeyError bad))).
Proof.
  set (ls := [isz] ++ hidden ++ [1]).
  set (m0 := init_fields isz hidden names rates lr n_epochs l2).
  assert (Hls : length ls = S (S (length hidden))).
  { subst ls. cbn [app length]. rewrite length_app. cbn [length]. lia. }
  assert (Hunfold :
    new_MLPBinaryClassifier isz hidden names rates lr n_epochs l2 g
    = match (if negb (length names =? S (length hidden))
             then raise (ValueError "# activation functions != # layers")
             else for_each (seq 0 (S (length hidden)))
                           (initialize_layer ls) tt) (mk_World m0 g [])
      with
      | (w', Ok _) => (np_random w', Ok (self w'))
      | (w', Err e) => (np_random w', Err e)
      end).
  { unfold new_MLPBinaryClassifier, _initialize_network.
    fold m0. unfold bind, get_self. cbn [self].
    change (input_size m0) with isz.
    change (hidden_layers m0) with hidden.
    change (activations m0) with names.
    fold ls. rewrite Hls. cbn [Nat.sub]. rewrite ?Nat.sub_0_r.
    reflexivity. }
  rewrite Hunfold. split.
  - intros Hne. apply Nat.eqb_neq in Hne. rewrite Hne. reflexivity.
  - intros Hlen j bad Hj Hbad Hbefore.
    rewrite Hlen, Nat.eqb_refl. cbn [negb].
    assert (Hjl : j < S (length hidden)).
    { rewrite <- Hlen. apply nth_error_Some. congruence. }
    replace (S (length hidden)) with (j + S (length hidden - j)) by lia.
    rewrite seq_app, for_each_app. cbn [Nat.add].
    destruct (@drawn_loop ls g m0 j 0 (mk_World m0 g []))
      as (w1 & Hrun & _ & Hd).
    + lia.
    + intros i Hi. cbn [activations m0 init_fields].
      destruct (nth_error names i) as [nm|] eqn:E;
        [|apply nth_error_None in E; lia].
      exists nm. split; [reflexivity|]. apply (Hbefore i); [lia | exact E].
    + apply drawn_start; reflexivity.
    + unfold bind at 1. rewrite Hrun. cbn [Nat.add] in Hd.
      change (seq j (S (length hidden - j)))
        with (j :: seq (S j) (length hidden - j)).
      rewrite for_each_cons. unfold bind.
      pose proof (@drawn_step ls g m0 j w1 bad ltac:(lia) Hj Hd) as Hstep.
      unfold registered in Hbad.
      destruct (dict_get ACTIVATIONS bad) as [fd|e]; [discriminate|].
      destruct Hstep as (w2 & H2 & Hg2). rewrite H2, Hg2. reflexivity.
Qed.

End ConstructionDraws.

(** ** The gradient step, entry by entry *)

Section GradientStep.
Context {Sc : Scalar}.

Lemma setitem_nth_error {A} (l l' : list A) i v :
  setitem l i v = Ok l' ->
  nth_error l' i = Some v /\
  forall j, j <> i -> nth_error l' j = nth_error l j.
Proof.
  revert i l'. induction l as [|a l IH]; intros [|i] l' H;
    cbn in H; try discriminate.
  - inversion H; subst. split; [reflexivity|].
    intros [|j] Hj; [contradiction | reflexivity].
  - destruct (setitem l i v) as [r|e] eqn:E; inversion H; subst.
    destruct (IH _ _ E) as [H1 H2]. split; [exact H1|].
    intros [|j] Hj; [reflexivity|]. cbn. apply H2. lia.
Qed.

(** What one iteration of the loop of [update_weights] does to the two
    parameter lists. *)
Lemma update_layer_effect grads_w grads_b i w w' u :
  update_layer grads_w grads_b i tt w = (w', Ok u) ->
  exists W G W' b H b',
    nth_error (weights (self w)) i = Some W /\
    nth_error grads_w i = Some G /\
    inplace2 fsub W (amap (fun v => fmul (learning_rate (self w)) v) G)
    = Ok W' /\
    setitem (weights (self w)) i W' = Ok (weights (self w')) /\
    nth_error (biases (self w)) i = Some b /\
    nth_error grads_b i = Some H /\
    inplace2 fsub b (amap (fun v => fmul (learning_rate (self w)) v) H)
    = Ok b' /\
    setitem (biases (self w)) i b' = Ok (biases (self w')).
Proof.
  unfold update_layer. intros H.
  apply bind_ok in H. destruct H as (w1 & m & Hm & H).
  apply get_self_ok in Hm. destruct Hm as [-> ->].
  apply bind_ok in H. destruct H as (w1 & W & HW & H).
  apply lift_ok in HW. destruct HW as [-> HW].
  apply bind_ok in H. destruct H as (w1 & gw & Hgw & H).
  apply lift_ok in Hgw. destruct Hgw as [-> Hgw].
  apply bind_ok in H. destruct H as (w1 & W' & HW' & H).
  apply lift_ok in HW'. destruct HW' as [-> HW'].
  apply bind_ok in H. destruct H as (w1 & ws & Hws & H).
  apply lift_ok in Hws. destruct Hws as [-> Hws].
  apply bind_ok in H. destruct H as (w1 & [] & Hmod & H).
  apply modify_self_ok in Hmod. subst w1.
  apply bind_ok in H. destruct H as (w1 & m & Hm & H).
  apply get_self_ok in Hm. destruct Hm as [-> ->].
  apply bind_ok in H. destruct H as (w1 & b & Hb & H).
  apply lift_ok in Hb. destruct Hb as [-> Hb].
  apply bind_ok in H. destruct H as (w1 & gb & Hgb & H).
  apply lift_ok in Hgb. destruct Hgb as [-> Hgb].
  apply bind_ok in H. destruct H as (w1 & b' & Hb' & H).
  apply lift_ok in Hb'. destruct Hb' as [-> Hb'].
  apply bind_ok in H. destruct H as (w1 & bs & Hbs & H).
  apply lift_ok in Hbs. destruct Hbs as [-> Hbs].
  apply modify_self_ok in H. subst w'.
  cbn [self biases weights learning_rate set_weights set_biases] in *.
  apply getitem_ok in HW, Hb, Hgw, Hgb.
  exists W, gw, W', b, gb, b'. auto 10.
Qed.


Lemma inplace2_stepped lr (P G P' : array) :
  shape G = shape P ->
  inplace2 fsub P (amap (fun v => fmul lr v) G) = Ok P' ->
  stepped lr P G P'.
Proof.
  intros Hs H. split; [eapply inplace2_shape; exact H|].
  intros r c Hr Hc. rewrite (inplace2_item _ _ _ H).
  unfold shape in Hs. apply pair_equal_spec in Hs. destruct Hs as [E1 E2].
  rewrite bitem_in_range by (cbn [amap nrows ncols]; congruence).
  reflexivity.
Qed.


Lemma fits_same_shapes grads params params' :
  map shape params' = map shape params ->
  fits grads params -> fits grads params'.
Proof.
  intros Hs Hf i G P' HG HP'.
  apply (map_nth_error shape) in HP'. rewrite Hs in HP'.
  rewrite nth_error_map in HP'.
  destruct (nth_error params i) as [P|] eqn:E; [|discriminate].
  cbn [option_map] in HP'.
  assert (HsP : shape P = shape P') by congruence.
  rewrite <- HsP. eapply Hf; eauto.
Qed.

Lemma same_shapes_fit grads params :
  map shape grads = map shape params -> fits grads params.
Proof.
  intros Hs i G P HG HP.
  apply (map_nth_error shape) in HG, HP. congruence.
Qed.

(** The loop of [update_weights] over the layers [s, s + n): the
    parameters of those layers are stepped, the others are left. *)
Lemma update_loop_effect grads_w grads_b n :
  forall s w w' u,
    for_each (seq s n) (update_layer grads_w grads_b) tt w = (w', Ok u) ->
    fits grads_w (weights (self w)) ->
    fits grads_b (biases (self w)) ->
    forall i,
      (s <= i < s + n ->
       exists W G W' b H b',
         nth_error (weights (self w)) i = Some W /\
         nth_error grads_w i = Some G /\
         nth_error (weights (self w')) i = Some W' /\
         stepped (learning_rate (self w)) W G W' /\
         nth_error (biases (self w)) i = Some b /\
         nth_error grads_b i = Some H /\
         nth_error (biases (self w')) i = Some b' /\
         stepped (learning_rate (self w)) b H b') /\
      (i < s \/ s + n <= i ->
       nth_error (weights (self w')) i = nth_error (weights (self w)) i /\
       nth_error (biases (self w')) i = nth_error (biases (self w)) i).
Proof.
  induction n as [|n IH]; intros s w w' u H Hgw Hgb i.
  - apply ret_ok in H. destruct H as [-> _]. split; [lia | auto].
  - change (seq s (S n)) with (s :: seq (S s) n) in H.
    rewrite for_each_cons in H.
    apply bind_ok in H. destruct H as (w1 & [] & H1 & H).
    pose proof (update_layer_ok _ _ _ _ H1) as ((Hsw & Hsb & Hfr) & _).
    apply update_layer_effect in H1.
    destruct H1 as (W & G & W' & b & Hb & b' &
                    HW & HG & HW' & Hws & Hbb & HH & Hb' & Hbs).
    apply setitem_nth_error in Hws, Hbs.
    destruct Hws as [Hws1 Hws2], Hbs as [Hbs1 Hbs2].
    assert (Hlr : learning_rate (self w1) = learning_rate (self w))
      by (apply (f_equal learning_rate) in Hfr; exact Hfr).
    specialize (IH (S s) w1 w' u H
                  (@fits_same_shapes _ _ _ Hsw Hgw)
                  (@fits_same_shapes _ _ _ Hsb Hgb) i).
    rewrite Hlr in IH. destruct IH as [IHin IHout].
    split.
    + intros Hi. destruct (Nat.eq_dec i s) as [->|Hne].
      * destruct (IHout ltac:(lia)) as [Ew Eb].
        exists W, G, W', b, Hb, b'.
        split; [exact HW|]. split; [exact HG|].
        split; [rewrite Ew; exact Hws1|].
        split.
        { apply inplace2_stepped; [|exact HW']. eapply Hgw; eauto. }
        split; [exact Hbb|]. split; [exact HH|].
        split; [rewrite Eb; exact Hbs1|].
        apply inplace2_stepped; [|exact Hb']. eapply Hgb; eauto.
      * destruct (IHin ltac:(lia))
          as (W0 & G0 & W0' & b0 & H0 & b0' & A1 & A2 & A3 & A4 & A5 & A6 & A7 & A8).
        rewrite Hws2 in A1 by exact Hne. rewrite Hbs2 in A5 by exact Hne.
        exists W0, G0, W0', b0, H0, b0'. auto 10.
    + intros Hi. destruct (IHout ltac:(lia)) as [Ew Eb].
      rewrite Ew, Eb, Hws2, Hbs2 by lia. auto.
Qed.

(** X7.  [update_weights] is one step of plain gradient descent: given one
    gradient of matching shape per parameter it returns, and every entry
    of every weight matrix and bias row has become
    [entry - learning_rate * gradient entry].  Shapes, configuration, loss
    histories, the random state and the output are untouched: no
    momentum, no weight decay, no clipping. *)
Theorem update_weights_is_a_gradient_step
        (grads_w grads_b : list array) (w : World) :
  length (biases (self w)) = length (weights (self w)) ->
  map shape grads_w = map shape (weights (self w)) ->
  map shape grads_b = map shape (biases (self w)) ->
  exists w',
    update_weights grads_w grads_b w = (w', Ok tt) /\
    np_random w' = np_random w /\ stdout w' = stdout w /\
    updated (self w) (self w') /\
    (forall i W G,
        nth_error (weights (self w)) i = Some W ->
        nth_error grads_w i = Some G ->
        exists W',
          nth_error (weights (self w')) i = Some W' /\
          shape W' = shape W /\
          forall r c, r < nrows W -> c < ncols W ->
            item W' r c
            = fsub (item W r c)
                   (fmul (learning_rate (self w)) (item G r c))) /\
    (forall i b G,
        nth_error (biases (self w)) i = Some b ->
        nth_error grads_b i = Some G ->
        exists b',
          nth_error (biases (self w')) i = Some b' /\
          shape b' = shape b /\
          forall r c, r < nrows b -> c < ncols b ->
            item b' r c
            = fsub (item b r c)
                   (fmul (learning_rate (self w)) (item G r c))).
Proof.
  intros Hlb Hgw Hgb.
  destruct (@update_weights_succeeds _ grads_w grads_b w Hlb Hgw Hgb)
    as [w' H].
  exists w'. split; [exact H|].
  pose proof (update_weights_ok _ _ _ H) as (Hupd & Hg & Ho).
  split; [exact Hg|]. split; [exact Ho|]. split; [exact Hupd|].
  unfold update_weights in H.
  apply bind_ok in H. destruct H as (w1 & m & Hm & H).
  apply get_self_ok in Hm. destruct Hm as [-> ->].
  unfold range in H.
  pose proof (@update_loop_effect grads_w grads_b _ _ _ _ _ H (@same_shapes_fit _ _ Hgw)
                (@same_shapes_fit _ _ Hgb)) as Heff.
  split.
  - intros i W G HW HG.
    assert (Hi : i < length (weights (self w)))
      by (apply nth_error_Some; congruence).
    destruct (Heff i) as [Hin _].
    destruct (Hin ltac:(lia))
      as (W0 & G0 & W0' & _ & _ & _ & A1 & A2 & A3 & A4 & _).
    rewrite HW in A1. rewrite HG in A2.
    inversion A1; inversion A2; subst W0 G0.
    exists W0'. split; [exact A3|]. exact A4.
  - intros i b G Hb HG.
    assert (Hi : i < length (weights (self w)))
      by (rewrite <- Hlb; apply nth_error_Some; congruence).
    destruct (Heff i) as [Hin _].
    destruct (Hin ltac:(lia))
      as (_ & _ & _ & b0 & G0 & b0' & _ & _ & _ & _ & A5 & A6 & A7 & A8).
    rewrite Hb in A5. rewrite HG in A6.
    inversion A5; inversion A6; subst b0 G0.
    exists b0'. split; [exact A7|]. exact A8.
Qed.


Lemma update_layer_runs grads_w grads_b i w W G b H :
  nth_error (weights (self w)) i = Some W ->
  nth_error grads_w i = Some G -> shape G = shape W ->
  nth_error (biases (self w)) i = Some b ->
  nth_error grads_b i = Some H -> shape H = shape b ->
  exists w', update_layer grads_w grads_b i tt w = (w', Ok tt).
Proof.
  intros HW HG HsG Hb HH HsH.
  destruct (@inplace2_same_shape _ fsub W
              (amap (fun v => fmul (learning_rate (self w)) v) G))
    as [W1 HW1]; [rewrite <- HsG; reflexivity|].
  destruct (@inplace2_same_shape _ fsub b
              (amap (fun v => fmul (learning_rate (self w)) v) H))
    as [b1 Hb1]; [rewrite <- HsH; reflexivity|].
  destruct (@setitem_lt _ (weights (self w)) i W1) as [ws Hws];
    [apply nth_error_Some; congruence|].
  destruct (@setitem_lt _ (biases (self w)) i b1) as [bs Hbs];
    [apply nth_error_Some; congruence|].
  unfold update_layer, bind, get_self, lift, modify_self, getitem.
  rewrite HW, HG, HW1, Hws.
  cbn [self biases set_weights learning_rate].
  rewrite Hb, HH, Hb1, Hbs. eauto.
Qed.

(** The loop runs as long as there are gradients. *)
Lemma update_prefix_runs grads_w grads_b n :
  forall s w,
    length (biases (self w)) = length (weights (self w)) ->
    length grads_b = length grads_w ->
    s + n <= length grads_w ->
    length grads_w <= length (weights (self w)) ->
    fits grads_w (weights (self w)) ->
    fits grads_b (biases (self w)) ->
    exists w', for_each (seq s n) (update_layer grads_w grads_b) tt w
               = (w', Ok tt).
Proof.
  induction n as [|n IH]; intros s w Hlb Hlg Hs Hk Hgw Hgb.
  - cbn. unfold ret. eauto.
  - change (seq s (S n)) with (s :: seq (S s) n). rewrite for_each_cons.
    destruct (nth_error (weights (self w)) s) as [W|] eqn:EW;
      [|apply nth_error_None in EW; lia].
    destruct (nth_error (biases (self w)) s) as [b|] eqn:Eb;
      [|apply nth_error_None in Eb; lia].
    destruct (nth_error grads_w s) as [G|] eqn:EG;
      [|apply nth_error_None in EG; lia].
    destruct (nth_error grads_b s) as [H|] eqn:EH;
      [|apply nth_error_None in EH; lia].
    destruct (@update_layer_runs grads_w grads_b s w W G b H EW EG
                (Hgw _ _ _ EG EW) Eb EH (Hgb _ _ _ EH Eb)) as [w1 H1].
    unfold bind. rewrite H1.
    apply update_layer_ok in H1. destruct H1 as ((Hsw & Hsb & _) & _).
    assert (Hlw1 : length (weights (self w1)) = length (weights (self w)))
      by (apply (f_equal (@length _)) in Hsw; rewrite !length_map in Hsw;
          exact Hsw).
    assert (Hlb1 : length (biases (self w1)) = length (biases (self w)))
      by (apply (f_equal (@length _)) in Hsb; rewrite !length_map in Hsb;
          exact Hsb).
    apply IH; try lia.
    + eapply fits_same_shapes; eauto.
    + eapply fits_same_shapes; eauto.
Qed.

(** X8.  [update_weights] is not atomic.  Given gradients for the first [k]
    layers only, it raises [IndexError] at layer [k], after it has
    stepped the parameters of the layers before: those stay modified,
    the layers from [k] on are as they were. *)
Theorem update_weights_with_missing_gradients
        (grads_w grads_b : list array) (w : World) :
  length (biases (self w)) = length (weights (self w)) ->
  length grads_b = length grads_w ->
  length grads_w < length (weights (self w)) ->
  fits grads_w (weights (self w)) ->
  fits grads_b (biases (self w)) ->
  exists w',
    update_weights grads_w grads_b w = (w', Err IndexError) /\
    (forall i W G,
        nth_error (weights (self w)) i = Some W ->
        nth_error grads_w i = Some G ->
        exists W',
          nth_error (weights (self w')) i = Some W' /\
          stepped (learning_rate (self w)) W G W') /\
    (forall i b G,
        nth_error (biases (self w)) i = Some b ->
        nth_error grads_b i = Some G ->
        exists b',
          nth_error (biases (self w')) i = Some b' /\
          stepped (learning_rate (self w)) b G b') /\
    (forall i, length grads_w <= i ->
       nth_error (weights (self w')) i = nth_error (weights (self w)) i /\
       nth_error (biases (self w')) i = nth_error (biases (self w)) i).
Proof.
  intros Hlb Hlg Hk Hgw Hgb.
  set (k := length grads_w) in *.
  destruct (@update_prefix_runs grads_w grads_b k 0 w Hlb Hlg
              ltac:(fold k; lia) ltac:(fold k; lia) Hgw Hgb) as [w1 H1].
  pose proof (update_loop_ok _ _ _ _ H1) as ((Hsw & _) & _).
  assert (Hlw1 : length (weights (self w1)) = length (weights (self w)))
    by (apply (f_equal (@length _)) in Hsw; rewrite !length_map in Hsw;
        exact Hsw).
  exists w1. split.
  - unfold update_weights, bind at 1, get_self at 1. unfold range.
    replace (length (weights (self w)))
      with (k + S (length (weights (self w)) - S k)) by lia.
    rewrite seq_app, for_each_app. cbn [Nat.add].
    unfold bind at 1. rewrite H1.
    change (seq k (S (length (weights (self w)) - S k)))
      with (k :: seq (S k) (length (weights (self w)) - S k)).
    rewrite for_each_cons. unfold update_layer.
    unfold bind, get_self, lift.
    destruct (getitem_lt (weights (self w1)) (i:=k)) as [W HW]; [lia|].
    rewrite HW. unfold getitem.
    assert (HG : nth_error grads_w k = None)
      by (apply nth_error_None; apply le_n).
    rewrite HG. reflexivity.
  - pose proof (@update_loop_effect grads_w grads_b _ _ _ _ _ H1 Hgw Hgb) as Heff.
    split.
    + intros i W G HW HG.
      assert (Hi : i < k) by (apply nth_error_Some; congruence).
      destruct (Heff i) as [Hin _].
      destruct (Hin ltac:(lia))
        as (W0 & G0 & W0' & _ & _ & _ & A1 & A2 & A3 & A4 & _).
      rewrite HW in A1. rewrite HG in A2.
      inversion A1; inversion A2; subst W0 G0.
      exists W0'. split; [exact A3 | exact A4].
    + split.
      * intros i b G Hb HG.
        assert (Hi : i < k)
          by (rewrite <- Hlg; apply nth_error_Some; congruence).
        destruct (Heff i) as [Hin _].
        destruct (Hin ltac:(lia))
          as (_ & _ & _ & b0 & G0 & b0' & _ & _ & _ & _ & A5 & A6 & A7 & A8).
        rewrite Hb in A5. rewrite HG in A6.
        inversion A5; inversion A6; subst b0 G0.
        exists b0'. split; [exact A7 | exact A8].
      * intros i Hi. destruct (Heff i) as [_ Hout]. apply Hout. lia.
Qed.

End GradientStep.

(** ** Forward, backward and training composed *)

Section Composition.
Context {Sc : Scalar}.

(** X9.  In either mode [forward] leaves the object and the output alone, and
    what it returns has the shapes of the layers: cached activation [i]
    has one row per example and [layer_sizes[i]] columns, and a recorded
    mask has the shape of the activation it was applied to. *)
Theorem forward_caches_activations_of_layer_shape
        (X : array) (training : bool) (w : World) :
  initialized (self w) ->
  ncols X = input_size (self w) ->
  exists w' acts masks,
    forward X training w = (w', Ok (acts, masks)) /\
    self w' = self w /\ stdout w' = stdout w /\
    (forall i, i <= S (length (hidden_layers (self w))) ->
       exists A, nth_error acts i = Some A /\
                 shape A = (nrows X, nth i (layer_sizes (self w)) 0)) /\
    (forall i mask, nth_error masks i = Some (Some mask) ->
       shape mask = (nrows X, nth (S i) (layer_sizes (self w)) 0)).
Proof.
  intros Hinit HX.
  destruct (@forward_succeeds _ X training w Hinit HX)
    as (w' & acts & masks & Hf).
  exists w', acts, masks. split; [exact Hf|].
  pose proof (forward_trace _ _ _ Hf) as (Hs & Ho & _ & Hlm & _).
  rewrite (initialized_length_weights Hinit) in Hlm.
  destruct (@forward_cache_shapes _ _ _ _ _ _ _ Hinit HX Hf)
    as [Hacts Hmasks].
  split; [exact Hs|]. split; [exact Ho|]. split.
  - intros i Hi. destruct (Hacts i Hi) as (A & HA & Hr & Hc).
    exists A. split; [exact HA|]. unfold shape. congruence.
  - intros i mask Hm.
    assert (Hi : i < S (length (hidden_layers (self w))))
      by (rewrite <- Hlm; apply nth_error_Some; congruence).
    destruct (Hmasks i Hi) as (mk & Hmk & Hsm).
    rewrite Hm in Hmk. inversion Hmk; subst mk. apply Hsm. reflexivity.
Qed.

(** X10.  [backward] on what [forward] returned: with labels in one column,
    one row per example, it returns one gradient per weight matrix and
    one per bias row, each of the shape of its parameter, so that
    [update_weights] can apply them. *)
Theorem gradients_have_the_shapes_of_the_parameters
        (X y : array) (training : bool) (w : World) :
  initialized (self w) ->
  well_shaped (self w) X y ->
  exists w' acts masks grads_w grads_b w'',
    forward X training w = (w', Ok (acts, masks)) /\
    backward (self w') acts y masks = Ok (grads_w, grads_b) /\
    map shape grads_w = map shape (weights (self w)) /\
    map shape grads_b = map shape (biases (self w)) /\
    length grads_w = S (length (hidden_layers (self w))) /\
    length grads_b = S (length (hidden_layers (self w))) /\
    update_weights grads_w grads_b w' = (w'', Ok tt).
Proof.
  intros Hinit [HX Hy].
  destruct (@forward_succeeds _ X training w Hinit HX)
    as (w' & acts & masks & Hf).
  pose proof (forward_trace _ _ _ Hf) as (Hs & _ & Hla & _).
  rewrite (initialized_length_weights Hinit) in Hla.
  destruct (@forward_cache_shapes _ _ _ _ _ _ _ Hinit HX Hf)
    as [Hacts Hmasks].
  destruct (@backward_succeeds _ (self w) acts masks y (nrows X)
              Hinit Hacts Hmasks Hla Hy) as (gw & gb & Hb & Hgw & Hgb).
  destruct (initialized_lengths Hinit) as (Hlw & Hlb & _).
  assert (Hu : exists w'', update_weights gw gb w' = (w'', Ok tt)).
  { apply update_weights_succeeds; rewrite Hs; congruence. }
  destruct Hu as [w'' Hu].
  exists w', acts, masks, gw, gb, w''.
  split; [exact Hf|]. split; [rewrite Hs; exact Hb|].
  split; [exact Hgw|]. split; [exact Hgb|].
  split.
  { apply (f_equal (@length _)) in Hgw. rewrite !length_map in Hgw.
    congruence. }
  split; [|exact Hu].
  apply (f_equal (@length _)) in Hgb. rewrite !length_map in Hgb.
  congruence.
Qed.

Lemma epochs_spec_history X y X_val y_val n :
  forall w w',
    epochs_spec X y X_val y_val n w w' ->
    exists tl vl,
      train_losses (self w') = train_losses (self w) ++ tl /\
      val_losses (self w') = val_losses (self w) ++ vl /\
      length tl = n.
Proof.
  induction n as [|n IH]; intros w w' H.
  - cbn [epochs_spec] in H. rewrite H. exists [], [].
    rewrite !app_nil_r. auto.
  - cbn [epochs_spec] in H. destruct H as (w1 & He & H).
    apply IH in H. destruct H as (tl & vl & Htl & Hvl & Hn).
    destruct He as (acts & masks & w0 & gw & gb & w2 & pred & loss &
                    _ & _ & _ & _ & _ & _ & _ & Htl1 & Hvl1).
    rewrite Htl1 in Htl. rewrite <- app_assoc in Htl.
    eexists. 
    destruct X_val as [Xv|]; [destruct y_val as [yv|]|].
    + destruct Hvl1 as (w3 & va & vm & vp & vloss & _ & _ & _ & _ & Hvl1).
      rewrite Hvl1 in Hvl. rewrite <- app_assoc in Hvl.
      eexists. split; [exact Htl|]. split; [exact Hvl|].
      cbn [app length]. lia.
    + rewrite Hvl1 in Hvl.
      eexists. split; [exact Htl|]. split; [exact Hvl|].
      cbn [app length]. lia.
    + rewrite Hvl1 in Hvl.
      eexists. split; [exact Htl|]. split; [exact Hvl|].
      cbn [app length]. lia.
Qed.

(** X11.  [train] never re-initialises.  After a call the network is still
    initialized, with the configuration and shapes it had; a second call
    therefore returns as well, starts from the weights the first one
    left, and appends its losses after those of the first: the histories
    only grow. *)
Theorem train_resumes_from_the_trained_weights
        (X y : array) (X_val y_val : option array) (w : World) :
  initialized (self w) ->
  well_shaped (self w) X y ->
  validation_well_shaped (self w) X_val y_val ->
  X_val = None \/ y_val <> None ->
  exists w1 w2 first second vfirst vsecond,
    train X y X_val y_val w = (w1, Ok tt) /\
    initialized (self w1) /\
    trained (self w) (self w1) /\
    train X y X_val y_val w1 = (w2, Ok tt) /\
    epochs_spec X y X_val y_val (epochs (self w)) w1 w2 /\
    train_losses (self w1) = train_losses (self w) ++ first /\
    train_losses (self w2) = train_losses (self w) ++ first ++ second /\
    length first = epochs (self w) /\
    length second = epochs (self w) /\
    val_losses (self w1) = val_losses (self w) ++ vfirst /\
    val_losses (self w2) = val_losses (self w) ++ vfirst ++ vsecond.
Proof.
  intros Hinit Hxy Hval Hboth.
  destruct (@train_succeeds _ X y X_val y_val w Hinit Hxy Hval Hboth)
    as (w1 & H1).
  pose proof (@train_ok _ _ _ _ _ _ _ _ H1) as Hspec1.
  pose proof (@epochs_spec_counts _ _ _ _ _ _ _ _ Hspec1) as (Ht1 & _).
  pose proof (@trained_initialized _ _ _ Ht1 Hinit) as Hinit1.
  assert (Hxy1 : well_shaped (self w1) X y).
  { unfold well_shaped in *. rewrite (@trained_input_size _ _ _ Ht1). exact Hxy. }
  assert (Hval1 : validation_well_shaped (self w1) X_val y_val).
  { unfold validation_well_shaped, well_shaped in *.
    rewrite (@trained_input_size _ _ _ Ht1). exact Hval. }
  destruct (@train_succeeds _ X y X_val y_val w1 Hinit1 Hxy1 Hval1 Hboth)
    as (w2 & H2).
  pose proof (@train_ok _ _ _ _ _ _ _ _ H2) as Hspec2.
  rewrite (@trained_epochs _ _ _ Ht1) in Hspec2.
  destruct (@epochs_spec_history _ _ _ _ _ _ _ Hspec1)
    as (tl1 & vl1 & Htl1 & Hvl1 & Hn1).
  destruct (@epochs_spec_history _ _ _ _ _ _ _ Hspec2)
    as (tl2 & vl2 & Htl2 & Hvl2 & Hn2).
  exists w1, w2, tl1, tl2, vl1, vl2.
  split; [exact H1|]. split; [exact Hinit1|]. split; [exact Ht1|].
  split; [exact H2|]. split; [exact Hspec2|].
  split; [exact Htl1|].
  split; [rewrite Htl2, Htl1, app_assoc; reflexivity|].
  split; [exact Hn1|]. split; [exact Hn2|].
  split; [exact Hvl1|].
  rewrite Hvl2, Hvl1, app_assoc. reflexivity.
Qed.

End Composition.

(** ** What a forward pass draws *)

Section ForwardDraws.
Context {Sc : Scalar}.

Lemma dropout_draws_S m training rows s :
  dropout_draws m training rows (seq 0 (S s))
  = dropout_draws m training rows (seq 0 s)
    + (if dropout_applies m training s
       then rows * nth (S s) (layer_sizes m) 0 else 0).
Proof.
  unfold dropout_draws. rewrite seq_S, map_app, list_sum_app.
  simpl. lia.
Qed.

Lemma dropout_draws_inference m rows l : dropout_draws m false rows l = 0.
Proof.
  unfold dropout_draws. induction l as [|i l IH]; [reflexivity|].
  cbn [map]. rewrite dropout_applies_inference. exact IH.
Qed.

(** The loop of [forward] from layer [s] on, with the random state it
    has reached. *)
Lemma forward_loop_draws training rows sm c0 n :
  forall s A acts masks w w' A' acts' masks',
    initialized (self w) ->
    for_each (seq s n) (forward_layer training) (A, acts, masks) w
    = (w', Ok (A', acts', masks')) ->
    nrows A = rows -> length masks = s ->
    np_random w
    = mk_RandomState sm
        (c0 + dropout_draws (self w) training rows (seq 0 s)) ->
    (forall i mask, nth_error masks i = Some (Some mask) ->
       mask_drawn_at sm c0 (self w) training rows i mask) ->
    np_random w'
    = mk_RandomState sm
        (c0 + dropout_draws (self w) training rows (seq 0 (s + n))) /\
    (forall i mask, nth_error masks' i = Some (Some mask) ->
       mask_drawn_at sm c0 (self w) training rows i mask).
Proof.
  induction n as [|n IH];
    intros s A acts masks w w' A' acts' masks' Hinit H Hr Hlm Hg Hm.
  - apply ret_ok in H. destruct H as [-> H]. inversion H; subst.
    rewrite Nat.add_0_r. auto.
  - change (seq s (S n)) with (s :: seq (S s) n) in H.
    rewrite for_each_cons in H.
    apply bind_ok in H. destruct H as (w1 & st1 & H1 & H).
    apply forward_layer_ok in H1.
    destruct H1 as (A1 & A2 & mk & Hact & Hdrop & ->).
    destruct (activate_shape _ _ Hinit Hact) as [Hr1 Hc1].
    pose proof (dropout_frame _ _ _ _ Hdrop) as [Hself _].
    pose proof (dropout_shape _ _ _ _ Hdrop) as Hs2.
    unfold shape in Hs2. apply pair_equal_spec in Hs2.
    destruct Hs2 as [Hr2 _].
    assert (Hstep :
      np_random w1
      = mk_RandomState sm
          (c0 + dropout_draws (self w) training rows (seq 0 (S s))) /\
      forall mask, mk = Some mask ->
        mask_drawn_at sm c0 (self w) training rows s mask).
    { rewrite dropout_draws_S.
      destruct (dropout_applies (self w) training s) eqn:E.
      - destruct (dropout_on training s A1 w E)
          as (rate & A3 & Hrate & _ & Hon).
        unfold rand, draw in Hon. destruct Hon as (Hon & _).
        rewrite Hon in Hdrop. inversion Hdrop; subst w1 A3 mk.
        cbn [np_random]. rewrite Hg. cbn [samples consumed].
        split; [f_equal; rewrite Hr1, Hc1, Hr; lia|].
        intros mask Hmask. inversion Hmask; subst mask.
        exists rate. split; [exact Hrate|].
        intros r c. cbn [gt_as_float amap item]. rewrite Hc1.
        reflexivity.
      - rewrite (dropout_off training s A1 w E) in Hdrop.
        inversion Hdrop; subst w1 A2 mk.
        split; [rewrite Hg, Nat.add_0_r; reflexivity|].
        intros mask Hmask. discriminate. }
    destruct Hstep as [Hg1 Hm1].
    rewrite <- Hself in Hg1.
    eapply IH in H.
    + rewrite Hself in H. replace (s + S n) with (S s + n) by lia.
      exact H.
    + rewrite Hself. exact Hinit.
    + congruence.
    + rewrite length_app. cbn [length]. lia.
    + exact Hg1.
    + rewrite Hself. intros i mask Hi.
      apply nth_error_snoc in Hi.
      destruct Hi as [Hi | [-> Hi]]; [apply Hm; exact Hi|].
      rewrite Hlm. apply Hm1. congruence.
Qed.

(** X12.  [forward] takes from the global random state exactly one sample per
    entry of every activation it masks, layer by layer and row by row,
    and none for the other layers: after the pass the cursor has moved
    by [dropout_draws], and the mask of layer [i] is 1 exactly where the
    sample at its position exceeds the rate.  So the masks are a
    function of the random state at the call, and an inference-mode pass
    moves nothing. *)
Theorem forward_draws_one_sample_per_masked_entry
        (X : array) (training : bool) (w : World) :
  initialized (self w) ->
  ncols X = input_size (self w) ->
  exists w' acts masks,
    forward X training w = (w', Ok (acts, masks)) /\
    np_random w'
    = mk_RandomState (samples (np_random w))
        (consumed (np_random w)
         + dropout_draws (self w) training (nrows X)
             (range (S (length (hidden_layers (self w)))))) /\
    (forall i mask, nth_error masks i = Some (Some mask) ->
       mask_drawn_at (samples (np_random w)) (consumed (np_random w))
                     (self w) training (nrows X) i mask) /\
    dropout_draws (self w) false (nrows X)
      (range (S (length (hidden_layers (self w))))) = 0.
Proof.
  intros Hinit HX.
  destruct (@forward_succeeds _ X training w Hinit HX)
    as (w' & acts & masks & Hf).
  exists w', acts, masks. split; [exact Hf|].
  unfold forward in Hf.
  apply bind_ok in Hf. destruct Hf as (w1 & m & Hm & Hf).
  apply get_self_ok in Hm. destruct Hm as [-> ->].
  apply bind_ok in Hf. destruct Hf as (w1 & [[A' acts'] masks'] & Hloop & Hf).
  apply ret_ok in Hf. destruct Hf as [-> Hf]. inversion Hf; subst.
  rewrite (initialized_length_weights Hinit) in Hloop. unfold range in *.
  destruct (@forward_loop_draws training (nrows X) (samples (np_random w))
              (consumed (np_random w)) _ _ _ _ _ _ _ _ _ _ Hinit Hloop
              eq_refl eq_refl) as [Hg Hmasks].
  - unfold dropout_draws. cbn [seq map list_sum].
    rewrite Nat.add_0_r. destruct (np_random w); reflexivity.
  - intros [|i] mask Hi; discriminate.
  - split; [exact Hg|]. split; [exact Hmasks|].
    apply dropout_draws_inference.
Qed.

End ForwardDraws.

(** ** Which samples decide the masks *)

Section DropoutSamples.
Context {Sc : Scalar}.

Lemma dropout_draws_monotone m training rows i j :
  i <= j ->
  dropout_draws m training rows (seq 0 i)
  <= dropout_draws m training rows (seq 0 j).
Proof.
  induction 1 as [|j Hij IH]; [lia|].
  rewrite dropout_draws_S. lia.
Qed.

(** The samples of a masked layer end where those of the next masked
    layer begin: no two entries of the masks of a pass read the same
    sample. *)
Lemma mask_samples_distinct w training rows i j r c r' c' :
  dropout_applies (self w) training i = true ->
  dropout_applies (self w) training j = true ->
  r < rows -> c < nth (S i) (layer_sizes (self w)) 0 ->
  r' < rows -> c' < nth (S j) (layer_sizes (self w)) 0 ->
  mask_sample w training rows i r c = mask_sample w training rows j r' c' ->
  i = j /\ r = r' /\ c = c'.
Proof.
  intros Hi Hj Hr Hc Hr' Hc' E. unfold mask_sample, dropout_cursor in E.
  assert (Hblock : forall k q d,
             dropout_applies (self w) training k = true ->
             q < rows -> d < nth (S k) (layer_sizes (self w)) 0 ->
             dropout_draws (self w) training rows (seq 0 k)
             + q * nth (S k) (layer_sizes (self w)) 0 + d
             < dropout_draws (self w) training rows (seq 0 (S k))).
  { intros k q d Hk Hq Hd. rewrite dropout_draws_S, Hk. nia. }
  destruct (Nat.lt_trichotomy i j) as [Hlt | [-> | Hlt]].
  - pose proof (Hblock i r c Hi Hr Hc).
    pose proof (@dropout_draws_monotone (self w) training rows (S i) j Hlt).
    lia.
  - split; [reflexivity|].
    set (n := nth (S j) (layer_sizes (self w)) 0) in *.
    assert (r = r') by nia. subst r'. split; [reflexivity | lia].
  - pose proof (Hblock j r' c' Hj Hr' Hc').
    pose proof (@dropout_draws_monotone (self w) training rows (S j) i Hlt).
    lia.
Qed.

(** The masks of a forward pass are read off the random state of the
    call. *)
Lemma forward_masks_drawn X training w w' acts masks :
  initialized (self w) ->
  forward X training w = (w', Ok (acts, masks)) ->
  forall i mask, nth_error masks i = Some (Some mask) ->
    mask_drawn_at (samples (np_random w)) (consumed (np_random w))
                  (self w) training (nrows X) i mask.
Proof.
  intros Hinit Hf.
  unfold forward in Hf.
  apply bind_ok in Hf. destruct Hf as (w1 & m & Hm & Hf).
  apply get_self_ok in Hm. destruct Hm as [-> ->].
  apply bind_ok in Hf. destruct Hf as (w1 & [[A' acts'] masks'] & Hloop & Hf).
  apply ret_ok in Hf. destruct Hf as [-> Hf]. inversion Hf; subst.
  unfold range in *.
  destruct (@forward_loop_draws _ training (nrows X) (samples (np_random w))
              (consumed (np_random w)) _ _ _ _ _ _ _ _ _ _ Hinit Hloop
              eq_refl eq_refl) as [_ Hmasks].
  - unfold dropout_draws. cbn [seq map list_sum].
    rewrite Nat.add_0_r. destruct (np_random w); reflexivity.
  - intros [|i] mask Hi; discriminate.
  - exact Hmasks.
Qed.

(** C4, as the code has it.  On a batch with [input_size] columns
    [forward] returns, and layer [i] (hidden or output) gets inverted
    dropout exactly when the guard [dropout_applies] holds: training
    mode, [i < len(dropout_rates)] and a rate above 0.  Then
    [np.random.rand] is called in the random state of the call advanced
    past the draws of the layers before ([dropout_cursor]), and every
    entry of every mask of the pass reads a sample of its own
    ([mask_sample]).  An entry whose sample exceeds the rate is kept:
    its mask entry is 1 and it is cached times 1, divided by
    [1 - rate].  Any other entry is dropped: its mask entry is 0 and it
    is cached times 0, divided by [1 - rate], which is 0 where the
    arithmetic has [x * 0 = 0] and [0 / (1 - rate) = 0].  The mask is
    recorded.  Otherwise no mask is recorded and the activation is
    cached as computed; that is the case of every layer in inference
    mode and of the output layer whenever [dropout_rates] is no longer
    than the hidden layers. *)
Theorem inverted_dropout_where_configured
        (X : array) (training : bool) (w : World) (i : nat) :
  initialized (self w) ->
  ncols X = input_size (self w) ->
  i <= length (hidden_layers (self w)) ->
  (exists w' acts masks A_prev A A_next mk,
      forward X training w = (w', Ok (acts, masks)) /\
      nth_error acts i = Some A_prev /\
      activate (self w) i A_prev = Ok A /\
      nth_error acts (S i) = Some A_next /\
      nth_error masks i = Some mk /\
      if dropout_applies (self w) training i
      then
        exists rate u mask,
          nth_error (dropout_rates (self w)) i = Some rate /\
          fgt rate zero = true /\
          u = fst (rand (nrows A) (ncols A)
                     (mk_RandomState (samples (np_random w))
                        (dropout_cursor w training (nrows X) i))) /\
          (forall r c,
              item u r c
              = samples (np_random w)
                        (mask_sample w training (nrows X) i r c)) /\
          (forall j r c r' c',
              dropout_applies (self w) training j = true ->
              r < nrows A -> c < ncols A ->
              r' < nrows X -> c' < nth (S j) (layer_sizes (self w)) 0 ->
              mask_sample w training (nrows X) i r c
              = mask_sample w training (nrows X) j r' c' ->
              i = j /\ r = r' /\ c = c') /\
          mk = Some mask /\
          shape mask = shape A /\
          (forall r c, item mask r c
                       = if fgt (item u r c) rate then one else zero) /\
          shape A_next = shape A /\
          (forall r c, r < nrows A -> c < ncols A ->
             item A_next r c
             = fdiv (fmul (item A r c) (item mask r c)) (fsub one rate)) /\
          (forall r c, r < nrows A -> c < ncols A ->
             fgt (item u r c) rate = true ->
             item mask r c = one /\
             item A_next r c
             = fdiv (fmul (item A r c) one) (fsub one rate)) /\
          (forall r c, r < nrows A -> c < ncols A ->
             fgt (item u r c) rate = false ->
             item mask r c = zero /\
             item A_next r c
             = fdiv (fmul (item A r c) zero) (fsub one rate) /\
             (fmul (item A r c) zero = zero ->
              fdiv zero (fsub one rate) = zero ->
              item A_next r c = zero))
      else mk = None /\ A_next = A) /\
  (training = false -> dropout_applies (self w) training i = false) /\
  (length (dropout_rates (self w)) <= i ->
   dropout_applies (self w) training i = false).
Proof.
  intros Hinit HX Hi.
  split; [|split].
  - destruct (@forward_succeeds _ X training w Hinit HX)
      as (w' & acts & masks & Hf).
    pose proof (initialized_length_weights Hinit) as HL.
    destruct (@forward_layer_of_run _ X training w w' acts masks i Hf
                ltac:(lia))
      as (Ap & A & An & mk & Hp & Hact & Hn & Hm & Hcase).
    exists w', acts, masks, Ap, A, An, mk.
    split; [exact Hf|]. split; [exact Hp|]. split; [exact Hact|].
    split; [exact Hn|]. split; [exact Hm|].
    destruct (dropout_applies (self w) training i) eqn:E; [|exact Hcase].
    destruct Hcase as (rate & u0 & mask & Hr & Hgt & _ & -> & Hsm & _ &
                       HsA & Hit).
    destruct (@forward_masks_drawn X training w w' acts masks Hinit Hf
                i mask Hm) as (rate' & Hr' & Hdrawn).
    rewrite Hr in Hr'. inversion Hr'; subst rate'.
    destruct (activate_shape _ _ Hinit Hact) as [HrA HcA].
    destruct (forward_cache_shapes _ _ _ Hinit HX Hf) as [Hacts _].
    destruct (Hacts i ltac:(lia)) as (Ap' & Hp' & HrAp & _).
    rewrite Hp in Hp'. inversion Hp'; subst Ap'.
    assert (Hu : forall r c,
               item (fst (rand (nrows A) (ncols A)
                            (mk_RandomState (samples (np_random w))
                               (dropout_cursor w training (nrows X) i))))
                    r c
               = samples (np_random w)
                         (mask_sample w training (nrows X) i r c)).
    { intros r c. unfold rand, draw, mask_sample.
      cbn [fst item samples consumed]. rewrite HcA. reflexivity. }
    assert (Hmask : forall r c,
               item mask r c
               = if fgt (item (fst (rand (nrows A) (ncols A)
                            (mk_RandomState (samples (np_random w))
                               (dropout_cursor w training (nrows X) i))))
                              r c) rate
                 then one else zero).
    { intros r c. rewrite Hu, Hdrawn. unfold mask_sample, dropout_cursor.
      reflexivity. }
    eexists rate, _, mask.
    split; [exact Hr|]. split; [exact Hgt|]. split; [reflexivity|].
    split; [exact Hu|].
    split.
    { intros j r c r' c' Hj Hr1 Hc1 Hr2 Hc2.
      apply mask_samples_distinct; try assumption; congruence. }
    split; [reflexivity|]. split; [exact Hsm|]. split; [exact Hmask|].
    split; [exact HsA|]. split; [exact Hit|].
    split.
    + intros r c Hr1 Hc1 Hk.
      assert (Hone : item mask r c = one) by (rewrite Hmask, Hk; reflexivity).
      split; [exact Hone|]. rewrite (Hit r c Hr1 Hc1), Hone. reflexivity.
    + intros r c Hr1 Hc1 Hk.
      assert (Hz : item mask r c = zero) by (rewrite Hmask, Hk; reflexivity).
      split; [exact Hz|].
      assert (Hd : item An r c
                   = fdiv (fmul (item A r c) zero) (fsub one rate))
        by (rewrite (Hit r c Hr1 Hc1), Hz; reflexivity).
      split; [exact Hd|].
      intros H1 H2. rewrite Hd, H1, H2. reflexivity.
  - intros ->. reflexivity.
  - apply dropout_applies_beyond.
Qed.

End DropoutSamples.

(** ** What training prints *)

Section Reporting.
Context {Sc : Scalar}.

Lemma total_loss_run y pred alpha loss w :
  binary_cross_entropy y pred = Ok loss ->
  total_loss y pred alpha w
  = (w, Ok (fadd loss (l2_penalty (weights (self w)) alpha))).
Proof.
  intros H. unfold total_loss, bind, lift, get_self, ret. rewrite H.
  reflexivity.
Qed.

(** The validation block with both arrays given. *)
Lemma validate_run X_val y_val val_loss w :
  initialized (self w) ->
  well_shaped (self w) X_val y_val ->
  exists vl,
    validate (Some X_val) (Some y_val) val_loss w
    = (mk_World (set_val_losses (val_losses (self w) ++ [vl]) (self w))
                (np_random w) (stdout w),
       Ok (Some vl)).
Proof.
  intros Hinit [HX Hy].
  destruct (@forward_succeeds _ X_val false w Hinit HX)
    as (w1 & acts & masks & Hf).
  assert (w1 = w)
    by (pose proof (forward_inference_world X_val w) as Hw;
        rewrite Hf in Hw; exact Hw).
  subst w1.
  destruct (@forward_final_shape _ _ _ _ _ _ _ Hinit HX Hf)
    as (out & Hout & Hso).
  destruct (@binary_cross_entropy_succeeds _ y_val out) as [l Hl];
    [congruence|].
  unfold validate. unfold bind at 1. rewrite Hf.
  unfold bind at 1. unfold lift at 1. rewrite Hout.
  unfold bind at 1. unfold get_self at 1.
  unfold bind at 1. rewrite (@total_loss_run _ _ _ _ _ Hl).
  unfold bind, modify_self, ret. eexists. reflexivity.
Qed.

(** An epoch on well-shaped data, with what it appends and prints. *)
Lemma train_epoch_report
      (X y : array) (X_val y_val : option array) (epoch : nat)
      (val_loss : option F) (w : World) :
  initialized (self w) ->
  well_shaped (self w) X y ->
  validation_well_shaped (self w) X_val y_val ->
  X_val = None \/ y_val <> None ->
  exists w' v loss,
    train_epoch X y X_val y_val epoch val_loss w = (w', Ok v) /\
    train_losses (self w')
    = train_losses (self w)
      ++ [fadd loss (l2_penalty (weights (self w')) (l2_lambda (self w')))] /\
    stdout w'
    = stdout w
      ++ (if epoch mod 100 =? 0
          then EpochLoss epoch
                 (fadd loss (l2_penalty (weights (self w')) lit_0_001))
               :: match X_val, v with
                  | Some _, Some vl => [ValLoss vl]
                  | _, _ => []
                  end
          else []) /\
    (X_val <> None ->
     exists vl, v = Some vl /\
                val_losses (self w') = val_losses (self w) ++ [vl]) /\
    (X_val = None ->
     v = val_loss /\ val_losses (self w') = val_losses (self w)).
Proof.
  intros Hinit Hxy Hval Hboth.
  destruct (@learning_steps_succeed _ X y w Hinit Hxy)
    as (w1 & acts & masks & gw & gb & w2 & pred & loss &
        Hf & Hb & Hu & Hp & Hl & Hshape & Hupd).
  pose proof (forward_trace _ _ _ Hf) as (_ & Ho1 & _).
  pose proof (update_weights_ok _ _ _ Hu) as (_ & _ & Ho2).
  rewrite (@train_epoch_run _ X y _ _ _ _ w _ _ _ _ _ _ _ _ Hf Hb Hu Hp Hl).
  set (w3 := mk_World _ _ _).
  assert (Ht3 : trained (self w) (self w3)).
  { eapply trained_trans; [apply updated_trained; exact Hupd|].
    subst w3. unfold trained. cbn. apply updated_refl. }
  assert (Hinit3 : initialized (self w3))
    by (eapply trained_initialized; eauto).
  assert (Htl : train_losses (self w2) = train_losses (self w)).
  { destruct Hupd as (_ & _ & Hfr).
    apply (f_equal train_losses) in Hfr. exact Hfr. }
  assert (Hvl : val_losses (self w2) = val_losses (self w)).
  { destruct Hupd as (_ & _ & Hfr).
    apply (f_equal val_losses) in Hfr. exact Hfr. }
  destruct X_val as [Xv|].
  - destruct y_val as [yv|]; [|destruct Hboth; congruence].
    assert (Hval3 : well_shaped (self w3) Xv yv).
    { unfold validation_well_shaped, well_shaped in *.
      rewrite (@trained_input_size _ _ _ Ht3). exact Hval. }
    destruct (@validate_run Xv yv val_loss w3 Hinit3 Hval3) as [vl Hv].
    unfold bind at 1. rewrite Hv.
    set (w4 := mk_World _ _ _).
    unfold bind at 1. unfold report.
    exists (mk_World (self w4) (np_random w4)
              (stdout w4
               ++ (if epoch mod 100 =? 0
                   then [EpochLoss epoch
                           (fadd loss
                              (l2_penalty (weights (self w4)) lit_0_001));
                         ValLoss vl]
                   else []))),
      (Some vl), loss.
    split.
    { destruct (epoch mod 100 =? 0).
      - unfold bind at 1. rewrite (@total_loss_run _ _ _ _ _ Hl).
        unfold bind, print, ret. cbn [self np_random stdout].
        rewrite <- app_assoc. reflexivity.
      - unfold ret. rewrite app_nil_r. destruct w4; reflexivity. }
    subst w4 w3.
    cbn [self stdout np_random train_losses val_losses weights l2_lambda
         set_train_losses set_val_losses].
    split; [rewrite Htl; reflexivity|].
    split; [destruct (epoch mod 100 =? 0); congruence|].
    split; [|discriminate].
    intros _. exists vl. split; [reflexivity|]. rewrite Hvl. reflexivity.
  - unfold bind at 1. unfold validate, ret at 1.
    unfold bind at 1. unfold report.
    exists (mk_World (self w3) (np_random w3)
              (stdout w3
               ++ (if epoch mod 100 =? 0
                   then [EpochLoss epoch
                           (fadd loss
                              (l2_penalty (weights (self w3)) lit_0_001))]
                   else []))),
      val_loss, loss.
    split.
    { destruct (epoch mod 100 =? 0).
      - unfold bind at 1. rewrite (@total_loss_run _ _ _ _ _ Hl).
        unfold bind, print, ret. reflexivity.
      - unfold ret. rewrite app_nil_r. destruct w3; reflexivity. }
    subst w3.
    cbn [self stdout np_random train_losses val_losses weights l2_lambda
         set_train_losses set_val_losses].
    split; [rewrite Htl; reflexivity|].
    split; [destruct (epoch mod 100 =? 0); congruence|].
    split; [congruence|]. intros _. split; [reflexivity | exact Hvl].
Qed.

(** X13.  What an epoch prints.  At an epoch divisible by 100 the reporting
    block prints the loss of the epoch recomputed with the penalty
    coefficient 0.001, whatever [l2_lambda] is, while the loss appended
    to [train_losses] uses [l2_lambda]: the two agree only in their
    cross-entropy term.  With [X_val] given it then prints the
    validation loss, the very value just appended to [val_losses].  At
    other epochs nothing is printed. *)
Theorem reported_loss_ignores_l2_lambda
        (X y : array) (X_val y_val : option array) (epoch : nat)
        (val_loss : option F) (w : World) :
  initialized (self w) ->
  well_shaped (self w) X y ->
  validation_well_shaped (self w) X_val y_val ->
  X_val = None \/ y_val <> None ->
  exists w' v loss,
    train_epoch X y X_val y_val epoch val_loss w = (w', Ok v) /\
    train_losses (self w')
    = train_losses (self w)
      ++ [fadd loss (l2_penalty (weights (self w')) (l2_lambda (self w')))] /\
    stdout w'
    = stdout w
      ++ (if epoch mod 100 =? 0
          then EpochLoss epoch
                 (fadd loss (l2_penalty (weights (self w')) lit_0_001))
               :: match X_val, v with
                  | Some _, Some vl => [ValLoss vl]
                  | _, _ => []
                  end
          else []) /\
    (X_val <> None ->
     exists vl, v = Some vl /\
                val_losses (self w') = val_losses (self w) ++ [vl]) /\
    (X_val = None ->
     v = val_loss /\ val_losses (self w') = val_losses (self w)).
Proof.
  apply train_epoch_report.
Qed.


Lemma train_loop_reports X y X_val y_val l :
  forall val_loss w,
    initialized (self w) ->
    well_shaped (self w) X y ->
    validation_well_shaped (self w) X_val y_val ->
    X_val = None \/ y_val <> None ->
    exists w' v lines,
      for_each l (train_epoch X y X_val y_val) val_loss w = (w', Ok v) /\
      stdout w' = stdout w ++ lines /\
      map epoch_of lines = report_schedule (is_some X_val) l.
Proof.
  induction l as [|e l IH]; intros val_loss w Hinit Hxy Hval Hboth.
  - exists w, val_loss, []. rewrite app_nil_r. cbn. auto.
  - rewrite for_each_cons.
    destruct (@train_epoch_report X y X_val y_val e val_loss w
                Hinit Hxy Hval Hboth)
      as (w1 & v1 & loss & H1 & _ & Ho1 & Hv1 & _).
    unfold bind. rewrite H1.
    pose proof (train_epoch_ok _ _ _ _ _ _ _ H1) as Hspec.
    destruct Hspec as (acts & masks & w0 & gw & gb & w2 & pred & loss' &
                       _ & _ & _ & _ & Ht & _).
    destruct (IH v1 w1) as (w' & v & lines & H & Ho & Hl).
    + eapply trained_initialized; eauto.
    + unfold well_shaped in *.
      rewrite (@trained_input_size _ _ _ Ht). exact Hxy.
    + unfold validation_well_shaped, well_shaped in *.
      rewrite (@trained_input_size _ _ _ Ht). exact Hval.
    + exact Hboth.
    + exists w', v. eexists. split; [exact H|].
      split; [rewrite Ho, Ho1, <- app_assoc; reflexivity|].
      rewrite map_app, Hl. unfold report_schedule. cbn [flat_map].
      f_equal.
      destruct (e mod 100 =? 0); [|reflexivity].
      destruct X_val as [Xv|]; [|reflexivity].
      destruct (Hv1 ltac:(discriminate)) as (vl & -> & _). reflexivity.
Qed.

(** X14.  What [train] prints: for every epoch index divisible by 100, and for
    no other, the loss line of that epoch, followed by a validation line
    when [X_val] is given; in the order of the epochs.  Epoch 0 is always
    reported, the last epoch only if its index happens to be a multiple
    of 100. *)
Theorem train_reports_every_hundredth_epoch
        (X y : array) (X_val y_val : option array) (w : World) :
  initialized (self w) ->
  well_shaped (self w) X y ->
  validation_well_shaped (self w) X_val y_val ->
  X_val = None \/ y_val <> None ->
  exists w' lines,
    train X y X_val y_val w = (w', Ok tt) /\
    stdout w' = stdout w ++ lines /\
    map epoch_of lines
    = report_schedule (is_some X_val) (range (epochs (self w))).
Proof.
  intros Hinit Hxy Hval Hboth.
  destruct (@train_loop_reports X y X_val y_val (range (epochs (self w)))
              None w Hinit Hxy Hval Hboth) as (w' & v & lines & H & Ho & Hl).
  exists w', lines. split; [|auto].
  unfold train, bind, get_self. rewrite H. reflexivity.
Qed.

End Reporting.

(** ** Validation is passive *)

Section ValidationIsPassive.
Context {Sc : Scalar}.

Lemma same_training_fields wa wb :
  same_training wa wb ->
  weights (self wa) = weights (self wb) /\
  biases (self wa) = biases (self wb) /\
  activation_funcs (self wa) = activation_funcs (self wb) /\
  activation_derivatives (self wa) = activation_derivatives (self wb) /\
  dropout_rates (self wa) = dropout_rates (self wb) /\
  learning_rate (self wa) = learning_rate (self wb) /\
  l2_lambda (self wa) = l2_lambda (self wb) /\
  train_losses (self wa) = train_losses (self wb) /\
  epochs (self wa) = epochs (self wb).
Proof.
  intros [H _].
  repeat split;
    [ apply (f_equal weights) in H | apply (f_equal biases) in H
    | apply (f_equal activation_funcs) in H
    | apply (f_equal activation_derivatives) in H
    | apply (f_equal dropout_rates) in H
    | apply (f_equal learning_rate) in H | apply (f_equal l2_lambda) in H
    | apply (f_equal train_losses) in H | apply (f_equal epochs) in H ];
    exact H.
Qed.

Lemma same_training_initialized wa wb :
  same_training wa wb -> initialized (self wa) -> initialized (self wb).
Proof.
  intros [H _] Hi.
  change (initialized (set_val_losses [] (self wb))).
  rewrite <- H. exact Hi.
Qed.

Lemma same_training_input_size wa wb :
  same_training wa wb -> input_size (self wa) = input_size (self wb).
Proof. intros [H _]. apply (f_equal input_size) in H. exact H. Qed.

Lemma for_each_same_outcome {St} (body : nat -> St -> M St) :
  (forall i s wa wb, same_training wa wb ->
                     same_outcome (body i s wa) (body i s wb)) ->
  forall l s wa wb, same_training wa wb ->
    same_outcome (for_each l body s wa) (for_each l body s wb).
Proof.
  intros Hbody. induction l as [|i l IH]; intros s wa wb HR.
  - split; [reflexivity | exact HR].
  - rewrite !for_each_cons. unfold bind.
    destruct (Hbody i s wa wb HR) as [Hres HR1].
    destruct (body i s wa) as [wa1 [sa|ea]];
      destruct (body i s wb) as [wb1 [sb|eb]];
      cbn [fst snd] in *; try discriminate.
    + inversion Hres; subst sb. apply IH. exact HR1.
    + split; [exact Hres | exact HR1].
Qed.

Lemma forward_layer_same_outcome training i st wa wb :
  same_training wa wb ->
  same_outcome (forward_layer training i st wa)
               (forward_layer training i st wb).
Proof.
  intros HR. pose proof (same_training_fields HR)
    as (Hw & Hb & Hf & _ & Hd & _).
  destruct HR as [Hself Hg].
  destruct st as [[A acts] masks].
  assert (Hact : activate (self wa) i A = activate (self wb) i A)
    by (unfold activate; rewrite Hw, Hb, Hf; reflexivity).
  unfold forward_layer. unfold bind, get_self, lift. rewrite Hact.
  destruct (activate (self wb) i A) as [A1|e];
    [|split; [reflexivity | split; assumption]].
  unfold dropout. unfold bind, get_self, lift, with_random, ret.
  rewrite Hd.
  destruct (training && (i <? length (dropout_rates (self wb))));
    cbv beta; [|split; [reflexivity | split; assumption]].
  destruct (getitem (dropout_rates (self wb)) i) as [rate|e];
    [|split; [reflexivity | split; assumption]].
  destruct (fgt rate zero);
    cbv beta; [|split; [reflexivity | split; assumption]].
  rewrite Hg.
  destruct (rand (nrows A1) (ncols A1) (np_random wb)) as [u g].
  destruct (inplace2 fmul A1 (gt_as_float u rate)) as [A2|e];
    (split; [reflexivity | split; [exact Hself | reflexivity]]).
Qed.

Lemma forward_same_outcome X training wa wb :
  same_training wa wb ->
  same_outcome (forward X training wa) (forward X training wb).
Proof.
  intros HR. pose proof (same_training_fields HR) as (Hw & _).
  unfold forward, bind, get_self. rewrite Hw.
  destruct (@for_each_same_outcome _ (forward_layer training)
              (forward_layer_same_outcome training)
              (range (length (weights (self wb)))) (X, [X], []) wa wb HR)
    as [Hres HR1].
  destruct (for_each _ _ _ wa) as [wa1 [[[Aa actsa] masksa]|ea]];
    destruct (for_each _ _ _ wb) as [wb1 [[[Ab actsb] masksb]|eb]];
    cbn [fst snd] in *; try discriminate.
  - inversion Hres; subst. split; [reflexivity | exact HR1].
  - inversion Hres; subst. split; [reflexivity | exact HR1].
Qed.

Lemma update_layer_same_outcome grads_w grads_b i u wa wb :
  same_training wa wb ->
  same_outcome (update_layer grads_w grads_b i u wa)
               (update_layer grads_w grads_b i u wb).
Proof.
  intros HR. pose proof (same_training_fields HR)
    as (Hw & Hb & _ & _ & _ & Hlr & _).
  destruct HR as [Hself Hg].
  unfold update_layer. unfold bind, get_self, lift, modify_self.
  rewrite Hw, Hlr.
  destruct (getitem (weights (self wb)) i) as [W|e];
    [|split; [reflexivity | split; assumption]].
  destruct (getitem grads_w i) as [G|e];
    [|split; [reflexivity | split; assumption]].
  destruct (inplace2 fsub W _) as [W1|e];
    [|split; [reflexivity | split; assumption]].
  destruct (setitem (weights (self wb)) i W1) as [ws|e];
    [|split; [reflexivity | split; assumption]].
  cbn [self biases learning_rate set_weights np_random stdout].
  rewrite Hb, ?Hlr.
  assert (Hself1 : set_val_losses [] (set_weights ws (self wa))
                   = set_val_losses [] (set_weights ws (self wb))).
  { destruct (self wa), (self wb). cbn in *. inversion Hself; subst.
    reflexivity. }
  destruct (getitem (biases (self wb)) i) as [b|e];
    [|split; [reflexivity | split; [exact Hself1 | exact Hg]]].
  destruct (getitem grads_b i) as [H|e];
    [|split; [reflexivity | split; [exact Hself1 | exact Hg]]].
  destruct (inplace2 fsub b _) as [b1|e];
    [|split; [reflexivity | split; [exact Hself1 | exact Hg]]].
  destruct (setitem (biases (self wb)) i b1) as [bs|e];
    [|split; [reflexivity | split; [exact Hself1 | exact Hg]]].
  split; [reflexivity|]. split; [|exact Hg].
  cbn [self fst].
  destruct (self wa), (self wb). cbn in *. inversion Hself; subst.
  reflexivity.
Qed.

Lemma update_weights_same_outcome grads_w grads_b wa wb :
  same_training wa wb ->
  same_outcome (update_weights grads_w grads_b wa)
               (update_weights grads_w grads_b wb).
Proof.
  intros HR. pose proof (same_training_fields HR) as (Hw & _).
  unfold update_weights, bind, get_self. rewrite Hw.
  apply for_each_same_outcome; [|exact HR].
  intros i s. apply update_layer_same_outcome.
Qed.


Lemma same_training_append_train_loss wa wb v :
  same_training wa wb ->
  same_training
    (mk_World (set_train_losses (train_losses (self wa) ++ [v]) (self wa))
              (np_random wa) (stdout wa))
    (mk_World (set_train_losses (train_losses (self wb) ++ [v]) (self wb))
              (np_random wb) (stdout wb)).
Proof.
  intros [Hself Hg]. split; [|exact Hg]. cbn [self].
  destruct (self wa), (self wb). cbn in *. inversion Hself; subst.
  reflexivity.
Qed.

(** An epoch without validation data and the same epoch with it, run in
    worlds that differ at most in validation history and output. *)
Lemma train_epoch_same_training X y Xv yv e va vb wa wb :
  same_training wa wb ->
  initialized (self wa) ->
  well_shaped (self wa) X y ->
  well_shaped (self wa) Xv yv ->
  exists wa' wb' va' vb',
    train_epoch X y None None e va wa = (wa', Ok va') /\
    train_epoch X y (Some Xv) (Some yv) e vb wb = (wb', Ok vb') /\
    same_training wa' wb' /\
    trained (self wa) (self wa').
Proof.
  intros HR Hinit Hxy Hval.
  destruct (@learning_steps_succeed _ X y wa Hinit Hxy)
    as (w1a & acts & masks & gw & gb & w2a & pred & loss &
        Hf & Hb & Hu & Hp & Hl & Hshape & Hupd).
  pose proof (@forward_same_outcome X true wa wb HR) as [Hres1 HR1].
  rewrite Hf in Hres1, HR1. cbn [fst snd] in Hres1, HR1.
  destruct (forward X true wb) as [w1b r1] eqn:Hfb.
  cbn [fst snd] in Hres1, HR1. subst r1.
  pose proof (same_training_fields HR1) as (Hw1 & _ & _ & Hd1 & _).
  assert (Hbb : backward (self w1b) acts y masks = Ok (gw, gb)).
  { rewrite <- Hb. symmetry.
    apply backward_reads_weights_and_derivatives; assumption. }
  pose proof (@update_weights_same_outcome gw gb w1a w1b HR1)
    as [Hres2 HR2].
  rewrite Hu in Hres2, HR2. cbn [fst snd] in Hres2, HR2.
  destruct (update_weights gw gb w1b) as [w2b r2] eqn:Hub.
  cbn [fst snd] in Hres2, HR2. subst r2.
  pose proof (same_training_fields HR2)
    as (Hw2 & _ & _ & _ & _ & _ & Hl2 & _).
  rewrite (@train_epoch_run _ X y None None e va wa
             _ _ _ _ _ _ _ _ Hf Hb Hu Hp Hl).
  rewrite (@train_epoch_run _ X y (Some Xv) (Some yv) e vb wb
             _ _ _ _ _ _ _ _ Hfb Hbb Hub Hp Hl).
  rewrite <- Hw2, <- Hl2.
  pose proof (@same_training_append_train_loss w2a w2b
                (fadd loss (l2_penalty (weights (self w2a))
                                       (l2_lambda (self w2a)))) HR2) as HR3.
  set (w3a := mk_World _ (np_random w2a) _) in *.
  set (w3b := mk_World _ (np_random w2b) _) in *.
  assert (Ht3 : trained (self wa) (self w3a)).
  { eapply trained_trans; [apply updated_trained; exact Hupd|].
    subst w3a. unfold trained. cbn. apply updated_refl. }
  assert (Hinit3b : initialized (self w3b)).
  { eapply same_training_initialized; [exact HR3|].
    eapply trained_initialized; eauto. }
  assert (Hval3b : well_shaped (self w3b) Xv yv).
  { unfold well_shaped in *.
    rewrite <- (@same_training_input_size _ _ HR3).
    rewrite (@trained_input_size _ _ _ Ht3). exact Hval. }
  destruct (@validate_run _ Xv yv vb w3b Hinit3b Hval3b) as [vl Hv].
  set (w4b := mk_World _ _ _) in Hv.
  assert (HR4 : same_training w3a w4b).
  { destruct HR3 as [Hs3 Hg3]. split; [|exact Hg3].
    subst w4b. cbn [self].
    destruct (self w3a), (self w3b). cbn in *. inversion Hs3; subst.
    reflexivity. }
  destruct (@report_succeeds _ None y pred e va w3a Hshape
              (or_introl eq_refl)) as [w5a Hra].
  destruct (@report_succeeds _ (Some Xv) y pred e (Some vl) w4b Hshape
              ltac:(right; discriminate)) as [w5b Hrb].
  pose proof (report_ok _ _ _ _ _ _ Hra) as [Hsa Hga].
  pose proof (report_ok _ _ _ _ _ _ Hrb) as [Hsb Hgb].
  exists w5a, w5b, va, (Some vl).
  split.
  { unfold bind at 1. unfold validate, ret at 1.
    unfold bind. rewrite Hra. reflexivity. }
  split.
  { unfold bind at 1. rewrite Hv. unfold bind. rewrite Hrb. reflexivity. }
  split.
  { destruct HR4 as [Hs4 Hg4]. split; congruence. }
  unfold trained. rewrite Hsa. exact Ht3.
Qed.

Lemma train_loop_same_training X y Xv yv l :
  forall va vb wa wb,
    same_training wa wb ->
    initialized (self wa) ->
    well_shaped (self wa) X y ->
    well_shaped (self wa) Xv yv ->
    exists wa' wb' va' vb',
      for_each l (train_epoch X y None None) va wa = (wa', Ok va') /\
      for_each l (train_epoch X y (Some Xv) (Some yv)) vb wb
      = (wb', Ok vb') /\
      same_training wa' wb'.
Proof.
  induction l as [|e l IH]; intros va vb wa wb HR Hinit Hxy Hval.
  - exists wa, wb, va, vb. cbn. unfold ret. auto.
  - rewrite !for_each_cons.
    destruct (@train_epoch_same_training X y Xv yv e va vb wa wb
                HR Hinit Hxy Hval)
      as (wa1 & wb1 & va1 & vb1 & Ha & Hb & HR1 & Ht).
    unfold bind. rewrite Ha, Hb.
    apply IH.
    + exact HR1.
    + eapply trained_initialized; eauto.
    + unfold well_shaped in *.
      rewrite (@trained_input_size _ _ _ Ht). exact Hxy.
    + unfold well_shaped in *.
      rewrite (@trained_input_size _ _ _ Ht). exact Hval.
Qed.

Lemma epochs_spec_without_validation X y n :
  forall w w',
    epochs_spec X y None None n w w' ->
    val_losses (self w') = val_losses (self w).
Proof.
  induction n as [|n IH]; intros w w' H.
  - cbn [epochs_spec] in H. rewrite H. reflexivity.
  - cbn [epochs_spec] in H. destruct H as (w1 & He & H).
    apply IH in H. rewrite H.
    destruct He as (acts & masks & w0 & gw & gb & w2 & pred & loss &
                    _ & _ & _ & _ & _ & _ & _ & _ & Hvl).
    exact Hvl.
Qed.

(** X15.  Validation is passive.  Passing validation data to [train] changes
    what is recorded in [val_losses] and what is printed, and nothing
    else: the same call without it ends with the same weights, the same
    biases, the same train losses and the same random state.  The
    validation pass runs in inference mode, draws nothing and updates
    nothing. *)
Theorem validation_data_does_not_influence_training
        (X y X_val y_val : array) (w : World) :
  initialized (self w) ->
  well_shaped (self w) X y ->
  well_shaped (self w) X_val y_val ->
  exists wa wb,
    train X y None None w = (wa, Ok tt) /\
    train X y (Some X_val) (Some y_val) w = (wb, Ok tt) /\
    weights (self wb) = weights (self wa) /\
    biases (self wb) = biases (self wa) /\
    train_losses (self wb) = train_losses (self wa) /\
    np_random wb = np_random wa /\
    val_losses (self wa) = val_losses (self w).
Proof.
  intros Hinit Hxy Hval.
  destruct (@train_loop_same_training X y X_val y_val
              (range (epochs (self w))) None None w w
              (conj eq_refl eq_refl) Hinit Hxy Hval)
    as (wa & wb & va & vb & Ha & Hb & HR).
  exists wa, wb.
  assert (Hta : train X y None None w = (wa, Ok tt))
    by (unfold train, bind, get_self; rewrite Ha; reflexivity).
  split; [exact Hta|].
  split; [unfold train, bind, get_self; rewrite Hb; reflexivity|].
  pose proof (same_training_fields HR)
    as (Hw & Hbs & _ & _ & _ & _ & _ & Htl & _).
  destruct HR as [_ Hg].
  repeat (split; [congruence|]).
  apply train_ok in Hta.
  exact (@epochs_spec_without_validation _ _ _ _ _ Hta).
Qed.

End ValidationIsPassive.

(** ** Concrete runs over the real numbers *)

Module RealFacts.
Import RealModel.
Local Open Scope R_scope.
#[local] Existing Instance RScalar.

Lemma Rgtb_true x y : x > y -> Rgtb x y = true.
Proof.
  unfold Rgtb. destruct (Rgt_dec x y); [reflexivity | contradiction].
Qed.

Lemma Rgtb_false x y : ~ x > y -> Rgtb x y = false.
Proof.
  unfold Rgtb. destruct (Rgt_dec x y); [contradiction | reflexivity].
Qed.

(** Evaluation of a run: unfold everything down to the operations on
    the reals, and decide the comparisons that steer it. *)
Ltac unfold_run :=
  cbv -[Rgtb Rplus Rmult Rminus Rdiv Ropp Rinv IZR exp ln Rmax INR Rgt_dec].

Ltac decide_comparison :=
  match goal with
  | |- context [Rgtb ?a ?b] =>
      first [ rewrite (@Rgtb_true a b) by lra
            | rewrite (@Rgtb_false a b) by lra ]
  end.

Ltac run := unfold_run; repeat (decide_comparison; unfold_run).

Lemma sigmoid_at_zero_weights :
  1 / (1 + exp (- (0 + 1 * (0 * 0.01) + 0))) = 0.5.
Proof.
  replace (- (0 + 1 * (0 * 0.01) + 0)) with 0 by lra.
  rewrite exp_0. lra.
Qed.

(** Construction at concrete arguments. *)
Example unknown_activation_raises :
  snd (new_MLPBinaryClassifier 2%nat [3%nat] ["relu"%string; "tanh"%string]
         None 0.01 2%nat 0.001 idle)
  = Err (KeyError "tanh").
Proof. vm_compute. reflexivity. Qed.

Example activation_count_mismatch_raises :
  snd (new_MLPBinaryClassifier 2%nat [3%nat] ["relu"%string]
         None 0.01 2%nat 0.001 idle)
  = Err (ValueError "# activation functions != # layers").
Proof. vm_compute. reflexivity. Qed.

Example constructed_shapes :
  match snd (new_MLPBinaryClassifier 2%nat [3%nat]
               ["relu"%string; "sigmoid"%string] None 0.01 2%nat 0.001 idle)
  with
  | Ok m => map shape (weights m) = [(2, 3); (3, 1)]%nat /\
            map shape (biases m) = [(1, 3); (1, 1)]%nat /\
            length (dropout_rates m) = 1%nat
  | Err _ => False
  end.
Proof. vm_compute. repeat split; reflexivity. Qed.

(** [train] with [X_val] but without [y_val]: one train loss, then the
    exception of the reporting block. *)
Example x_val_without_y_val_raises :
  exists w',
    train X1 y0 (Some X1) None logistic_world
    = (w', Err (UnboundLocalError "val_loss")) /\
    length (train_losses (self w')) = 1%nat.
Proof. eexists. split; [vm_compute; reflexivity | reflexivity]. Qed.

(** C5 as stated fails: without hidden layers [forward] still returns
    one mask entry, for the output layer. *)
Lemma mask_list_longer_than_hidden_layers :
  exists acts masks,
    forward X1 false logistic_world = (logistic_world, Ok (acts, masks)) /\
    length masks = 1%nat /\
    length (hidden_layers (self logistic_world)) = 0%nat.
Proof.
  eexists. eexists. split; [vm_compute; reflexivity|].
  split; reflexivity.
Qed.

(** C4 as stated fails: without hidden layers and with one dropout rate,
    a training-mode forward pass draws a mask for the output layer; with
    a draw of 0 the output 0.5 of the sigmoid is cached as 0. *)
Lemma output_layer_receives_dropout :
  exists w' A0 A mask,
    hidden_layers (self output_dropout_world) = [] /\
    activate (self output_dropout_world) 0 X1 = Ok A0 /\
    item A0 0%nat 0%nat = 0.5 /\
    forward X1 true output_dropout_world
    = (w', Ok ([X1; A], [Some mask])) /\
    item mask 0%nat 0%nat = 0 /\
    item A 0%nat 0%nat = 0.
Proof.
  eexists. eexists. eexists. eexists.
  split; [reflexivity|].
  split; [unfold_run; reflexivity|].
  split; [unfold_run; apply sigmoid_at_zero_weights|].
  split; [run; reflexivity|].
  split.
  - run. lra.
  - run. lra.
Qed.

(** C2 as stated fails: with zero weights, feature 1 and label 0 the
    activation is 0.5 and the closed form gives 0.5, while [backward]
    returns [0.5 / (0.25 + 1e-8) * 0.25]. *)
Lemma gradient_differs_from_closed_form :
  exists A G gb,
    forward X1 true logistic_world
    = (logistic_world, Ok ([X1; A], [None])) /\
    backward (self logistic_world) [X1; A] y0 [None] = Ok ([G], [gb]) /\
    item A 0%nat 0%nat = 0.5 /\
    item G 0%nat 0%nat
    <> item X1 0%nat 0%nat * (item A 0%nat 0%nat - item y0 0%nat 0%nat).
Proof.
  eexists. eexists. eexists.
  split; [unfold_run; reflexivity|].
  split; [unfold_run; reflexivity|].
  assert (He : exp (- (0 + 1 * (0 * (1 * / 100)) + 0)) = 1)
    by (rewrite <- exp_0; f_equal; lra).
  split.
  - unfold_run. rewrite He. lra.
  - unfold_run. rewrite He. intros H.
    assert (Hi : / (1 / (1 + 1) * (1 - 1 / (1 + 1)) + 1 / 100000000)
                 * (1 / (1 + 1) * (1 - 1 / (1 + 1)) + 1 / 100000000) = 1)
      by (apply Rinv_l; lra).
    unfold Rdiv in H at 1.
    set (i := / (1 / (1 + 1) * (1 - 1 / (1 + 1)) + 1 / 100000000)) in *.
    lra.
Qed.

Lemma logistic_world_initialized : initialized (self logistic_world).
Proof. unfold initialized. repeat split; reflexivity. Qed.

Lemma dropout_world_initialized : initialized (self dropout_world).
Proof. unfold initialized. repeat split; reflexivity. Qed.

Lemma output_dropout_world_initialized :
  initialized (self output_dropout_world).
Proof. unfold initialized. repeat split; reflexivity. Qed.

Lemma logistic_world_well_shaped : well_shaped (self logistic_world) X1 y0.
Proof. split; reflexivity. Qed.

Lemma unit_logistic_world_initialized :
  initialized (self unit_logistic_world).
Proof. unfold initialized. repeat split; reflexivity. Qed.

Lemma kept_dropout_world_initialized :
  initialized (self kept_dropout_world).
Proof. unfold initialized. repeat split; reflexivity. Qed.

Lemma kept_dropout_world_applies :
  dropout_applies (self kept_dropout_world) true 0 = true.
Proof. run. reflexivity. Qed.

Lemma dropout_world_applies :
  dropout_applies (self dropout_world) true 0 = true.
Proof. run. reflexivity. Qed.

(** C1 at a run: one epoch of the network without hidden layers, with
    validation data.  The weight gradient is positive at a changed
    [l2_lambda] too, and both losses are appended. *)
Lemma gradients_ignore_l2_witness :
  initialized (self logistic_world) /\
  well_shaped (self logistic_world) X1 y0 /\
  validation_well_shaped (self logistic_world) (Some X1) (Some y0) /\
  exists w' v acts masks G gb,
    forward X1 true logistic_world = (logistic_world, Ok (acts, masks)) /\
    backward (set_l2_lambda 0.5 (self logistic_world)) acts y0 masks
    = Ok ([G], [gb]) /\
    item G 0%nat 0%nat > 0 /\
    train_epoch X1 y0 (Some X1) (Some y0) 0 None logistic_world
    = (w', Ok (Some v)) /\
    l2_lambda (self w') = 0.001 /\
    length (train_losses (self w')) = 1%nat /\
    length (val_losses (self w')) = 1%nat.
Proof.
  split; [exact logistic_world_initialized|].
  split; [exact logistic_world_well_shaped|].
  split; [exact logistic_world_well_shaped|].
  destruct (@gradients_ignore_l2_but_losses_include_it RScalar 0.5 X1 y0
              (Some X1) (Some y0) 0%nat None logistic_world
              logistic_world_initialized logistic_world_well_shaped
              logistic_world_well_shaped)
    as (_ & w1 & acts & masks & gw & gb & deltas & w2 & pred & loss & w' & r &
        Hf & Hb & _ & _ & _ & H & _ & _ & _ & Htl & Hl2 &
        (v & ->) & (w3 & va & vm & vp & vl & _ & _ & _ & _ & Hvl)).
  assert (Hf' : exists A,
             forward X1 true logistic_world
             = (logistic_world, Ok ([X1; A], [None])) /\
             A = mk_ndarray 1 1 (fun _ _ => 1 / (1 + exp (- (0 + 1 * (0 * (1 * / 100)) + 0))))).
  { eexists. split; [unfold_run; reflexivity|]. reflexivity. }
  destruct Hf' as (A & Hf' & HA).
  rewrite Hf in Hf'. inversion Hf'; subst w1 acts masks. subst A.
  pose proof Hb as Hb'.
  cbv -[Rgtb Rplus Rmult Rminus Rdiv Ropp Rinv IZR exp ln Rmax INR Rgt_dec]
    in Hb'.
  inversion Hb'; subst gw gb. clear Hb'.
  eexists w', v, _, _, _, _.
  split; [exact Hf|]. split; [exact Hb|].
  split.
  { cbn [item].
    replace (exp (- (0 + 1 * (0 * (1 * / 100)) + 0))) with 1
      by (rewrite <- exp_0; f_equal; lra).
    assert (Hd : 0 < / (1 / (1 + 1) * (1 - 1 / (1 + 1)) + 1 / 100000000))
      by (apply Rinv_0_lt_compat; lra).
    unfold Rdiv at 2.
    set (d := / (1 / (1 + 1) * (1 - 1 / (1 + 1)) + 1 / 100000000)) in *.
    clearbody d. nra. }
  split; [exact H|].
  split; [rewrite Hl2; reflexivity|].
  split; [rewrite Htl | rewrite Hvl]; reflexivity.
Defined.

(** C6 at a run: two epochs with validation data. *)
Lemma train_appends_witness :
  initialized (self logistic_world) /\
  well_shaped (self logistic_world) X1 y0 /\
  validation_well_shaped (self logistic_world) (Some X1) (Some y0) /\
  exists w',
    train X1 y0 (Some X1) (Some y0) logistic_world = (w', Ok tt) /\
    length (train_losses (self w')) = 2%nat /\
    length (val_losses (self w')) = 2%nat.
Proof.
  split; [exact logistic_world_initialized|].
  split; [exact logistic_world_well_shaped|].
  split; [exact logistic_world_well_shaped|].
  destruct (@train_appends_one_loss_per_epoch RScalar X1 y0
              (Some X1) (Some y0) logistic_world
              logistic_world_initialized logistic_world_well_shaped
              logistic_world_well_shaped)
    as (Hpaired & _ & _).
  destruct (Hpaired ltac:(right; discriminate)) as (w' & H & _ & Ht & Hv).
  exists w'. split; [exact H|].
  split; [rewrite Ht | rewrite Hv]; reflexivity.
Defined.

(** C5 (as the code has it) at a run. *)
Lemma one_mask_per_layer_witness :
  initialized (self logistic_world) /\
  ncols X1 = input_size (self logistic_world) /\
  exists w' acts masks,
    forward X1 false logistic_world = (w', Ok (acts, masks)) /\
    length masks = 1%nat /\ length acts = 2%nat.
Proof.
  split; [exact logistic_world_initialized|]. split; [reflexivity|].
  destruct (@forward_returns_one_mask_per_layer RScalar X1 false
              logistic_world logistic_world_initialized eq_refl)
    as (w' & acts & masks & H & Hm & Ha & _).
  exists w', acts, masks. split; [exact H|].
  split; [exact Hm | exact Ha].
Defined.

(** C7 at a run: with weight 1 the example with feature 0 has activation
    exactly 0.5 and gets label 0, the example with feature 1 has an
    activation above 0.5 and gets label 1. *)
Lemma predict_witness :
  initialized (self unit_logistic_world) /\
  ncols X_01 = input_size (self unit_logistic_world) /\
  exists labels,
    predict X_01 unit_logistic_world = (unit_logistic_world, Ok labels) /\
    nrows labels = 2%nat /\ ncols labels = 1%nat /\
    item labels 0%nat 0%nat = 0%Z /\
    item labels 1%nat 0%nat = 1%Z.
Proof.
  split; [exact unit_logistic_world_initialized|]. split; [reflexivity|].
  destruct (@predict_thresholds_final_activation RScalar X_01
              unit_logistic_world unit_logistic_world_initialized eq_refl)
    as (labels & acts & masks & out & H & Hf & Hout & _ & Habove & _ &
        Hhalf & Hr & Hc & _).
  exists labels. split; [exact H|]. split; [exact Hr|]. split; [exact Hc|].
  assert (Hf' : exists A,
             forward X_01 false unit_logistic_world
             = (unit_logistic_world, Ok ([X_01; A], [None])) /\
             item A 0%nat 0%nat = 0.5 /\
             item A 1%nat 0%nat > 0.5).
  { eexists. split; [unfold_run; reflexivity|].
    unfold_run. split.
    - replace (- (0 + 0 * (100 * (1 * / 100)) + 0)) with 0 by lra.
      rewrite exp_0. lra.
    - replace (- (0 + 1 * (100 * (1 * / 100)) + 0)) with (- 1) by lra.
      assert (He : 0 < exp (- 1) < 1).
      { split; [apply exp_pos|].
        rewrite <- exp_0. apply exp_increasing. lra. }
      set (e := exp (- 1)) in *. clearbody e.
      assert (Hi : / (1 + e) * (1 + e) = 1) by (apply Rinv_l; lra).
      assert (Hp : 0 < / (1 + e)) by (apply Rinv_0_lt_compat; lra).
      unfold Rdiv. set (i := / (1 + e)) in *. clearbody i. nra. }
  destruct Hf' as (A & Hf' & HA0 & HA1).
  rewrite Hf in Hf'. inversion Hf'; subst acts masks.
  cbn in Hout. inversion Hout; subst out.
  split.
  - apply Hhalf. exact HA0.
  - apply Habove. apply Rgtb_true. exact HA1.
Defined.

(** C10 at a run: one rate for the one layer transition, and the output
    layer gets a mask. *)
Lemma dropout_rates_witness :
  initialized (self output_dropout_world) /\
  ncols X1 = input_size (self output_dropout_world) /\
  hidden_layers (self output_dropout_world) = [] /\
  exists w' acts masks mask,
    forward X1 true output_dropout_world = (w', Ok (acts, masks)) /\
    nth_error masks 0 = Some (Some mask).
Proof.
  split; [exact output_dropout_world_initialized|].
  split; [reflexivity|]. split; [reflexivity|].
  destruct (@dropout_rates_never_rejected RScalar 1%nat [] ["sigmoid"%string]
              (Some [0.5]) 0.01 2%nat 0.001 idle X1 output_dropout_world
              output_dropout_world_initialized eq_refl)
    as (_ & _ & _ & _ & w' & acts & masks & H & _ & Hout).
  destruct (Hout 0.5) as [mask Hmask];
    [reflexivity | apply Rgtb_true; cbn; lra |].
  exists w', acts, masks, mask. split; [exact H | exact Hmask].
Defined.

(** C4 (as the code has it) at a run: the draw of 100 keeps the hidden
    unit with rate 0.5; its mask entry is 1 and its activation 1 is
    cached as 2. *)
Lemma inverted_dropout_witness :
  initialized (self kept_dropout_world) /\
  ncols X1 = input_size (self kept_dropout_world) /\
  (0 <= length (hidden_layers (self kept_dropout_world)))%nat /\
  exists w' acts masks A A_next mask,
    forward X1 true kept_dropout_world = (w', Ok (acts, masks)) /\
    activate (self kept_dropout_world) 0 X1 = Ok A /\
    nth_error acts 1 = Some A_next /\
    nth_error masks 0 = Some (Some mask) /\
    item mask 0%nat 0%nat = 1 /\
    item A 0%nat 0%nat = 1 /\
    item A_next 0%nat 0%nat = 2.
Proof.
  split; [exact kept_dropout_world_initialized|]. split; [reflexivity|].
  split; [apply Nat.le_0_l|].
  destruct (@inverted_dropout_where_configured RScalar X1 true
              kept_dropout_world 0%nat kept_dropout_world_initialized
              eq_refl (Nat.le_0_l _))
    as ((w' & acts & masks & Ap & A & An & mk & H & Hp & Hact & Hn & Hmk &
         Hcase) & _).
  rewrite kept_dropout_world_applies in Hcase.
  destruct Hcase as (rate & u & mask & Hrate & _ & _ & Hu & _ & -> & _ & _ &
                     _ & _ & Hkept & _).
  pose proof (forward_trace _ _ _ H) as (_ & _ & _ & _ & H0 & _).
  rewrite Hp in H0. inversion H0; subst Ap.
  destruct (activate_shape _ _ kept_dropout_world_initialized Hact)
    as [HrA HcA].
  cbn in Hrate. inversion Hrate; subst rate.
  destruct (Hkept 0%nat 0%nat) as [Hone Hnext].
  - rewrite HrA. cbn. lia.
  - rewrite HcA. cbn. lia.
  - rewrite Hu. apply Rgtb_true. cbn. lra.
  - assert (HA : item A 0%nat 0%nat = 1).
    { clear - Hact. unfold activate in Hact.
      cbv -[Rgtb Rplus Rmult Rminus Rdiv Ropp Rinv IZR exp ln Rmax INR Rgt_dec]
        in Hact.
      inversion Hact; subst A. cbn [item].
      rewrite Rmax_right by lra. lra. }
    exists w', acts, masks, A, An, mask.
    repeat (split; [assumption|]).
    rewrite Hnext, HA. cbn. lra.
Defined.

(** C3 at a run: the mask of the hidden layer, reused at layer 1. *)
Lemma backward_mask_witness :
  initialized (self dropout_world) /\
  ncols X1 = input_size (self dropout_world) /\
  (0 < 1)%nat /\
  (1 <= length (hidden_layers (self dropout_world)))%nat /\
  shape X1 = (nrows X1, nth 2 (layer_sizes (self dropout_world)) 0%nat) /\
  exists w' acts masks delta' g mask,
    forward X1 true dropout_world = (w', Ok (acts, masks)) /\
    backward_layer (self dropout_world) acts masks 1 (X1, [], [])
    = Ok (delta', [g], [sum_axis0_keepdims X1]) /\
    nth_error masks 0 = Some (Some mask) /\
    forall r c, bitem mask r c = 0 -> item delta' r c = 0.
Proof.
  split; [exact dropout_world_initialized|]. split; [reflexivity|].
  split; [apply Nat.lt_0_1|]. split; [apply le_n|]. split; [reflexivity|].
  destruct (@backward_reuses_forward_mask RScalar X1 dropout_world 1%nat X1
              [] [] dropout_world_initialized eq_refl Nat.lt_0_1 (le_n 1)
              eq_refl)
    as (w' & acts & masks & delta' & g & a & W & deriv & back & pre &
        Hf & Hb & _ & _ & _ & _ & _ & _ & _ & Hcase).
  cbn [Nat.sub] in Hcase.
  destruct (nth_error masks 0) as [[mask|]|] eqn:Em; [| |contradiction].
  - destruct Hcase as (_ & _ & _ & _ & _ & Hzero).
    exists w', acts, masks, delta', g, mask.
    split; [exact Hf|]. split; [exact Hb|]. split; [exact Em|].
    intros r c E. rewrite (Hzero r c E). cbn. lra.
  - destruct Hcase as [Hno _].
    rewrite dropout_world_applies in Hno. discriminate.
Defined.

(** C2 (as the code has it) at a run. *)
Lemma logistic_gradient_witness :
  exists W b A G gb,
    weights (self logistic_world) = [W] /\
    biases (self logistic_world) = [b] /\
    activation_funcs (self logistic_world) = [sigmoid] /\
    activation_derivatives (self logistic_world) = [sigmoidDerivative] /\
    Forall (fun r => r = zero) (dropout_rates (self logistic_world)) /\
    shape X1 = (1%nat, 1%nat) /\ shape W = (1%nat, 1%nat) /\
    shape b = (1%nat, 1%nat) /\ shape y0 = (1%nat, 1%nat) /\
    backward (self logistic_world) [X1; A] y0 [None] = Ok ([G], [gb]) /\
    shape G = (1%nat, 1%nat).
Proof.
  exists (nth 0 (weights (self logistic_world)) (zeros 0 0)),
         (nth 0 (biases (self logistic_world)) (zeros 0 0)).
  destruct (@logistic_gradient_with_stabiliser RScalar logistic_world X1 y0
              (nth 0 (weights (self logistic_world)) (zeros 0 0))
              (nth 0 (biases (self logistic_world)) (zeros 0 0))
              1%nat 1%nat eq_refl eq_refl eq_refl eq_refl
              (Forall_nil _) eq_refl eq_refl eq_refl eq_refl)
    as (A & G & gb & _ & _ & _ & Hb & HsG & _).
  exists A, G, gb.
  repeat (split; [reflexivity|]).
  split; [apply Forall_nil|].
  repeat (split; [reflexivity|]).
  split; [exact Hb | exact HsG].
Defined.

End RealFacts.

(** ** The registered functions over the real numbers *)

Module RealAnalysis.
Import RealModel RealFacts.
Local Open Scope R_scope.
#[local] Existing Instance RScalar.

Lemma sigmoid_item (x : array) r c :
  item (sigmoid x) r c = 1 / (1 + exp (- item x r c)).
Proof. reflexivity. Qed.

Lemma logistic_bounds v : 0 < 1 / (1 + exp (- v)) < 1.
Proof.
  pose proof (exp_pos (- v)) as He.
  split.
  - apply Rdiv_lt_0_compat; lra.
  - apply (Rmult_lt_reg_r (1 + exp (- v))); [lra|].
    unfold Rdiv. rewrite Rmult_assoc, Rinv_l by lra. lra.
Qed.

Lemma relu_item (x : array) r c : item (relu x) r c = Rmax 0 (item x r c).
Proof. reflexivity. Qed.

Lemma reluDerivative_item (x : array) r c :
  item (reluDerivative x) r c = if Rgtb (item x r c) 0 then 1 else 0.
Proof. reflexivity. Qed.

Lemma relu_derivative_positive v :
  0 < v -> derivable_pt_lim (fun t => Rmax 0 t) v 1.
Proof.
  intros Hv eps Heps. exists (mkposreal v Hv). cbn [pos].
  intros h Hh Hhd.
  assert (Hb : - v < h) by (apply Rabs_def2 in Hhd; lra).
  rewrite !Rmax_right by lra.
  replace ((v + h - v) / h - 1) with 0 by (field; exact Hh).
  rewrite Rabs_R0. exact Heps.
Qed.

Lemma relu_derivative_negative v :
  v < 0 -> derivable_pt_lim (fun t => Rmax 0 t) v 0.
Proof.
  intros Hv eps Heps.
  assert (Hp : 0 < - v) by lra.
  exists (mkposreal (- v) Hp). cbn [pos].
  intros h Hh Hhd.
  assert (Hb : h < - v) by (apply Rabs_def2 in Hhd; lra).
  rewrite !Rmax_left by lra.
  replace ((0 - 0) / h - 0) with 0 by (field; exact Hh).
  rewrite Rabs_R0. exact Heps.
Qed.

(** X18.  For "relu" as well the derivative may be read off the activation:
    [reluDerivative] gives the same on [relu(x)] as on [x], and away from
    the kink at 0 it is the derivative of [relu].  [relu] is idempotent
    and never negative. *)
Theorem reluDerivative_of_the_activation_is_the_derivative (v : R) :
  v <> 0 ->
  derivable_pt_lim (pointwise relu) v
    (pointwise reluDerivative (pointwise relu v)) /\
  (forall (x : array) r c,
      item (reluDerivative (relu x)) r c = item (reluDerivative x) r c /\
      item (relu (relu x)) r c = item (relu x) r c /\
      0 <= item (relu x) r c /\
      (item (reluDerivative x) r c = 0 \/ item (reluDerivative x) r c = 1)).
Proof.
  intros Hv. split.
  - change (pointwise reluDerivative (pointwise relu v))
      with (if Rgtb (Rmax 0 v) 0 then 1 else 0).
    destruct (Rlt_le_dec 0 v) as [Hpos|Hneg].
    + rewrite Rmax_right by lra. rewrite Rgtb_true by lra.
      apply relu_derivative_positive. exact Hpos.
    + rewrite Rmax_left by lra. rewrite (@Rgtb_false 0 0) by lra.
      apply relu_derivative_negative. lra.
  - intros x r c. rewrite !reluDerivative_item, !relu_item.
    set (a := item x r c).
    destruct (Rlt_le_dec 0 a) as [Hpos|Hneg].
    + rewrite !Rmax_right by (try rewrite Rmax_right; lra).
      rewrite Rgtb_true by lra.
      repeat split; try lra; auto.
    + rewrite !Rmax_left by (try rewrite Rmax_left; lra).
      rewrite (@Rgtb_false 0 0) by lra. rewrite (@Rgtb_false a 0) by lra.
      repeat split; try lra; auto.
Qed.

End RealAnalysis.

(** ** Loss and regulariser over the real numbers *)

Module RealLosses.
Import RealModel RealFacts.
Local Open Scope R_scope.
#[local] Existing Instance RScalar.

Lemma in_ravel {T} (A : ndarray T) v :
  In v (ravel A) ->
  exists i j, (i < nrows A)%nat /\ (j < ncols A)%nat /\ v = item A i j.
Proof.
  unfold ravel, to_rows. intros H.
  apply in_concat in H. destruct H as (row & Hrow & Hv).
  apply in_map_iff in Hrow. destruct Hrow as (i & <- & Hi).
  apply in_map_iff in Hv. destruct Hv as (j & <- & Hj).
  apply in_seq in Hi, Hj. exists i, j. repeat split; lia.
Qed.

Lemma length_ravel {T} (A : ndarray T) :
  length (ravel A) = (nrows A * ncols A)%nat.
Proof.
  unfold ravel, to_rows. rewrite length_concat, map_map.
  assert (H : forall n s,
             list_sum
               (map (fun i => length (map (fun j => item A i j)
                                          (seq 0 (ncols A)))) (seq s n))
             = (n * ncols A)%nat).
  { induction n as [|n IH]; intros s; [reflexivity|].
    cbn [seq map]. rewrite length_map, length_seq.
    change (list_sum (?x :: ?l)) with (x + list_sum l)%nat.
    rewrite IH. lia. }
  apply H.
Qed.

Lemma sum_upper_bound (l : list R) (L a : R) :
  (forall v, In v l -> v <= L) ->
  fold_left Rplus l a <= a + INR (length l) * L.
Proof.
  revert a. induction l as [|x l IH]; intros a H.
  - cbn. lra.
  - cbn [fold_left]. 
    specialize (IH (a + x) (fun v Hv => H v (or_intror Hv))).
    pose proof (H x (or_introl eq_refl)) as Hx.
    cbn [length]. rewrite S_INR. lra.
Qed.

Lemma sum_of_equal_terms (l : list R) (L a : R) :
  (forall v, In v l -> v = L) ->
  fold_left Rplus l a = a + INR (length l) * L.
Proof.
  revert a. induction l as [|x l IH]; intros a H.
  - cbn. lra.
  - cbn [fold_left].
    rewrite (IH (a + x) (fun v Hv => H v (or_intror Hv))).
    rewrite (H x (or_introl eq_refl)).
    cbn [length]. rewrite S_INR. lra.
Qed.

Lemma sum_nonnegative (l : list R) (a : R) :
  (forall v, In v l -> 0 <= v) -> 0 <= a -> 0 <= fold_left Rplus l a.
Proof.
  revert a. induction l as [|x l IH]; intros a H Ha.
  - exact Ha.
  - cbn [fold_left]. apply IH.
    + intros v Hv. apply H. right. exact Hv.
    + pose proof (H x (or_introl eq_refl)). lra.
Qed.

Lemma l2_penalty_nonnegative (ws : list array) (alpha : R) :
  0 <= alpha -> 0 <= l2_penalty ws alpha.
Proof.
  intros Ha. unfold l2_penalty. cbn [fmul fadd zero RScalar].
  apply Rmult_le_pos; [exact Ha|].
  apply sum_nonnegative; [|lra].
  intros v Hv. apply in_map_iff in Hv. destruct Hv as (W & <- & _).
  unfold np_sum, fsum. cbn [fadd zero RScalar].
  apply sum_nonnegative; [|lra].
  intros x Hx. apply in_ravel in Hx. destruct Hx as (i & j & _ & _ & ->).
  cbn [amap item fmul RScalar]. nra.
Qed.

(** X19.  The regulariser never rewards: for a coefficient that is not
    negative [l2_penalty] is not negative, whatever the weights, so
    every loss [train] records or prints is at least the cross-entropy
    it contains.  It vanishes at coefficient 0 and for an empty list of
    weights. *)
Theorem l2_penalty_only_adds_to_the_loss
        (ws : list array) (alpha : R) :
  0 <= alpha ->
  0 <= l2_penalty ws alpha /\
  l2_penalty ws 0 = 0 /\
  l2_penalty [] alpha = 0 /\
  forall (y pred : array) (w w' : World) (v : R),
    total_loss y pred alpha w = (w', Ok v) ->
    exists loss, binary_cross_entropy y pred = Ok loss /\ loss <= v.
Proof.
  intros Ha.
  split; [apply l2_penalty_nonnegative; exact Ha|].
  split; [unfold l2_penalty; cbn [fmul RScalar]; lra|].
  split; [unfold l2_penalty; cbn; lra|].
  intros y pred w w' v H.
  apply (@total_loss_ok RScalar) in H. destruct H as (_ & loss & Hl & ->).
  exists loss. split; [exact Hl|].
  pose proof (@l2_penalty_nonnegative (weights (self w)) alpha Ha) as Hp.
  cbn [fadd RScalar]. lra.
Qed.

Lemma broadcast2_same (op : F -> F -> F) (A B : array) :
  shape A = shape B ->
  broadcast2 op A B
  = Ok (mk_ndarray (nrows A) (ncols A)
          (fun i j => op (bitem A i j) (bitem B i j))).
Proof.
  unfold shape. intros H. apply pair_equal_spec in H. destruct H as [Hr Hc].
  unfold broadcast2. rewrite <- Hr, <- Hc, !broadcast_dim_same.
  reflexivity.
Qed.

(** The cross-entropy of same-shaped arrays, term by term. *)
Lemma cross_entropy_terms (y p : array) :
  shape y = shape p ->
  exists S : array,
    binary_cross_entropy y p
    = Ok (- (fold_left Rplus (ravel S) 0 / INR (nrows p * ncols p))) /\
    shape S = shape p /\
    forall i j, (i < nrows p)%nat -> (j < ncols p)%nat ->
      item S i j
      = item y i j * ln (item p i j + 1e-8)
        + (1 - item y i j) * ln (1 - item p i j + 1e-8).
Proof.
  intros Hs. pose proof Hs as Hs'.
  unfold shape in Hs'. apply pair_equal_spec in Hs'.
  destruct Hs' as [Hr Hc].
  unfold binary_cross_entropy, mul_arrays, add_arrays.
  rewrite broadcast2_same by exact Hs. cbn [rbind].
  rewrite broadcast2_same by exact Hs. cbn [rbind].
  rewrite broadcast2_same by reflexivity. cbn [rbind].
  eexists. split.
  { unfold np_mean, np_sum, fsum.
    cbn [nrows ncols fneg fdiv fadd zero of_nat RScalar].
    rewrite Hr, Hc. reflexivity. }
  split; [unfold shape; cbn [nrows ncols]; congruence|].
  intros i j Hi Hj. cbn [item].
  rewrite !bitem_in_range by (cbn [nrows ncols amap]; lia).
  cbn [item].
  rewrite !bitem_in_range by (cbn [nrows ncols amap]; lia).
  reflexivity.
Qed.

Lemma ln_monotone x y : 0 < x -> x <= y -> ln x <= ln y.
Proof.
  intros Hx [Hlt | ->]; [|lra].
  left. apply ln_increasing; assumption.
Qed.

(** X20.  The loss that [train] records is not bounded below by 0.  For
    labels and predictions in [0, 1] (same shape, at least one entry)
    [binary_cross_entropy] returns at least [- ln (1 + 1e-8)], and that
    negative value is what it returns for a perfect prediction: the
    1e-8 inside the logarithms shifts the minimum below zero. *)
Theorem cross_entropy_is_bounded_below_by_a_negative_number
        (y p : array) :
  shape y = shape p ->
  (0 < nrows p * ncols p)%nat ->
  (forall i j, (i < nrows p)%nat -> (j < ncols p)%nat ->
     0 <= item y i j <= 1 /\ 0 <= item p i j <= 1) ->
  exists l,
    binary_cross_entropy y p = Ok l /\
    - ln (1 + 1e-8) <= l /\
    - ln (1 + 1e-8) < 0 /\
    ((forall i j, (i < nrows p)%nat -> (j < ncols p)%nat ->
        item p i j = item y i j /\ (item y i j = 0 \/ item y i j = 1)) ->
     l = - ln (1 + 1e-8)).
Proof.
  intros Hs Hpos Hrange.
  destruct (@cross_entropy_terms y p Hs) as (S & Hbce & HsS & Hterm).
  unfold shape in HsS. apply pair_equal_spec in HsS.
  destruct HsS as [HSr HSc].
  eexists. split; [exact Hbce|]. clear Hbce.
  change (@F RScalar) with R in *.
  assert (HN : 0 < INR (nrows p * ncols p)) by (apply lt_0_INR; exact Hpos).
  assert (Hlen : length (ravel S) = (nrows p * ncols p)%nat)
    by (rewrite length_ravel; congruence).
  assert (Hln : 0 < ln (1 + 1e-8)).
  { rewrite <- ln_1. apply ln_increasing; lra. }
  split; [|split; [lra|]].
  - assert (Hsum : fold_left Rplus (ravel S) 0
                   <= 0 + INR (length (ravel S)) * ln (1 + 1e-8)).
    { apply sum_upper_bound. intros v Hv.
      apply in_ravel in Hv. destruct Hv as (i & j & Hi & Hj & ->).
      rewrite Hterm by lia.
      destruct (Hrange i j ltac:(lia) ltac:(lia)) as [[Hy0 Hy1] [Hp0 Hp1]].
      assert (H1 : ln (item p i j + 1e-8) <= ln (1 + 1e-8))
        by (apply ln_monotone; lra).
      assert (H2 : ln (1 - item p i j + 1e-8) <= ln (1 + 1e-8))
        by (apply ln_monotone; lra).
      nra. }
    rewrite Hlen in Hsum.
    apply Ropp_le_contravar.
    apply (Rmult_le_reg_r (INR (nrows p * ncols p))); [exact HN|].
    unfold Rdiv. rewrite Rmult_assoc, Rinv_l by lra. lra.
  - intros Hperfect.
    rewrite (@sum_of_equal_terms (ravel S) (ln (1 + 1e-8)) 0).
    + rewrite Hlen. f_equal. field. lra.
    + intros v Hv.
      apply in_ravel in Hv. destruct Hv as (i & j & Hi & Hj & ->).
      rewrite Hterm by lia.
      destruct (Hperfect i j ltac:(lia) ltac:(lia)) as [-> [-> | ->]].
      * replace (1 - 0 + 1e-8) with (1 + 1e-8) by lra. lra.
      * replace (1 - 1) with 0 by lra. lra.
Qed.

End RealLosses.

(** ** The error signal over the real numbers *)

Module RealBackward.
Import RealModel RealFacts RealAnalysis RealLosses.
Local Open Scope R_scope.
#[local] Existing Instance RScalar.

Lemma registered_sigmoid_derivative (m : MLPBinaryClassifier) i d :
  initialized m ->
  nth_error (activations m) i = Some "sigmoid"%string ->
  nth_error (activation_derivatives m) i = Some d ->
  d = sigmoidDerivative.
Proof.
  intros (_ & _ & Hc & Hlf & Hld & _) Hname Hd.
  destruct (nth_error (activation_funcs m) i) as [f|] eqn:Ef.
  - pose proof (nth_error_combine _ _ _ Ef Hd) as Hfd.
    apply (map_nth_error Ok) in Hfd. rewrite <- Hc in Hfd.
    rewrite nth_error_map, Hname in Hfd. cbn in Hfd.
    inversion Hfd. reflexivity.
  - apply nth_error_None in Ef.
    assert (i < length (activation_derivatives m))%nat
      by (apply nth_error_Some; congruence).
    lia.
Qed.

(** X22.  The error signal [backward] starts from, for an output layer
    registered as "sigmoid": entry by entry the residual
    [prediction - label], divided by [s + 1e-8] and multiplied by [s],
    where [s = prediction * (1 - prediction)].  For a prediction in
    [0, 1] that is the residual times a factor in [0, 1): the stabiliser
    only ever damps the residual, and never changes its sign. *)
Theorem output_error_is_the_damped_residual
        (m : MLPBinaryClassifier) (acts : list array) (y a : array)
        (n : nat) :
  initialized m ->
  nth_error (activations m) (length (hidden_layers m))
  = Some "sigmoid"%string ->
  getlast acts = Ok a ->
  shape a = (n, 1%nat) ->
  shape y = (n, 1%nat) ->
  exists delta,
    output_delta m acts y = Ok delta /\
    shape delta = (n, 1%nat) /\
    forall r, (r < n)%nat ->
      item delta r 0
      = (item a r 0 - item y r 0)
        / (item a r 0 * (1 - item a r 0) + 1e-8)
        * (item a r 0 * (1 - item a r 0)) /\
      (0 <= item a r 0 <= 1 ->
       exists k, 0 <= k < 1 /\
                 item delta r 0 = k * (item a r 0 - item y r 0)).
Proof.
  intros Hinit Hname Hlast Ha Hy.
  destruct (initialized_lengths Hinit) as (_ & _ & _ & Hld).
  destruct (nth_error (activation_derivatives m) (length (hidden_layers m)))
    as [deriv|] eqn:Ed; [|apply nth_error_None in Ed; lia].
  pose proof (registered_sigmoid_derivative _ Hinit Hname Ed) as ->.
  pose proof Ha as Ha'. pose proof Hy as Hy'.
  unfold shape in Ha', Hy'. apply pair_equal_spec in Ha', Hy'.
  destruct Ha' as [Har Hac], Hy' as [Hyr Hyc].
  eexists. split.
  { unfold output_delta. rewrite Hlast. cbn [rbind].
    unfold binary_cross_entropyDerivative, sub_arrays, div_arrays.
    rewrite broadcast2_same by congruence. cbn [rbind].
    rewrite broadcast2_same by reflexivity. cbn [rbind].
    rewrite (getlast_nth _ Hld). unfold getitem. rewrite Ed. cbn [rbind].
    unfold mul_arrays. rewrite broadcast2_same by reflexivity.
    reflexivity. }
  split; [unfold shape; cbn [nrows ncols]; congruence|].
  intros r Hr. cbn [item].
  rewrite !bitem_in_range
    by (cbn [nrows ncols amap sigmoidDerivative]; lia).
  cbn [item amap sigmoidDerivative].
  rewrite !bitem_in_range
    by (cbn [nrows ncols amap sigmoidDerivative]; lia).
  cbn [item amap fmul fsub fadd fdiv one lit_1e_8 RScalar].
  rewrite ?(@bitem_col0 _ a n r Har Hac Hr), ?(@bitem_col0 _ y n r Hyr Hyc Hr).
  split; [reflexivity|].
  intros [H0 H1].
  set (p := item a r 0) in *. set (t := item y r 0).
  assert (Hs : 0 <= p * (1 - p)) by nra.
  exists (p * (1 - p) / (p * (1 - p) + 1e-8)).
  split.
  - split.
    + apply Rmult_le_pos; [exact Hs|].
      left. apply Rinv_0_lt_compat. lra.
    + apply (Rmult_lt_reg_r (p * (1 - p) + 1e-8)); [lra|].
      unfold Rdiv. rewrite Rmult_assoc, Rinv_l by lra. lra.
  - change (@F RScalar) with R. subst p t. field. lra.
Qed.


(** X23.  Dropout on a hidden layer registered as "sigmoid" distorts the
    derivative that [backward] uses.  The derivative is taken at the
    cached activation, and what [forward] cached for a masked layer is
    the activation after masking and scaling: [x = A * mask / (1 - rate)]
    with [A] the output of [sigmoid].  So the factor applied to the
    propagated error is [x * (1 - x)] instead of [A * (1 - A)]; at a kept
    entry with [A > 1 - rate] it is negative, where the derivative of
    [sigmoid] is positive. *)
Theorem dropout_distorts_the_sigmoid_derivative
        (X : array) (w : World) (i : nat) (delta : array)
        (gw gb : list array) :
  initialized (self w) ->
  ncols X = input_size (self w) ->
  (0 < i)%nat -> (i <= length (hidden_layers (self w)))%nat ->
  shape delta = (nrows X, nth (S i) (layer_sizes (self w)) 0%nat) ->
  nth_error (activations (self w)) (i - 1) = Some "sigmoid"%string ->
  dropout_applies (self w) true (i - 1) = true ->
  exists w' acts masks delta' g A_prev A rate mask W back,
    forward X true w = (w', Ok (acts, masks)) /\
    backward_layer (self w) acts masks i (delta, gw, gb)
    = Ok (delta', g :: gw, sum_axis0_keepdims delta :: gb) /\
    nth_error acts (i - 1) = Some A_prev /\
    activate (self w) (i - 1) A_prev = Ok A /\
    nth_error (dropout_rates (self w)) (i - 1) = Some rate /\
    nth_error masks (i - 1) = Some (Some mask) /\
    nth_error (weights (self w)) i = Some W /\
    dot delta (transpose W) = Ok back /\
    forall r c,
      (r < nrows X)%nat -> (c < nth i (layer_sizes (self w)) 0)%nat ->
      0 < item A r c < 1 /\
      item delta' r c
      = item back r c
        * (item A r c * item mask r c / (1 - rate)
           * (1 - item A r c * item mask r c / (1 - rate)))
        * item mask r c /\
      (0 < rate < 1 -> item mask r c = 1 -> item A r c > 1 - rate ->
       item A r c * item mask r c / (1 - rate)
       * (1 - item A r c * item mask r c / (1 - rate)) < 0).
Proof.
  intros Hinit HX Hpos Hi Hdelta Hname Happ.
  destruct (@forward_succeeds _ X true w Hinit HX)
    as (w' & acts & masks & Hf).
  pose proof (initialized_length_weights Hinit) as HL.
  destruct (@forward_cache_shapes _ _ _ _ _ _ _ Hinit HX Hf)
    as [Hacts Hmasks].
  destruct (@backward_layer_succeeds _ (self w) acts masks (nrows X) i
              delta gw gb Hinit Hacts Hmasks ltac:(lia) Hdelta)
    as (delta' & g & Hb & _ & _).
  destruct (@backward_layer_of_run _ X w w' acts masks i delta delta'
              gw gb _ _ Hf Hpos ltac:(lia) Hb)
    as (a & W & deriv & back & pre & Ha & HW & Hd & Hback & Hpre & Hcase).
  pose proof (registered_sigmoid_derivative _ Hinit Hname Hd) as ->.
  destruct (nth_error masks (i - 1)) as [[mask|]|] eqn:Em;
    [| destruct Hcase as [Hno _]; congruence | contradiction].
  destruct Hcase as (_ & _ & (Ap & A & rate & HAp & Hact & Hrate & Hsm & Hita)
                     & _ & Hitd & _).
  exists w', acts, masks, delta', g, Ap, A, rate, mask, W, back.
  repeat (split; [assumption || reflexivity|]).
  (* shapes *)
  destruct (Hacts i ltac:(lia)) as (a' & Ha' & Har & Hac).
  rewrite Ha in Ha'. inversion Ha'; subst a'.
  destruct (Hacts (i - 1)%nat ltac:(lia)) as (Ap' & HAp' & Hpr & _).
  rewrite HAp in HAp'. inversion HAp'; subst Ap'.
  destruct (activate_shape _ _ Hinit Hact) as [HAr HAc].
  replace (S (i - 1)) with i in HAc by lia.
  destruct (initialized_weight _ Hinit HW) as [_ HsW].
  unfold shape in HsW, Hdelta, Hsm.
  apply pair_equal_spec in HsW, Hdelta, Hsm.
  destruct HsW as [HW1 _], Hdelta as [Hdr _], Hsm as [Hmr Hmc].
  apply dot_shape in Hback. destruct Hback as [Hbr Hbc].
  cbn [transpose ncols] in Hbc.
  unfold mul_arrays in Hpre.
  rewrite broadcast2_same in Hpre
    by (unfold shape; cbn [sigmoidDerivative amap nrows ncols]; congruence).
  inversion Hpre; subst pre. clear Hpre.
  (* the activation before dropout is an output of [sigmoid] *)
  assert (HA01 : forall r c, 0 < item A r c < 1).
  { unfold activate in Hact.
    apply rbind_ok in Hact. destruct Hact as (W0 & _ & Hact).
    apply rbind_ok in Hact. destruct Hact as (AW & _ & Hact).
    apply rbind_ok in Hact. destruct Hact as (b0 & _ & Hact).
    apply rbind_ok in Hact. destruct Hact as (Z & _ & Hact).
    apply rbind_ok in Hact. destruct Hact as (f & Hfn & Hact).
    inversion Hact; subst A. apply getitem_ok in Hfn.
    assert (Hsig : f = sigmoid).
    { destruct Hinit as (_ & _ & Hc & Hlf & Hld & _).
      pose proof (nth_error_combine _ _ _ Hfn Hd) as Hfd.
      apply (map_nth_error Ok) in Hfd. rewrite <- Hc in Hfd.
      rewrite nth_error_map, Hname in Hfd. cbn in Hfd.
      inversion Hfd. reflexivity. }
    subst f. intros r c. rewrite sigmoid_item. apply logistic_bounds. }
  intros r c Hr Hc.
  split; [apply HA01|].
  split.
  - rewrite Hitd. cbn [item].
    change (item a (if nrows a =? 1 then 0%nat else r)
                   (if ncols a =? 1 then 0%nat else c))
      with (bitem a r c).
    change (@F RScalar) with R in *.
    rewrite !bitem_in_range by lia.
    rewrite Hita by lia.
    reflexivity.
  - intros [Hr0 Hr1] Hm HA. rewrite Hm, Rmult_1_r.
    set (x := item A r c / (1 - rate)).
    assert (Hx : 1 < x).
    { subst x. apply (Rmult_lt_reg_r (1 - rate)); [lra|].
      unfold Rdiv. rewrite Rmult_assoc, Rinv_l by lra. lra. }
    clearbody x. nra.
Qed.

End RealBackward.

(** ** Further runs over the real numbers *)

Module RealRuns.
Import RealModel RealFacts RealAnalysis RealLosses RealBackward.
Local Open Scope R_scope.
#[local] Existing Instance RScalar.

Lemma dropout_world_well_shaped : well_shaped (self dropout_world) X1 y0.
Proof. split; reflexivity. Qed.

Lemma sigmoid_dropout_world_initialized :
  initialized (self sigmoid_dropout_world).
Proof. unfold initialized. repeat split; reflexivity. Qed.

Lemma sigmoid_dropout_world_applies :
  dropout_applies (self sigmoid_dropout_world) true 0 = true.
Proof. run. reflexivity. Qed.

Lemma logistic_world_epochs : (0 < epochs (self logistic_world))%nat.
Proof. apply Nat.lt_0_succ. Qed.

Lemma X_wide_is_too_wide : ncols X_wide <> input_size (self logistic_world).
Proof. discriminate. Qed.

(** X1 at a run: two features for a network with one input. *)
Lemma wrong_width_witness :
  initialized (self logistic_world) /\
  ncols X_wide <> input_size (self logistic_world) /\
  forward X_wide true logistic_world
  = (logistic_world, Err (ValueError "shapes not aligned")) /\
  predict X_wide logistic_world
  = (logistic_world, Err (ValueError "shapes not aligned")).
Proof.
  split; [exact logistic_world_initialized|].
  split; [exact X_wide_is_too_wide|].
  exact (@forward_and_predict_reject_wrong_width RScalar X_wide true
           logistic_world logistic_world_initialized X_wide_is_too_wide).
Defined.

(** X2 at a run. *)
Lemma train_wrong_width_witness :
  initialized (self logistic_world) /\
  ncols X_wide <> input_size (self logistic_world) /\
  train X_wide y0 None None logistic_world
  = (logistic_world, Err (ValueError "shapes not aligned")).
Proof.
  split; [exact logistic_world_initialized|].
  split; [exact X_wide_is_too_wide|].
  destruct (@train_rejects_wrong_width RScalar X_wide y0 None None
              logistic_world logistic_world_initialized X_wide_is_too_wide)
    as [_ H].
  exact (H logistic_world_epochs).
Defined.

Lemma X_pair_has_the_width : ncols X_pair = input_size (self logistic_world).
Proof. reflexivity. Qed.

(** X3 at a run: two examples, their labels in a row. *)
Lemma row_labels_witness :
  initialized (self logistic_world) /\
  ncols X_pair = input_size (self logistic_world) /\
  shape y_row = (1%nat, nrows X_pair) /\
  (1 < nrows X_pair)%nat /\
  (0 < epochs (self logistic_world))%nat /\
  exists w',
    train X_pair y_row None None logistic_world
    = (w', Err (ValueError "non-broadcastable output operand")) /\
    self w' = self logistic_world.
Proof.
  split; [exact logistic_world_initialized|].
  split; [exact X_pair_has_the_width|].
  split; [reflexivity|]. split; [apply Nat.lt_succ_diag_r|].
  split; [exact logistic_world_epochs|].
  destruct (@train_rejects_labels_given_as_a_row RScalar X_pair y_row
              None None logistic_world logistic_world_initialized
              X_pair_has_the_width eq_refl (Nat.lt_succ_diag_r 1)
              logistic_world_epochs)
    as (w' & msg & H & Hs & _ & _ & Hmsg).
  exists w'. rewrite (Hmsg eq_refl) in H. split; [exact H | exact Hs].
Defined.

(** X4 at a run. *)
Lemma validation_without_labels_witness :
  initialized (self logistic_world) /\
  well_shaped (self logistic_world) X1 y0 /\
  (0 < epochs (self logistic_world))%nat /\
  exists w' loss,
    train X1 y0 (Some X1) None logistic_world
    = (w', Err (UnboundLocalError "val_loss")) /\
    stdout w' = [EpochLoss 0 loss] /\
    length (train_losses (self w')) = 1%nat.
Proof.
  split; [exact logistic_world_initialized|].
  split; [exact logistic_world_well_shaped|].
  split; [exact logistic_world_epochs|].
  destruct (@validation_inputs_without_labels_crash RScalar X1 y0 X1
              logistic_world logistic_world_initialized
              logistic_world_well_shaped logistic_world_epochs)
    as (w' & loss & H & Ho & Ht & _).
  exists w', loss. split; [exact H|]. split; [exact Ho | exact Ht].
Defined.

Lemma relu_sigmoid_registered nm :
  In nm ["relu"%string; "sigmoid"%string] -> registered nm = true.
Proof. intros [<- | [<- | []]]; reflexivity. Qed.

(** X5 at a run: 2 inputs, 3 hidden units, samples 0, 1, 2, ...: nine
    samples are taken, and the last weight is sample 8 times 0.01. *)
Lemma construction_draws_witness :
  length ["relu"%string; "sigmoid"%string] = S (length [3%nat]) /\
  (forall nm, In nm ["relu"%string; "sigmoid"%string] ->
              registered nm = true) /\
  exists m W,
    new_MLPBinaryClassifier 2%nat [3%nat] ["relu"%string; "sigmoid"%string]
      None 0.01 2%nat 0.001 counting
    = (mk_RandomState INR 9%nat, Ok m) /\
    nth_error (weights m) 1 = Some W /\
    item W 2%nat 0%nat = 8 * 0.01.
Proof.
  split; [reflexivity|]. split; [exact relu_sigmoid_registered|].
  destruct (@construction_draws_the_weights_in_order RScalar 2%nat [3%nat]
              ["relu"%string; "sigmoid"%string] None 0.01 2%nat 0.001
              counting eq_refl relu_sigmoid_registered)
    as (m & Hnew & Hw & _).
  assert (HW : exists W, nth_error (weights m) 1 = Some W /\ ncols W = 1%nat).
  { assert (Hm : m = self (world_of
                   (new_MLPBinaryClassifier 2%nat [3%nat]
                      ["relu"%string; "sigmoid"%string] None 0.01 2%nat
                      0.001 counting)))
      by (rewrite Hnew; reflexivity).
    rewrite Hm. eexists. split; reflexivity. }
  destruct HW as (W & HW & Hc).
  exists m, W. split; [exact Hnew|]. split; [exact HW|].
  rewrite (Hw 1%nat W HW 2%nat 0%nat), Hc.
  change (INR 8 * 0.01 = 8 * 0.01). rewrite INR_IZR_INZ. reflexivity.
Defined.

(** X6 at a run: the second name is unknown, and the weights of both
    layers have been drawn. *)
Lemma failed_construction_witness :
  new_MLPBinaryClassifier 2%nat [3%nat] ["relu"%string; "tanh"%string]
    None 0.01 2%nat 0.001 counting
  = (mk_RandomState INR 9%nat, Err (KeyError "tanh")).
Proof.
  destruct (@failed_construction_may_have_drawn RScalar 2%nat [3%nat]
              ["relu"%string; "tanh"%string] None 0.01 2%nat 0.001
              counting) as [_ H].
  apply (H eq_refl 1%nat "tanh"%string eq_refl eq_refl).
  intros [|i] nm Hi Hnm; [|lia].
  inversion Hnm. reflexivity.
Defined.

(** X7 at a run: a step along the parameters themselves. *)
Lemma gradient_step_witness :
  length (biases (self logistic_world))
  = length (weights (self logistic_world)) /\
  exists w',
    update_weights (weights (self logistic_world))
                   (biases (self logistic_world)) logistic_world
    = (w', Ok tt) /\
    np_random w' = np_random logistic_world.
Proof.
  split; [reflexivity|].
  destruct (@update_weights_is_a_gradient_step RScalar
              (weights (self logistic_world)) (biases (self logistic_world))
              logistic_world eq_refl eq_refl eq_refl)
    as (w' & H & Hg & _).
  exists w'. split; [exact H | exact Hg].
Defined.

Lemma firstn_fits (l : list array) : fits (firstn 1 l) l.
Proof.
  intros [|i] G P HG HP.
  - destruct l as [|a l]; cbn in *; congruence.
  - destruct l as [|a l]; cbn in HG; destruct i; discriminate.
Qed.

(** X8 at a run: two layers, gradients for the first only. *)
Lemma missing_gradients_witness :
  length (biases (self dropout_world))
  = length (weights (self dropout_world)) /\
  (length (firstn 1 (weights (self dropout_world)))
   < length (weights (self dropout_world)))%nat /\
  exists w',
    update_weights (firstn 1 (weights (self dropout_world)))
                   (firstn 1 (biases (self dropout_world))) dropout_world
    = (w', Err IndexError) /\
    nth_error (weights (self w')) 1
    = nth_error (weights (self dropout_world)) 1.
Proof.
  split; [reflexivity|]. split; [apply Nat.lt_succ_diag_r|].
  destruct (@update_weights_with_missing_gradients RScalar
              (firstn 1 (weights (self dropout_world)))
              (firstn 1 (biases (self dropout_world))) dropout_world
              eq_refl eq_refl (Nat.lt_succ_diag_r 1)
              (firstn_fits _) (firstn_fits _))
    as (w' & H & _ & _ & Hrest).
  exists w'. split; [exact H|].
  exact (proj1 (Hrest 1%nat (le_n 1))).
Defined.

(** X9 at a run. *)
Lemma cache_shapes_witness :
  initialized (self dropout_world) /\
  ncols X1 = input_size (self dropout_world) /\
  exists w' acts masks A,
    forward X1 true dropout_world = (w', Ok (acts, masks)) /\
    nth_error acts 1 = Some A /\ shape A = (1%nat, 1%nat).
Proof.
  split; [exact dropout_world_initialized|]. split; [reflexivity|].
  destruct (@forward_caches_activations_of_layer_shape RScalar X1 true
              dropout_world dropout_world_initialized eq_refl)
    as (w' & acts & masks & H & _ & _ & Hacts & _).
  destruct (Hacts 1%nat (le_S _ _ (le_n 1))) as (A & HA & HsA).
  exists w', acts, masks, A. split; [exact H|]. split; [exact HA | exact HsA].
Defined.

(** X10 at a run. *)
Lemma gradient_shapes_witness :
  initialized (self dropout_world) /\
  well_shaped (self dropout_world) X1 y0 /\
  exists w' acts masks grads_w grads_b,
    forward X1 true dropout_world = (w', Ok (acts, masks)) /\
    backward (self w') acts y0 masks = Ok (grads_w, grads_b) /\
    map shape grads_w = [(1, 1); (1, 1)]%nat.
Proof.
  split; [exact dropout_world_initialized|].
  split; [exact dropout_world_well_shaped|].
  destruct (@gradients_have_the_shapes_of_the_parameters RScalar X1 y0 true
              dropout_world dropout_world_initialized
              dropout_world_well_shaped)
    as (w' & acts & masks & gw & gb & w'' & H & Hb & Hgw & _).
  exists w', acts, masks, gw, gb. split; [exact H|]. split; [exact Hb|].
  rewrite Hgw. reflexivity.
Defined.

(** X11 at a run: two calls of two epochs each. *)
Lemma train_twice_witness :
  initialized (self logistic_world) /\
  well_shaped (self logistic_world) X1 y0 /\
  validation_well_shaped (self logistic_world) None None /\
  (@None array = None \/ @None array <> None) /\
  exists w1 w2,
    train X1 y0 None None logistic_world = (w1, Ok tt) /\
    train X1 y0 None None w1 = (w2, Ok tt) /\
    length (train_losses (self w2)) = 4%nat.
Proof.
  split; [exact logistic_world_initialized|].
  split; [exact logistic_world_well_shaped|].
  split; [exact I|]. split; [left; reflexivity|].
  destruct (@train_resumes_from_the_trained_weights RScalar X1 y0 None None
              logistic_world logistic_world_initialized
              logistic_world_well_shaped I (or_introl eq_refl))
    as (w1 & w2 & t1 & t2 & v1 & v2 & H1 & _ & _ & H2 & _ & _ & Ht & Hn1 & Hn2 & _).
  exists w1, w2. split; [exact H1|]. split; [exact H2|].
  rewrite Ht, !length_app, Hn1, Hn2. reflexivity.
Defined.

(** X12 at a run: one masked entry, one sample. *)
Lemma forward_draws_witness :
  initialized (self dropout_world) /\
  ncols X1 = input_size (self dropout_world) /\
  exists w' acts masks,
    forward X1 true dropout_world = (w', Ok (acts, masks)) /\
    consumed (np_random w') = S (consumed (np_random dropout_world)).
Proof.
  split; [exact dropout_world_initialized|]. split; [reflexivity|].
  destruct (@forward_draws_one_sample_per_masked_entry RScalar X1 true
              dropout_world dropout_world_initialized eq_refl)
    as (w' & acts & masks & H & Hg & _).
  exists w', acts, masks. split; [exact H|].
  rewrite Hg. cbn [consumed].
  assert (Hd : dropout_draws (self dropout_world) true (nrows X1)
                 (range (S (length (hidden_layers (self dropout_world)))))
               = 1%nat).
  { unfold dropout_draws, range.
    change (length (hidden_layers (self dropout_world))) with 1%nat.
    cbn [seq map].
    rewrite dropout_world_applies.
    rewrite (@dropout_applies_beyond RScalar (self dropout_world) true 1)
      by apply le_n.
    reflexivity. }
  rewrite Hd. apply Nat.add_1_r.
Defined.

(** X13 at a run: epoch 0 with validation data prints two lines. *)
Lemma epoch_report_witness :
  initialized (self logistic_world) /\
  well_shaped (self logistic_world) X1 y0 /\
  validation_well_shaped (self logistic_world) (Some X1) (Some y0) /\
  (Some X1 = None \/ Some y0 <> None) /\
  exists w' v loss vl,
    train_epoch X1 y0 (Some X1) (Some y0) 0 None logistic_world
    = (w', Ok v) /\
    stdout w'
    = [EpochLoss 0 (loss + l2_penalty (weights (self w')) 0.001);
       ValLoss vl] /\
    val_losses (self w') = [vl].
Proof.
  split; [exact logistic_world_initialized|].
  split; [exact logistic_world_well_shaped|].
  split; [exact logistic_world_well_shaped|].
  split; [right; discriminate|].
  destruct (@reported_loss_ignores_l2_lambda RScalar X1 y0 (Some X1)
              (Some y0) 0%nat None logistic_world
              logistic_world_initialized logistic_world_well_shaped
              logistic_world_well_shaped ltac:(right; discriminate))
    as (w' & v & loss & H & _ & Ho & Hv & _).
  destruct (Hv ltac:(discriminate)) as (vl & -> & Hvl).
  exists w', (Some vl), loss, vl.
  split; [exact H|]. split; [exact Ho | exact Hvl].
Defined.

(** X14 at a run: two epochs, so only epoch 0 is reported. *)
Lemma report_schedule_witness :
  initialized (self logistic_world) /\
  well_shaped (self logistic_world) X1 y0 /\
  validation_well_shaped (self logistic_world) (Some X1) (Some y0) /\
  (Some X1 = None \/ Some y0 <> None) /\
  exists w' lines,
    train X1 y0 (Some X1) (Some y0) logistic_world = (w', Ok tt) /\
    stdout w' = lines /\
    map epoch_of lines = [Some 0%nat; None].
Proof.
  split; [exact logistic_world_initialized|].
  split; [exact logistic_world_well_shaped|].
  split; [exact logistic_world_well_shaped|].
  split; [right; discriminate|].
  destruct (@train_reports_every_hundredth_epoch RScalar X1 y0 (Some X1)
              (Some y0) logistic_world
              logistic_world_initialized logistic_world_well_shaped
              logistic_world_well_shaped ltac:(right; discriminate))
    as (w' & lines & H & Ho & Hl).
  exists w', lines. split; [exact H|]. split; [exact Ho | exact Hl].
Defined.

(** X15 at a run: a network with dropout, so the random state moves. *)
Lemma validation_is_passive_witness :
  initialized (self dropout_world) /\
  well_shaped (self dropout_world) X1 y0 /\
  exists wa wb,
    train X1 y0 None None dropout_world = (wa, Ok tt) /\
    train X1 y0 (Some X1) (Some y0) dropout_world = (wb, Ok tt) /\
    weights (self wb) = weights (self wa) /\
    np_random wb = np_random wa.
Proof.
  split; [exact dropout_world_initialized|].
  split; [exact dropout_world_well_shaped|].
  destruct (@validation_data_does_not_influence_training RScalar X1 y0 X1 y0
              dropout_world dropout_world_initialized
              dropout_world_well_shaped dropout_world_well_shaped)
    as (wa & wb & Ha & Hb & Hw & _ & _ & Hg & _).
  exists wa, wb. auto.
Defined.

(** X18 at a run: the slope of [relu] at 1. *)
Lemma relu_derivative_witness :
  1 <> 0 /\
  derivable_pt_lim (pointwise relu) 1
    (pointwise reluDerivative (pointwise relu 1)).
Proof.
  split; [exact R1_neq_R0|].
  exact (proj1 (reluDerivative_of_the_activation_is_the_derivative
                  R1_neq_R0)).
Defined.

Lemma small_coefficient : 0 <= 0.001.
Proof. lra. Qed.

(** X19 at a run. *)
Lemma l2_penalty_witness :
  0 <= 0.001 /\
  0 <= l2_penalty (weights (self logistic_world)) 0.001.
Proof.
  split; [exact small_coefficient|].
  exact (proj1 (@l2_penalty_only_adds_to_the_loss
                  (weights (self logistic_world)) 0.001 small_coefficient)).
Defined.

Lemma half_in_range i j :
  (i < nrows half)%nat -> (j < ncols half)%nat ->
  0 <= item y0 i j <= 1 /\ 0 <= item half i j <= 1.
Proof.
  intros Hi Hj. cbn in Hi, Hj.
  destruct i as [|i]; [|lia]. destruct j as [|j]; [|lia].
  cbn. lra.
Qed.

(** X20 at a run: label 0 against a prediction of one half. *)
Lemma cross_entropy_witness :
  shape y0 = shape half /\
  (0 < nrows half * ncols half)%nat /\
  exists l, binary_cross_entropy y0 half = Ok l /\ - ln (1 + 1e-8) <= l.
Proof.
  split; [reflexivity|]. split; [apply Nat.lt_0_1|].
  destruct (@cross_entropy_is_bounded_below_by_a_negative_number y0 half
              eq_refl Nat.lt_0_1 half_in_range)
    as (l & H & Hb & _).
  exists l. split; [exact H | exact Hb].
Defined.

(** X22 at a run: prediction one half, label 0. *)
Lemma output_error_witness :
  initialized (self logistic_world) /\
  getlast [X1; half] = Ok half /\
  shape half = (1%nat, 1%nat) /\ shape y0 = (1%nat, 1%nat) /\
  exists delta,
    output_delta (self logistic_world) [X1; half] y0 = Ok delta /\
    shape delta = (1%nat, 1%nat).
Proof.
  split; [exact logistic_world_initialized|].
  split; [reflexivity|]. split; [reflexivity|]. split; [reflexivity|].
  destruct (@output_error_is_the_damped_residual (self logistic_world)
              [X1; half] y0 half 1%nat logistic_world_initialized
              eq_refl eq_refl eq_refl eq_refl)
    as (delta & H & Hs & _).
  exists delta. split; [exact H | exact Hs].
Defined.

(** X23 at a run. *)
Lemma sigmoid_dropout_witness :
  initialized (self sigmoid_dropout_world) /\
  ncols X1 = input_size (self sigmoid_dropout_world) /\
  dropout_applies (self sigmoid_dropout_world) true 0 = true /\
  exists w' acts masks mask,
    forward X1 true sigmoid_dropout_world = (w', Ok (acts, masks)) /\
    nth_error masks 0 = Some (Some mask).
Proof.
  split; [exact sigmoid_dropout_world_initialized|].
  split; [reflexivity|].
  split; [exact sigmoid_dropout_world_applies|].
  destruct (@dropout_distorts_the_sigmoid_derivative X1
              sigmoid_dropout_world 1%nat X1 [] []
              sigmoid_dropout_world_initialized eq_refl Nat.lt_0_1 (le_n 1)
              eq_refl eq_refl sigmoid_dropout_world_applies)
    as (w' & acts & masks & d' & g & Ap & A & rate & mask & W & back &
        H & _ & _ & _ & _ & Hm & _).
  exists w', acts, masks, mask. split; [exact H | exact Hm].
Defined.

End RealRuns.
